(** * The websocket front end of the vaex server

    A shallow embedding of [WebSocketHandler.on_message] and of the
    [progress] callback it creates
    (packages/vaex-server/vaex/server/tornado_server.py), with the
    properties the protocol specification states about them.

    Python values that travel in messages are [pyobj]; a Python [float] is
    an IEEE binary64 number, which is Rocq's primitive [float]; a [dict]
    with string keys is a [gmap string].  The handler runs in a state and
    error monad [M]: the state holds the objects the handler shares with the
    server and the cells of the running invocation, the error is the Python
    exception in flight. *)

From Stdlib Require Import Floats ZArith Lia.
From stdpp Require Import base strings gmap list sorting.

#[local] Set Warnings "-register-all".
#[local] Open Scope string_scope.
#[local] Open Scope list_scope.

(** ** Python values *)

Inductive pyobj : Type :=
| PyNone
| PyBool (b : bool)
| PyInt (z : Z)
| PyFloat (f : float)
| PyStr (s : string)
| PyList (l : list pyobj)
| PyDict (d : gmap string pyobj).

(** An instance of [Exception]: [exc_class] is [e.__class__.__name__],
    [exc_str] is [str(e)], [exc_traceback] stands for everything else the
    object carries and that [logger.exception] records on the server.
    ([KeyboardInterrupt] and the like, which [except Exception] lets pass,
    are not modelled.) *)
Record exn : Type := Exn {
  exc_class : string;
  exc_str : string;
  exc_traceback : list string
}.

Definition ValueError (msg : string) : exn := Exn "ValueError" msg [].
Definition NotImplementedError (msg : string) : exn := Exn "NotImplementedError" msg [].
(** [str(KeyError(k))] is the repr of the key; the keys used here are plain
    identifiers, whose repr is the key between single quotes. *)
Definition KeyError (key : string) : exn := Exn "KeyError" ("'" ++ key ++ "'")%string [].
Definition TypeError (msg : string) : exn := Exn "TypeError" msg [].

(** [o[key]] for a string key. *)
Definition py_getitem (o : pyobj) (key : string) : exn + pyobj :=
  match o with
  | PyDict d =>
      match d !! key with
      | Some v => inr v
      | None => inl (KeyError key)
      end
  | PyNone => inl (TypeError "'NoneType' object is not subscriptable")
  | PyBool _ => inl (TypeError "'bool' object is not subscriptable")
  | PyInt _ => inl (TypeError "'int' object is not subscriptable")
  | PyFloat _ => inl (TypeError "'float' object is not subscriptable")
  | PyStr _ => inl (TypeError "string indices must be integers")
  | PyList _ => inl (TypeError "list indices must be integers or slices, not str")
  end.

(** [o == s] for a string literal [s]. *)
Definition py_eq_str (o : pyobj) (s : string) : bool :=
  match o with
  | PyStr s' => String.eqb s' s
  | _ => false
  end.

(** The configured tokens are [None] or a string (the command line's
    [--token], [--token-trusted]). *)
Definition py_of_token (t : option string) : pyobj :=
  match t with
  | None => PyNone
  | Some s => PyStr s
  end.

(** [o == t] for a configured token [t]. *)
Definition py_eq_token (o : pyobj) (t : option string) : bool :=
  match o, t with
  | PyNone, None => true
  | PyStr s, Some s' => String.eqb s s'
  | _, _ => false
  end.

(** Truth value of a Python object ([bool(o)]). *)
Definition py_truthy (o : pyobj) : bool :=
  match o with
  | PyNone => false
  | PyBool b => b
  | PyInt z => negb (z =? 0)%Z
  | PyFloat f => negb (f =? 0)%float
  | PyStr s => negb (String.eqb s "")
  | PyList l => match l with [] => false | _ => true end
  | PyDict d => negb (bool_decide (d = ∅))
  end.

Definition token_truthy (t : option string) : bool := py_truthy (py_of_token t).

(** A configured token that is set, and not to the empty string. *)
Definition non_empty (t : option string) : Prop := ∃ s, t = Some s ∧ s ≠ "".

(** ** The progress guard (line 84) *)

#[warnings="-inexact-float"]
Definition threshold : float := 0.05%float.

(** [(last_progress is None or (f - last_progress) > 0.05 or f == 1.0)
     and (last_progress is None or f > last_progress)] *)
Definition emit_guard (last_progress : option float) (f : float) : bool :=
  (match last_progress with
   | None => true
   | Some l => (threshold <? f - l)%float
   end
   || (f =? 1)%float)
  && match last_progress with
     | None => true
     | Some l => (l <? f)%float
     end.

(** ** Outbound messages *)

(** [{'msg_id': msg_id, 'msg': msg}] *)
Definition envelope (msg_id msg : pyobj) : pyobj :=
  PyDict {[ "msg_id" := msg_id; "msg" := msg ]}.

Definition progress_msg (f : float) : pyobj := PyDict {[ "progress" := PyFloat f ]}.
Definition result_msg (result : pyobj) : pyobj := PyDict {[ "result" := result ]}.

(** [exception(e)] (lines 31-33); the logging call is not modelled. *)
Definition exception (e : exn) : pyobj :=
  PyDict {[ "exception" :=
            PyDict {[ "class" := PyStr (exc_class e); "msg" := PyStr (exc_str e) ]} ]}.

(** [error(msg)] (lines 36-37). *)
Definition error (msg : string) : pyobj := PyDict {[ "error" := PyStr msg ]}.

(** ** What happens while [on_message] is suspended at its [yield]

    The worker thread reports a fraction through the callback it was given,
    or the IOLoop runs the callback that was scheduled first. *)
Inductive activity : Type :=
| Report (f : float)
| RunCallback.

(** Invocations of the collaborators by the command branches, as a ghost
    trace. *)
Inductive call : Type :=
| CallList
| CallGetitem (name : pyobj)
| CallCopy
| CallStateSet (trusted : bool)
| CallDecodeList
| CallExecute
| CallEncodeList
| CallRmi (method args kwargs : pyobj)
| CallEncode (typename : string).

(** ** The collaborators

    Everything [on_message] calls that is not in tornado_server.py: the wire
    codec ([vaex.encoding]), the service ([vaex.server.service]), the
    dataframe and the allow-list of [vaex.remote].  Each may raise. *)
Class Collaborators : Type := {
  Service : Type;
  LRUCache : Type;
  DataFrame : Type;
  Task : Type;
  Value : Type;
  deserialize : list Byte.byte → exn + pyobj;
  py_repr : pyobj → string;
  allowed_method_names : list string;
  service_list : Service → (exn + pyobj) * Service;
  service_getitem : pyobj → Service → (exn + DataFrame) * Service;
  df_copy : DataFrame → exn + DataFrame;
  df_state_set : DataFrame → pyobj → bool → exn + DataFrame;
  decode_list : pyobj → DataFrame → exn + list Task;
  service_execute :
    DataFrame → list Task → Service → list activity * (exn + list Value) * Service;
  encode_list : list Value → exn + pyobj;
  service_rmi :
    DataFrame → pyobj → pyobj → pyobj → Service → (exn + Value) * Service;
  encode : string → Value → exn + pyobj
}.

(** The configuration [WebServer.__init__] stores (lines 159-160). *)
Module WebServer.
Record t : Type := {
  token : option string;
  token_trusted : option string
}.
End WebServer.

(** Lines 68-69, without the negation. *)
Definition authorized (webserver : WebServer.t) (token token_trusted : pyobj) : bool :=
  py_eq_token token (WebServer.token webserver)
  || (token_truthy (WebServer.token_trusted webserver)
      && py_eq_token token_trusted (WebServer.token_trusted webserver)).

(** Line 66; [state_set] is given the truth value. *)
Definition trusted_of (webserver : WebServer.t) (token_trusted : pyobj) : bool :=
  py_eq_token token_trusted (WebServer.token_trusted webserver) && py_truthy token_trusted.

Section Handler.
Context `{Collaborators}.
Variable webserver : WebServer.t.

(** ** State *)

(** What the handler shares with the server and the connection: the
    service (which owns the catalog [df_map]), the two caches handed to
    [initialize], the messages given to [write_message] so far, whether the
    handler closed the connection, and the trace of collaborator calls. *)
Record world : Type := World {
  service : Service;
  cache : LRUCache;
  cache_selection : LRUCache;
  written : list pyobj;
  closed : bool;
  calls : list call
}.

(** One run of [on_message]: the shared objects, the cells [msg_id] and
    [last_progress] that the closures [progress] and [do] capture, and the
    [do] closures handed to [ioloop.add_callback] that have not run yet
    (each is determined by its [f]). *)
Record invocation : Type := Invocation {
  shared : world;
  msg_id : pyobj;
  last_progress : option float;
  callbacks : list float
}.

Definition write_message (m : pyobj) (w : world) : world :=
  World (service w) (cache w) (cache_selection w) (written w ++ [m]) (closed w) (calls w).
Definition record_call (c : call) (w : world) : world :=
  World (service w) (cache w) (cache_selection w) (written w) (closed w) (calls w ++ [c]).
Definition set_service (s : Service) (w : world) : world :=
  World s (cache w) (cache_selection w) (written w) (closed w) (calls w).
Definition set_caches (c c' : LRUCache) (w : world) : world :=
  World (service w) c c' (written w) (closed w) (calls w).

Definition with_shared (g : world → world) (σ : invocation) : invocation :=
  Invocation (g (shared σ)) (msg_id σ) (last_progress σ) (callbacks σ).
Definition set_msg_id (v : pyobj) (σ : invocation) : invocation :=
  Invocation (shared σ) v (last_progress σ) (callbacks σ).
Definition set_last_progress (v : option float) (σ : invocation) : invocation :=
  Invocation (shared σ) (msg_id σ) v (callbacks σ).
Definition set_callbacks (q : list float) (σ : invocation) : invocation :=
  Invocation (shared σ) (msg_id σ) (last_progress σ) q.
(** [self.webserver.ioloop.add_callback(do)] *)
Definition add_callback (f : float) (σ : invocation) : invocation :=
  set_callbacks (callbacks σ ++ [f]) σ.

(** ** The monad *)

Definition M (A : Type) : Type := invocation → (exn + A) * invocation.

#[global] Instance M_ret : MRet M := λ A a σ, (inr a, σ).
#[global] Instance M_bind : MBind M := λ A B k m σ,
  match m σ with
  | (inl e, σ') => (inl e, σ')
  | (inr a, σ') => k a σ'
  end.

Definition raise {A} (e : exn) : M A := λ σ, (inl e, σ).
Definition lift {A} (r : exn + A) : M A := λ σ, (r, σ).
Definition modify (g : invocation → invocation) : M () := λ σ, (inr (), g σ).

Definition getitem (o : pyobj) (key : string) : M pyobj := lift (py_getitem o key).

(** A method of [self.service]: it is recorded, runs on the service and
    may change it. *)
Definition call_service {A} (c : call) (g : Service → (exn + A) * Service) : M A :=
  λ σ, let '(r, s) := g (service (shared σ)) in
       (r, with_shared (set_service s) (with_shared (record_call c) σ)).
(** A call that does not involve the service. *)
Definition call_other {A} (c : call) (r : exn + A) : M A :=
  λ σ, (r, with_shared (record_call c) σ).

(** [write_json] (lines 128-131): the codec and the socket write are taken
    to succeed on every message the handler builds. *)
Definition write_json (msg : pyobj) : M () := modify (with_shared (write_message msg)).

(** ** [progress] (lines 74-89) *)

(** The inner function [do] (lines 77-81). *)
Definition do (f : float) (σ : invocation) : invocation :=
  let σ := set_last_progress (Some f) σ in
  with_shared (write_message (envelope (msg_id σ) (progress_msg f))) σ.

Definition progress (f : float) (from_current_ioloop : bool) : M bool :=
  λ σ, if emit_guard (last_progress σ) f
       then (inr true, if from_current_ioloop then do f σ else add_callback f σ)
       else (inr true, σ).

(** The IOLoop runs the callback scheduled first, if there is one: callbacks
    given to [add_callback] run later, in the order they were added. *)
Definition run_callback (σ : invocation) : invocation :=
  match callbacks σ with
  | [] => σ
  | f :: q => do f (set_callbacks q σ)
  end.

(** The job calls [progress(f)], with [from_current_ioloop] at its default. *)
Definition suspended (a : activity) : M () :=
  match a with
  | Report f => _ ← progress f false; mret ()
  | RunCallback => modify run_callback
  end.

Fixpoint suspension (script : list activity) : M () :=
  match script with
  | [] => mret ()
  | a :: script => suspended a;; suspension script
  end.

(** [yield self.service.execute(df, tasks, progress=progress)]: the
    service starts the job, the handler is suspended while the job reports
    progress, and is resumed with the results or the exception. *)
Definition execute (df : DataFrame) (tasks : list Task) : M (list Value) :=
  λ σ, let '(script, outcome, s) := service_execute df tasks (service (shared σ)) in
       let σ := with_shared (set_service s) (with_shared (record_call CallExecute) σ) in
       match suspension script σ with
       | (inl e, σ) => (inl e, σ)
       | (inr _, σ) => (outcome, σ)
       end.

Definition method_allowed (method : pyobj) : bool :=
  match method with
  | PyStr s => bool_decide (s ∈ allowed_method_names)
  | _ => false
  end.

(** [str(o)], as the f-string of line 121 formats it. *)
Definition py_str (o : pyobj) : string :=
  match o with
  | PyStr s => s
  | _ => py_repr o
  end.

Definition get_msg_id : M pyobj := λ σ, (inr (msg_id σ), σ).

(** [self.write_json({'msg_id': msg_id, 'msg': msg})] *)
Definition reply (msg : pyobj) : M () :=
  id ← get_msg_id; write_json (envelope id msg).

(** [df = self.service[msg['df']].copy()] followed by
    [df.state_set(msg['state'], use_active_range=True, trusted=trusted)]
    (lines 96-97 and 107-108). *)
Definition prepare_df (msg : pyobj) (trusted : bool) : M DataFrame :=
  name ← getitem msg "df";
  df ← call_service (CallGetitem name) (service_getitem name);
  df ← call_other CallCopy (df_copy df);
  state ← getitem msg "state";
  call_other (CallStateSet trusted) (df_state_set df state trusted).

(** ** [on_message]: the body of the [try] (lines 60-121)

    The body is cut at the source's own seams: the [execute] branch (lines
    96-105), the [call-dataframe] branch (lines 107-119), the dispatch on
    [command] (lines 91-121), the authorization in front of it (lines 64-72)
    and the decoding of the envelope (lines 60-62). *)

(** The integer [1] of lines 100-101 is the float 1.0: Python compares and
    subtracts the two alike. *)
Definition command_execute (msg : pyobj) (trusted : bool) : M () :=
  df ← prepare_df msg trusted;
  tasks ← getitem msg "tasks";
  tasks ← call_other CallDecodeList (decode_list tasks df);
  results ← execute df tasks;
  modify (set_last_progress (Some 1%float));;
  _ ← progress 1 true;
  results ← call_other CallEncodeList (encode_list results);
  reply (result_msg results).

(** The [print] of line 114 is left out. *)
Definition command_call_dataframe (msg : pyobj) (trusted : bool) : M () :=
  df ← prepare_df msg trusted;
  method ← getitem msg "method";
  if negb (method_allowed method) then
    raise (NotImplementedError "Method is not rmi invokable")
  else
    method ← getitem msg "method";
    args ← getitem msg "args";
    kwargs ← getitem msg "kwargs";
    results ← call_service (CallRmi method args kwargs)
                           (service_rmi df method args kwargs);
    method ← getitem msg "method";
    results ←
      (if py_eq_str method "_evaluate_implementation"
       then call_other (CallEncode "vaex-evaluate-result")
                       (encode "vaex-evaluate-result" results)
       else call_other (CallEncode "vaex-rmi-result")
                       (encode "vaex-rmi-result" results));
    reply (result_msg results).

Definition dispatch (msg : pyobj) (trusted : bool) : M () :=
  command ← getitem msg "command";
  if py_eq_str command "list" then
    result ← call_service CallList service_list;
    reply (result_msg result)
  else if py_eq_str command "execute" then
    command_execute msg trusted
  else if py_eq_str command "call-dataframe" then
    command_call_dataframe msg trusted
  else
    raise (ValueError ("Unknown command: " ++ py_str command)%string).

(** Lines 64-72, then the dispatch. *)
Definition authorize (msg auth : pyobj) : M () :=
  token ← getitem auth "token";
  token_trusted ← getitem auth "token-trusted";
  let trusted := trusted_of webserver token_trusted in
  if negb (authorized webserver token token_trusted) then
    raise (ValueError "No token provided, not authorized")
  else
    modify (set_last_progress None);;
    dispatch msg trusted.

(** Lines 60-62: the three fields of the envelope.  The right-hand side of
    line 62 is evaluated in full before any of the three names is bound. *)
Definition decode (websocket_msg : list Byte.byte) : exn + pyobj * pyobj * pyobj :=
  match deserialize websocket_msg with
  | inl e => inl e
  | inr websocket_msg =>
      match py_getitem websocket_msg "msg_id" with
      | inl e => inl e
      | inr id =>
          match py_getitem websocket_msg "msg" with
          | inl e => inl e
          | inr msg =>
              match py_getitem websocket_msg "auth" with
              | inl e => inl e
              | inr auth => inr (id, msg, auth)
              end
          end
      end
  end.

Definition on_message_try (websocket_msg : list Byte.byte) : M () :=
  '(id, msg, auth) ← lift (decode websocket_msg);
  modify (set_msg_id id);;
  authorize msg auth.

(** The cells of a fresh invocation: [msg_id = 'invalid'] (line 57), no
    progress sent, nothing scheduled. *)
Definition enter (w : world) : invocation := Invocation w (PyStr "invalid") None [].

(** ** [on_message] with its [except Exception] clause (lines 123-126) *)
Definition on_message (websocket_msg : list Byte.byte) (w : world) : invocation :=
  match on_message_try websocket_msg (enter w) with
  | (inr _, σ) => σ
  | (inl e, σ) => (reply (exception e) σ).2
  end.

(** The IOLoop runs what is still scheduled once the handler has returned. *)
Definition run_callbacks (σ : invocation) : invocation :=
  foldl (λ σ f, do f σ) (set_callbacks [] σ) (callbacks σ).

(** One inbound message, handled to the end. *)
Definition handle (websocket_msg : list Byte.byte) (w : world) : world :=
  shared (run_callbacks (on_message websocket_msg w)).

(** The messages written for one inbound message. *)
Definition frames (websocket_msg : list Byte.byte) (w : world) : list pyobj :=
  drop (length (written w)) (written (handle websocket_msg w)).

End Handler.

(** ** Vocabulary of the properties *)

Section Vocabulary.
Context `{Collaborators}.
Variable webserver : WebServer.t.

(** The collaborator calls made for one inbound message. *)
Definition performed (websocket_msg : list Byte.byte) (w : world) : list call :=
  drop (length (calls w)) (calls (handle webserver websocket_msg w)).

(** The catalog (inside the service), the two caches and the trace of calls
    are the same in [w'] as in [w]. *)
Definition untouched (w w' : world) : Prop :=
  service w' = service w ∧ cache w' = cache w
  ∧ cache_selection w' = cache_selection w ∧ calls w' = calls w.

(** [part] occurs in [text]. *)
Fixpoint mentions (text part : string) : bool :=
  String.prefix part text
  || match text with
     | EmptyString => false
     | String _ text => mentions text part
     end.

(** The answer to the message is one error envelope under [id] whose text
    mentions [command]. *)
Definition answered_with_command_error
    (websocket_msg : list Byte.byte) (w : world) (id : pyobj) (command : string) : Prop :=
  ∃ e, frames webserver websocket_msg w = [envelope id (exception e)]
       ∧ mentions (exc_str e) command = true.

(** [frame['msg']['exception']['msg']], when the frame has that shape. *)
Definition error_text (frame : pyobj) : option string :=
  match py_getitem frame "msg" with
  | inr msg =>
      match py_getitem msg "exception" with
      | inr e =>
          match py_getitem e "msg" with
          | inr (PyStr text) => Some text
          | _ => None
          end
      | inl _ => None
      end
  | inl _ => None
  end.

(** The call is an invocation of [_rmi]. *)
Definition is_rmi (c : call) : bool :=
  match c with
  | CallRmi _ _ _ => true
  | _ => false
  end.

(** From [σ] to [σ'] nothing was written or scheduled, the message id is
    the same, and [_rmi] was not among the calls made. *)
Definition quiet (σ σ' : invocation) : Prop :=
  written (shared σ') = written (shared σ)
  ∧ callbacks σ' = callbacks σ
  ∧ msg_id σ' = msg_id σ
  ∧ ∃ cs, calls (shared σ') = calls (shared σ) ++ cs
          ∧ Forall (λ c, is_rmi c = false) cs.

(** From [σ] to [σ'] the message id is the same and every message written
    carries it. *)
Definition carried (σ σ' : invocation) : Prop :=
  msg_id σ' = msg_id σ
  ∧ ∃ fs, written (shared σ') = written (shared σ) ++ fs
          ∧ Forall (λ frame, py_getitem frame "msg_id" = inr (msg_id σ)) fs.

(** From [σ] to [σ'] the caches hold the same and the connection is as open
    or closed as it was. *)
Definition kept (σ σ' : invocation) : Prop :=
  cache (shared σ') = cache (shared σ)
  ∧ cache_selection (shared σ') = cache_selection (shared σ)
  ∧ closed (shared σ') = closed (shared σ).

(** From [σ] to [σ'] messages were only added. *)
Definition extended (σ σ' : invocation) : Prop :=
  written (shared σ) `prefix_of` written (shared σ').

(** [m] takes every state to one related to it by [R], whether it returns
    or raises. *)
Definition preserves (R : relation invocation) {A} (m : M A) : Prop :=
  ∀ σ, R σ (m σ).2.

(** [R] is a preorder that holds across each of the handler's elementary
    state changes once the message id is bound: a message written under the
    current [msg_id], a recorded call, a change of the service, an assignment
    to [last_progress], a change of the scheduled callbacks. *)
Record stable (R : relation invocation) : Prop := {
  stable_refl : ∀ σ, R σ σ;
  stable_trans : ∀ σ1 σ2 σ3, R σ1 σ2 → R σ2 σ3 → R σ1 σ3;
  stable_write : ∀ msg σ,
    R σ (with_shared (write_message (envelope (msg_id σ) msg)) σ);
  stable_call : ∀ c σ, R σ (with_shared (record_call c) σ);
  stable_service : ∀ s σ, R σ (with_shared (set_service s) σ);
  stable_last_progress : ∀ v σ, R σ (set_last_progress v σ);
  stable_callbacks : ∀ q σ, R σ (set_callbacks q σ)
}.

(** Other caches in place of the two the server made. *)
Definition with_caches (c c' : LRUCache) : invocation → invocation :=
  with_shared (set_caches c c').

(** [m] behaves the same whatever the caches hold, and leaves in them what
    it found. *)
Definition cache_oblivious (c c' : LRUCache) {A} (m : M A) : Prop :=
  ∀ σ, m (with_caches c c' σ) = ((m σ).1, with_caches c c' (m σ).2).

(** *** The progress reporter on its own *)

(** The fractions come in the order the job reaches them. *)
Definition nondecreasing (fs : list float) : Prop :=
  Sorted (λ a b, (a <=? b)%float = true) fs.

Definition increasing (fs : list float) : Prop :=
  Sorted (λ a b, (a <? b)%float = true) fs.

(** Every report is followed by the IOLoop running what the report
    scheduled, before the job reports again. *)
Fixpoint prompt (fs : list float) : list activity :=
  match fs with
  | [] => []
  | f :: fs => Report f :: RunCallback :: prompt fs
  end.

(** The fractions that pass the guard when each one that passes becomes
    [last_progress] before the next is looked at. *)
Fixpoint throttle (last_progress : option float) (fs : list float) : list float :=
  match fs with
  | [] => []
  | f :: fs =>
      if emit_guard last_progress f
      then f :: throttle (Some f) fs
      else throttle last_progress fs
  end.

End Vocabulary.

(** ** A small deployment

    Concrete collaborators on which the handler runs to the end: one
    byte on the wire selects a canned message, the catalog maps a dataset
    name to a number, a task list spells out what the job does while the
    handler is suspended, and the job returns the dataframe it was given. *)
Module Demo.

Definition auth (token token_trusted : pyobj) : pyobj :=
  PyDict {[ "token" := token; "token-trusted" := token_trusted ]}.

Definition request (msg_id : string) (msg auth : pyobj) : pyobj :=
  PyDict {[ "msg_id" := PyStr msg_id; "msg" := msg; "auth" := auth ]}.

Definition execute_msg (df : string) (tasks : list pyobj) : pyobj :=
  PyDict {[ "command" := PyStr "execute"; "df" := PyStr df;
            "state" := PyDict ∅; "tasks" := PyList tasks ]}.

Definition call_msg (df method : string) : pyobj :=
  PyDict {[ "command" := PyStr "call-dataframe"; "df" := PyStr df;
            "state" := PyDict ∅; "method" := PyStr method;
            "args" := PyList []; "kwargs" := PyDict ∅ ]}.

Definition open_auth : pyobj := auth PyNone PyNone.

Definition canned : list pyobj := [
  (* 0 *) request "m0" (PyDict {[ "command" := PyStr "list" ]}) open_auth;
  (* 1 *) request "m1" (execute_msg "a" []) open_auth;
  (* 2 *) request "m2" (execute_msg "a" [PyFloat 0.5; PyNone]) open_auth;
  (* 3 *) request "m3" (execute_msg "a" [PyFloat 0.25; PyFloat 0.25; PyNone; PyNone]) open_auth;
  (* 4 *) request "m4" (PyDict {[ "command" := PyStr "frobnicate" ]}) open_auth;
  (* 5 *) request "m5" (PyDict {[ "command" := PyStr "frobnicate" ]})
                       (auth (PyStr "guess") PyNone);
  (* 6 *) request "m6" (call_msg "a" "arbitrary_unsafe_call") open_auth;
  (* 7 *) PyDict {[ "msg_id" := PyStr "m7"; "msg" := PyDict {[ "command" := PyStr "list" ]} ]};
  (* 8 *) request "m8" (call_msg "a" "_evaluate_implementation") open_auth;
  (* 9 *) request "m9" (execute_msg "zz" []) open_auth;
  (* 10 *) request "m10" (PyDict {[ "command" := PyStr "list" ]})
                         (auth (PyStr "") PyNone);
  (* 11 *) PyList [PyStr "m11"]
].

(** Fractions a job may report. *)
Definition reports : list float := [0.25; 0.28125; 0.5; 1; 1]%float.

Definition decode_task (o : pyobj) : exn + activity :=
  match o with
  | PyFloat f => inr (Report f)
  | PyNone => inr RunCallback
  | _ => inl (ValueError "not a task")
  end.

Fixpoint decode_tasks (l : list pyobj) : exn + list activity :=
  match l with
  | [] => inr []
  | o :: l =>
      match decode_task o, decode_tasks l with
      | inr a, inr l => inr (a :: l)
      | inl e, _ => inl e
      | _, inl e => inl e
      end
  end.

#[export] Instance collaborators : Collaborators := {|
  Service := gmap string Z;
  LRUCache := list (string * Z);
  DataFrame := Z;
  Task := activity;
  Value := Z;
  deserialize bs :=
    match bs with
    | [b] =>
        match canned !! Byte.to_nat b with
        | Some o => inr o
        | None => inl (ValueError "unknown frame")
        end
    | _ => inl (ValueError "truncated frame")
    end;
  py_repr _ := "<object>";
  allowed_method_names := ["_evaluate_implementation"; "_head"];
  service_list s := (inr (PyList (PyStr <$> (map_to_list s).*1)), s);
  service_getitem name s :=
    match name with
    | PyStr n =>
        match s !! n with
        | Some df => (inr df, s)
        | None => (inl (KeyError n), s)
        end
    | _ => (inl (TypeError "unhashable type"), s)
    end;
  df_copy df := inr df;
  df_state_set df _ _ := inr df;
  decode_list tasks _ :=
    match tasks with
    | PyList l => decode_tasks l
    | _ => inl (TypeError "not a list")
    end;
  service_execute df tasks s := (tasks, inr [df], s);
  encode_list results := inr (PyList (PyInt <$> results));
  service_rmi df _ _ _ s := (inr df, s);
  encode _ v := inr (PyInt v)
|}.

(** The server is started with a token and no trusted token. *)
Definition webserver : WebServer.t :=
  {| WebServer.token := Some "secret"; WebServer.token_trusted := None |}.

(** The server is started without tokens. *)
Definition webserver_open : WebServer.t :=
  {| WebServer.token := None; WebServer.token_trusted := None |}.

Definition w0 : world :=
  World {[ "a" := 10%Z ]} [("k", 1%Z)] [] [] false [].

Definition frame_no (n : nat) : list Byte.byte :=
  match Byte.of_nat n with
  | Some b => [b]
  | None => []
  end.

End Demo.

(** ** More vocabulary: frames, calls and reports *)

Section Accounts.
Context `{Collaborators}.
Variable webserver : WebServer.t.

(** The progress messages for the fractions [vs], under [id]. *)
Definition progress_frames (id : pyobj) (vs : list float) : list pyobj :=
  (λ f, envelope id (progress_msg f)) <$> vs.

(** [{'msg_id': id, 'msg': {'progress': f}}] *)
Definition is_progress_frame (frame : pyobj) : Prop :=
  ∃ id f, frame = envelope id (progress_msg f).

(** A result or an exception under some id. *)
Definition is_terminal_frame (frame : pyobj) : Prop :=
  ∃ id, (∃ result, frame = envelope id (result_msg result))
        ∨ (∃ e, frame = envelope id (exception e)).

(** The keys of [frame['msg']], when that is a dict. *)
Definition msg_keys (frame : pyobj) : list string :=
  match py_getitem frame "msg" with
  | inr (PyDict d) => (map_to_list d).*1
  | _ => []
  end.

(** The fractions a job reports, in order. *)
Fixpoint reported (script : list activity) : list float :=
  match script with
  | [] => []
  | Report f :: script => f :: reported script
  | RunCallback :: script => reported script
  end.

(** From [σ] to [σ'] the message id is the same and only progress messages
    under it were written; with [execute_allowed] off, none was written and
    none scheduled. *)
Definition only_progress (execute_allowed : bool) (σ σ' : invocation) : Prop :=
  msg_id σ' = msg_id σ
  ∧ ∃ vs, written (shared σ') = written (shared σ) ++ progress_frames (msg_id σ) vs
          ∧ (execute_allowed = false → vs = [] ∧ callbacks σ' = callbacks σ).

(** [m] writes progress messages at most. *)
Definition silent (execute_allowed : bool) {A} (m : M A) : Prop :=
  ∀ σ, only_progress execute_allowed σ (m σ).2.

(** [m] ends a command: when it returns it has written its one result
    after the progress messages, when it raises it has written progress
    messages at most. *)
Definition answers (execute_allowed : bool) (m : M ()) : Prop :=
  ∀ σ, match m σ with
       | (inr _, σ') =>
           msg_id σ' = msg_id σ
           ∧ ∃ vs result,
               written (shared σ')
               = written (shared σ) ++ progress_frames (msg_id σ) vs
                   ++ [envelope (msg_id σ) (result_msg result)]
               ∧ (execute_allowed = false → vs = [] ∧ callbacks σ' = callbacks σ)
       | (inl _, σ') => only_progress execute_allowed σ σ'
       end.

(** Every call [m] makes satisfies [Q]. *)
Definition calls_within (Q : call → Prop) {A} (m : M A) : Prop :=
  ∀ σ, ∃ cs, calls (shared (m σ).2) = calls (shared σ) ++ cs ∧ Forall Q cs.

(** What may be called once [msg] has passed the test of lines 68-69 with trust level
    [trusted]: [state_set] with that level, [_rmi] with the message's
    method when it is on the allow-list, and the rest. *)
Definition within_command (msg : pyobj) (trusted : bool) (c : call) : Prop :=
  match c with
  | CallStateSet b => b = trusted
  | CallRmi method _ _ =>
      py_getitem msg "method" = inr method ∧ method_allowed method = true
  | _ => True
  end.

(** [c] is a call the message is entitled to: the message was decoded and
    authorized, and [c] is within its command. *)
Definition vetted (websocket_msg : list Byte.byte) (c : call) : Prop :=
  ∃ id msg auth token token_trusted,
    decode websocket_msg = inr (id, msg, auth)
    ∧ py_getitem auth "token" = inr token
    ∧ py_getitem auth "token-trusted" = inr token_trusted
    ∧ authorized webserver token token_trusted = true
    ∧ within_command msg (trusted_of webserver token_trusted) c.

(** The name under which line 116 or 118 encodes the result of [method]. *)
Definition result_typename (method : pyobj) : string :=
  if py_eq_str method "_evaluate_implementation"
  then "vaex-evaluate-result"
  else "vaex-rmi-result".

End Accounts.

(** ** More vocabulary: authorization and the failure boundary *)

Section Boundary.
Context `{Collaborators}.
Variable webserver : WebServer.t.

(** The condition of lines 68-69 on the tokens of a request, in words: the
    token is the configured one, or the trusted token is the configured
    trusted one and that is set and not the empty string. *)
Definition credentials_match (token token_trusted : pyobj) : Prop :=
  token = py_of_token (WebServer.token webserver)
  ∨ (token_trusted = py_of_token (WebServer.token_trusted webserver)
     ∧ non_empty (WebServer.token_trusted webserver)).

(** The message is answered with the error of line 70 and nothing else, and
    no collaborator is called for it. *)
Definition turned_away (websocket_msg : list Byte.byte) (w : world) (id : pyobj) : Prop :=
  frames webserver websocket_msg w
  = [envelope id (exception (ValueError "No token provided, not authorized"))]
  ∧ performed webserver websocket_msg w = [].

(** [o] is not a dict that holds [key]: [o[key]] raises. *)
Definition lacks (o : pyobj) (key : string) : Prop :=
  match o with
  | PyDict d => d !! key = None
  | _ => True
  end.

(** The client is told of [e] under [id]: the messages written for the
    inbound message are the exception message, spelled out, with progress
    messages under the same id before it and (from callbacks that were still
    scheduled) after it. *)
Definition told (websocket_msg : list Byte.byte) (w : world) (id : pyobj) (e : exn) : Prop :=
  ∃ early late,
    frames webserver websocket_msg w
    = progress_frames id early
        ++ [PyDict {[ "msg_id" := id;
                      "msg" := PyDict {[ "exception" :=
                                 PyDict {[ "class" := PyStr (exc_class e);
                                           "msg" := PyStr (exc_str e) ]} ]} ]}]
        ++ progress_frames id late.

(** What [on_message] lets escape to tornado, whose reaction to an
    exception of a handler (it logs it, and may abort the connection) is
    outside this file: nothing the body of the [try] raises, only what the
    [except] clause itself would raise. *)
Definition escapes (websocket_msg : list Byte.byte) (w : world) : option exn :=
  match on_message_try webserver websocket_msg (enter w) with
  | (inr _, _) => None
  | (inl e, σ) =>
      match reply (exception e) σ with
      | (inl e', _) => Some e'
      | (inr _, _) => None
      end
  end.

(** The stages of the body of the [try]. *)
Inductive stage : Type :=
| Decoding
| Authorization
| Dispatch
| DatasetResolution
| CommandExecution.

(** Lines 60-72 went through: the envelope gave [id] and [msg], the tokens
    passed lines 68-69, and line 66 gave [trusted]. *)
Definition admitted (websocket_msg : list Byte.byte) (id msg : pyobj) (trusted : bool) : Prop :=
  ∃ auth token token_trusted,
    decode websocket_msg = inr (id, msg, auth)
    ∧ py_getitem auth "token" = inr token
    ∧ py_getitem auth "token-trusted" = inr token_trusted
    ∧ authorized webserver token token_trusted = true
    ∧ trusted = trusted_of webserver token_trusted.

Definition commanded (msg : pyobj) (command : string) : Prop :=
  py_getitem msg "command" = inr (PyStr command).

(** The two commands that start with lines 96-97, resp. 107-108. *)
Definition on_dataframe (msg : pyobj) : Prop :=
  commanded msg "execute" ∨ commanded msg "call-dataframe".

(** Lines 96-97, resp. 107-108, went through: [df] is the copy with the
    state set, and the lookup left the service as [s]. *)
Definition prepared (w : world) (msg : pyobj) (trusted : bool)
    (df : DataFrame) (s : Service) : Prop :=
  ∃ name df0 df1 state,
    py_getitem msg "df" = inr name
    ∧ service_getitem name (service w) = (inr df0, s)
    ∧ df_copy df0 = inr df1
    ∧ py_getitem msg "state" = inr state
    ∧ df_state_set df1 state trusted = inr df.

(** Every place where the body of the [try] can raise while it handles
    [websocket_msg] in [w], with the stage, the [msg_id] bound at that
    moment and the exception: a subscript that fails, a collaborator that
    raises, a job that fails, and the three [raise] statements. *)
Inductive failure (websocket_msg : list Byte.byte) (w : world) :
    stage → pyobj → exn → Prop :=
(* lines 60-62 *)
| fail_decode e :
    decode websocket_msg = inl e →
    failure websocket_msg w Decoding (PyStr "invalid") e
(* lines 64-65 *)
| fail_token id msg auth e :
    decode websocket_msg = inr (id, msg, auth) →
    py_getitem auth "token" = inl e →
    failure websocket_msg w Authorization id e
| fail_token_trusted id msg auth token e :
    decode websocket_msg = inr (id, msg, auth) →
    py_getitem auth "token" = inr token →
    py_getitem auth "token-trusted" = inl e →
    failure websocket_msg w Authorization id e
(* lines 68-70 *)
| fail_unauthorized id msg auth token token_trusted :
    decode websocket_msg = inr (id, msg, auth) →
    py_getitem auth "token" = inr token →
    py_getitem auth "token-trusted" = inr token_trusted →
    authorized webserver token token_trusted = false →
    failure websocket_msg w Authorization id
      (ValueError "No token provided, not authorized")
(* line 91 *)
| fail_command id msg trusted e :
    admitted websocket_msg id msg trusted →
    py_getitem msg "command" = inl e →
    failure websocket_msg w Dispatch id e
(* lines 120-121 *)
| fail_unknown id msg trusted command :
    admitted websocket_msg id msg trusted →
    py_getitem msg "command" = inr command →
    py_eq_str command "list" = false →
    py_eq_str command "execute" = false →
    py_eq_str command "call-dataframe" = false →
    failure websocket_msg w Dispatch id
      (ValueError ("Unknown command: " ++ py_str command)%string)
(* lines 96-97 and 107-108 *)
| fail_df id msg trusted e :
    admitted websocket_msg id msg trusted →
    on_dataframe msg →
    py_getitem msg "df" = inl e →
    failure websocket_msg w DatasetResolution id e
| fail_lookup id msg trusted name e s :
    admitted websocket_msg id msg trusted →
    on_dataframe msg →
    py_getitem msg "df" = inr name →
    service_getitem name (service w) = (inl e, s) →
    failure websocket_msg w DatasetResolution id e
| fail_copy id msg trusted name df0 s e :
    admitted websocket_msg id msg trusted →
    on_dataframe msg →
    py_getitem msg "df" = inr name →
    service_getitem name (service w) = (inr df0, s) →
    df_copy df0 = inl e →
    failure websocket_msg w DatasetResolution id e
| fail_state id msg trusted name df0 s df1 e :
    admitted websocket_msg id msg trusted →
    on_dataframe msg →
    py_getitem msg "df" = inr name →
    service_getitem name (service w) = (inr df0, s) →
    df_copy df0 = inr df1 →
    py_getitem msg "state" = inl e →
    failure websocket_msg w DatasetResolution id e
| fail_state_set id msg trusted name df0 s df1 state e :
    admitted websocket_msg id msg trusted →
    on_dataframe msg →
    py_getitem msg "df" = inr name →
    service_getitem name (service w) = (inr df0, s) →
    df_copy df0 = inr df1 →
    py_getitem msg "state" = inr state →
    df_state_set df1 state trusted = inl e →
    failure websocket_msg w DatasetResolution id e
(* lines 92-94 *)
| fail_list id msg trusted e s :
    admitted websocket_msg id msg trusted →
    commanded msg "list" →
    service_list (service w) = (inl e, s) →
    failure websocket_msg w CommandExecution id e
(* lines 98-105 *)
| fail_tasks id msg trusted df s e :
    admitted websocket_msg id msg trusted →
    commanded msg "execute" →
    prepared w msg trusted df s →
    py_getitem msg "tasks" = inl e →
    failure websocket_msg w CommandExecution id e
| fail_decode_list id msg trusted df s tasks e :
    admitted websocket_msg id msg trusted →
    commanded msg "execute" →
    prepared w msg trusted df s →
    py_getitem msg "tasks" = inr tasks →
    decode_list tasks df = inl e →
    failure websocket_msg w CommandExecution id e
| fail_job id msg trusted df s tasks decoded script e s' :
    admitted websocket_msg id msg trusted →
    commanded msg "execute" →
    prepared w msg trusted df s →
    py_getitem msg "tasks" = inr tasks →
    decode_list tasks df = inr decoded →
    service_execute df decoded s = (script, inl e, s') →
    failure websocket_msg w CommandExecution id e
| fail_encode_list id msg trusted df s tasks decoded script results s' e :
    admitted websocket_msg id msg trusted →
    commanded msg "execute" →
    prepared w msg trusted df s →
    py_getitem msg "tasks" = inr tasks →
    decode_list tasks df = inr decoded →
    service_execute df decoded s = (script, inr results, s') →
    encode_list results = inl e →
    failure websocket_msg w CommandExecution id e
(* lines 110-119 *)
| fail_method id msg trusted df s e :
    admitted websocket_msg id msg trusted →
    commanded msg "call-dataframe" →
    prepared w msg trusted df s →
    py_getitem msg "method" = inl e →
    failure websocket_msg w CommandExecution id e
| fail_refused id msg trusted df s method :
    admitted websocket_msg id msg trusted →
    commanded msg "call-dataframe" →
    prepared w msg trusted df s →
    py_getitem msg "method" = inr method →
    method_allowed method = false →
    failure websocket_msg w CommandExecution id
      (NotImplementedError "Method is not rmi invokable")
| fail_args id msg trusted df s method e :
    admitted websocket_msg id msg trusted →
    commanded msg "call-dataframe" →
    prepared w msg trusted df s →
    py_getitem msg "method" = inr method →
    method_allowed method = true →
    py_getitem msg "args" = inl e →
    failure websocket_msg w CommandExecution id e
| fail_kwargs id msg trusted df s method args e :
    admitted websocket_msg id msg trusted →
    commanded msg "call-dataframe" →
    prepared w msg trusted df s →
    py_getitem msg "method" = inr method →
    method_allowed method = true →
    py_getitem msg "args" = inr args →
    py_getitem msg "kwargs" = inl e →
    failure websocket_msg w CommandExecution id e
| fail_rmi id msg trusted df s method args kwargs e s' :
    admitted websocket_msg id msg trusted →
    commanded msg "call-dataframe" →
    prepared w msg trusted df s →
    py_getitem msg "method" = inr method →
    method_allowed method = true →
    py_getitem msg "args" = inr args →
    py_getitem msg "kwargs" = inr kwargs →
    service_rmi df method args kwargs s = (inl e, s') →
    failure websocket_msg w CommandExecution id e
| fail_encode id msg trusted df s method args kwargs value s' e :
    admitted websocket_msg id msg trusted →
    commanded msg "call-dataframe" →
    prepared w msg trusted df s →
    py_getitem msg "method" = inr method →
    method_allowed method = true →
    py_getitem msg "args" = inr args →
    py_getitem msg "kwargs" = inr kwargs →
    service_rmi df method args kwargs s = (inr value, s') →
    encode (result_typename method) value = inl e →
    failure websocket_msg w CommandExecution id e.

(** [m] makes a call, or it raises at once, leaving everything as it was,
    with a text that is not that of line 70. *)
Definition engages {A} (m : M A) : Prop :=
  ∀ σ : invocation,
    (∃ c cs, calls (shared (m σ).2) = calls (shared σ) ++ c :: cs)
    ∨ (∃ e, m σ = (inl e, σ) ∧ exc_str e ≠ "No token provided, not authorized").

End Boundary.

(** * The server object: [WebServer.__init__] and [set_datasets] *)

Module Server.

(** What the server needs of [vaex]: datasets with a name, [vx.open], which
    returns [None] for a file it cannot read, and [vx.example]. *)
Class Vaex : Type := {
  Dataset : Type;
  name : Dataset → string;
  vx_open : string → exn + option Dataset;
  vx_example : exn + Dataset
}.

Definition MB : Z := 1024 ^ 2.
Definition GB : Z := MB * 1024.

Section Server.
Context `{Vaex}.

(** [dict([(ds.name, ds) for ds in datasets])]: the pairs are entered in
    order, a later one replaces an earlier one that has its key. *)
Definition dict_by_name (datasets : list Dataset) : gmap string Dataset :=
  foldl (λ m ds, <[name ds := ds]> m) ∅ datasets.

(** The attributes [__init__] (lines 147-163) and [set_datasets] bind, as
    far as they are plain values; [df_map] is [service_bare.df_map]. *)
Record t : Type := Make {
  address : string;
  port : Z;
  webserver_thread_count : Z;
  threads_per_job : Z;
  datasets : list Dataset;
  datasets_map : gmap string Dataset;
  df_map : gmap string Dataset;
  token : option string;
  token_trusted : option string;
  cache_byte_size : Z;
  cache_selection_byte_size : Z;
  compress : bool;
  development : bool
}.

(** [set_datasets] (lines 177-180): the list is copied, the dict is built
    once and is both [datasets_map] and the service's [df_map]. *)
Definition set_datasets (new : list Dataset) (self : t) : t :=
  let datasets_map := dict_by_name new in
  Make (address self) (port self) (webserver_thread_count self) (threads_per_job self)
       new datasets_map datasets_map
       (token self) (token_trusted self)
       (cache_byte_size self) (cache_selection_byte_size self)
       (compress self) (development self).

(** [__init__] (lines 142-163); an argument that is [None] here is one the
    caller leaves out, and takes the default of the signature. *)
Definition init
    (address : option string) (port webserver_thread_count cache_byte_size : option Z)
    (token token_trusted : option string)
    (cache_selection_byte_size : option Z) (datasets : option (list Dataset))
    (compress development : option bool) (threads_per_job : option Z) : t :=
  set_datasets (default [] datasets)
    (Make (default "localhost" address) (default 9000%Z port)
          (default 2%Z webserver_thread_count) (default 4%Z threads_per_job)
          [] ∅ ∅
          token token_trusted
          (default (500 * MB)%Z cache_byte_size)
          (default (500 * MB)%Z cache_selection_byte_size)
          (default true compress) (default false development)).

(** What [on_message] reads of the server: [self.webserver.token] and
    [self.webserver.token_trusted]. *)
Definition credentials (self : t) : WebServer.t :=
  {| WebServer.token := token self; WebServer.token_trusted := token_trusted self |}.

End Server.
End Server.

(** * [main] (lines 254-294) *)

Module Main.
Import Server.

(** The namespace [parse_args] returns. *)
Record config : Type := {
  filename : list string;
  address : string;
  port : Z;
  verbose : Z;
  cache : Z;
  compress : bool;
  development : bool;
  token : option string;
  token_trusted : option string;
  threads_per_job : Z
}.

Definition IndexError (msg : string) : exn := Exn "IndexError" msg [].

(** [l[i]] for an integer [i]: a negative index counts from the end. *)
Definition list_getitem {A} (l : list A) (i : Z) : exn + A :=
  let n := Z.of_nat (length l) in
  let j := if (i <? 0)%Z then (i + n)%Z else i in
  if (j <? 0)%Z || (n <=? j)%Z then inl (IndexError "list index out of range")
  else match l !! Z.to_nat j with
       | Some x => inr x
       | None => inl (IndexError "list index out of range")
       end.

(** Line 271. *)
Definition verbosity : list string := ["ERROR"; "WARNING"; "INFO"; "DEBUG"].

(** [--verbose] is declared with [action='count', default=2] (line 260):
    every [-v] on the command line adds one to the default. *)
Definition verbose_after (flags : nat) : Z := 2 + Z.of_nat flags.

(** What [main] has done when it calls [server.serve()]: the level given to
    the logger, the file names it printed as failing to open, and the server
    it built. *)
Record launch `{Vaex} : Type := {
  log_level : string;
  printed : list string;
  server : Server.t
}.

Section Main.
Context `{Vaex}.

(** The loop of lines 279-284, from file [filenames] on: a file that gives
    [None] is printed, the others are appended. *)
Fixpoint open_files (filenames : list string) (datasets : list Dataset)
    (printed : list string) : exn + list Dataset * list string :=
  match filenames with
  | [] => inr (datasets, printed)
  | filename :: filenames =>
      match vx_open filename with
      | inl e => inl e
      | inr None => open_files filenames datasets (printed ++ [filename])
      | inr (Some ds) => open_files filenames (datasets ++ [ds]) printed
      end
  end.

(** [datasets or [vx.example()]] (line 285): the example is loaded only
    when the list is empty. *)
Definition or_example (datasets : list Dataset) : exn + list Dataset :=
  match datasets with
  | [] =>
      match vx_example with
      | inl e => inl e
      | inr ds => inr [ds]
      end
  | _ => inr datasets
  end.

(** [main], up to the call of [server.serve()]. *)
Definition main (config : config) : exn + launch :=
  match list_getitem verbosity (verbose config) with
  | inl e => inl e
  | inr level =>
      match open_files (filename config) [] [] with
      | inl e => inl e
      | inr (datasets, printed) =>
          match or_example datasets with
          | inl e => inl e
          | inr datasets =>
              inr {| log_level := level;
                     printed := printed;
                     server :=
                       Server.init (Some (address config)) (Some (port config)) None
                         (Some (cache config)) (token config) (token_trusted config)
                         None (Some datasets)
                         (Some (compress config)) (Some (development config))
                         (Some (threads_per_job config)) |}
          end
      end
  end.

(** The files that open, and those for which [vx.open] gives [None]. *)
Definition opened (filenames : list string) : list Dataset :=
  omap (λ filename, match vx_open filename with
                    | inr (Some ds) => Some ds
                    | _ => None
                    end) filenames.

Definition gives_none (filename : string) : bool :=
  match vx_open filename with
  | inr None => true
  | _ => false
  end.

Definition unopened (filenames : list string) : list string :=
  filter (λ filename, gives_none filename) filenames.

End Main.
End Main.

(** * The life of the server: [mainloop], [stop_serving], [submit_threaded] *)

Module Lifecycle.

(** The calls the methods make on tornado, the [started] event and the
    service, as a trace. *)
Inductive event : Type :=
| Listen
| SetStarted
| SetPolicy
| StartLoop
| StopServer
| StopLoop
| StopService
| Submit.

(** How tornado and the service answer: [IOLoop.current()],
    [HTTPServer(self.application)], [server.listen], the major version,
    [ioloop.start], the three [stop]s, and whether an exception is a
    [RuntimeError] (what line 228 catches).  Setting the event loop policy
    (lines 221-224) is taken to succeed. *)
Class Tornado : Type := {
  ioloop_current : exn + ();
  http_server : exn + ();
  listen : exn + ();
  version_major : Z;
  loop_start : exn + ();
  server_stop : exn + ();
  loop_stop : exn + ();
  service_stop : exn + ();
  is_RuntimeError : exn → bool
}.

(** The object, as far as its life goes: the names bound in its
    [__dict__] by the methods of this class ([threading.Thread] keeps its own
    under names that start with an underscore), whether the [started] event
    is set, and the trace. *)
Record obj : Type := Obj {
  attrs : gset string;
  started : bool;
  trace : list event
}.

Definition AttributeError (attr : string) : exn :=
  Exn "AttributeError" ("'WebServer' object has no attribute '" ++ attr ++ "'")%string [].

(** The names [__init__] binds (lines 147-170; [datasets] and
    [datasets_map] through [set_datasets]). *)
Definition init_attrs : gset string :=
  list_to_set
    ["address"; "port"; "started"; "service"; "webserver_thread_count";
     "threads_per_job"; "service_bare"; "service_threaded"; "datasets";
     "datasets_map"; "token"; "token_trusted"; "cache"; "cache_selection";
     "options"; "application"].

Definition init : obj := Obj init_attrs false [].

Definition L (A : Type) : Type := obj → (exn + A) * obj.

#[global] Instance L_ret : MRet L := λ A a s, (inr a, s).
#[global] Instance L_bind : MBind L := λ A B k m s,
  match m s with
  | (inl e, s') => (inl e, s')
  | (inr a, s') => k a s'
  end.

Section Lifecycle.
Context `{Tornado}.

Definition fail {A} (e : exn) : L A := λ s, (inl e, s).

(** [self.attr] *)
Definition getattr (attr : string) : L () :=
  λ s, if bool_decide (attr ∈ attrs s) then (inr (), s)
       else (inl (AttributeError attr), s).

(** [self.attr = ...] *)
Definition setattr (attr : string) : L () :=
  λ s, (inr (), Obj ({[ attr ]} ∪ attrs s) (started s) (trace s)).

(** A call: it is recorded and answers as the environment says. *)
Definition call (e : event) (outcome : exn + ()) : L () :=
  λ s, (outcome, Obj (attrs s) (started s) (trace s ++ [e])).

(** An answer of the environment that leaves no trace. *)
Definition answer (outcome : exn + ()) : L () := λ s, (outcome, s).

Definition mark_started : L () :=
  λ s, (inr (), Obj (attrs s) true (trace s ++ [SetStarted])).

(** [self.started.set()] *)
Definition set_started : L () := getattr "started";; mark_started.

(** [try: m except: handler; raise] *)
Definition or_reraise (m handler : L ()) : L () :=
  λ s, match m s with
       | (inl e, s') =>
           match handler s' with
           | (inl e', s'') => (inl e', s'')
           | (inr _, s'') => (inl e, s'')
           end
       | (inr a, s') => (inr a, s')
       end.

(** [try: m except RuntimeError: pass] *)
Definition pass_RuntimeError (m : L ()) : L () :=
  λ s, match m s with
       | (inl e, s') => if is_RuntimeError e then (inr (), s') else (inl e, s')
       | (inr a, s') => (inr a, s')
       end.

(** [mainloop] (lines 208-229).  The address and the port are read for
    the log line first; the port is taken to be a number, as [%d] needs. *)
Definition mainloop : L () :=
  getattr "address";; getattr "port";;
  answer ioloop_current;;
  setattr "ioloop";;
  getattr "application";;
  answer http_server;;
  setattr "server";;
  or_reraise
    (getattr "server";; getattr "port";; getattr "address";; call Listen listen)
    set_started;;
  set_started;;
  (if (5 <=? version_major)%Z then call SetPolicy (inr ()) else mret ());;
  pass_RuntimeError (getattr "ioloop";; call StartLoop loop_start).

(** [serve] and [run] (lines 189-190, 205-206). *)
Definition serve : L () := mainloop.
Definition run : L () := mainloop.

(** [stop_serving] (lines 231-236). *)
Definition stop_serving : L () :=
  getattr "server";; call StopServer server_stop;;
  getattr "ioloop";; call StopLoop loop_stop;;
  getattr "service";; call StopService service_stop.

(** [submit_threaded] (lines 182-187): the closure is made, then handed
    to [self.thread_pool]. *)
Definition submit_threaded : L () :=
  getattr "thread_pool";; call Submit (inr ()).

(** [set_datasets] (lines 177-180), for the names it binds. *)
Definition set_datasets : L () :=
  setattr "datasets";; getattr "datasets";; setattr "datasets_map";;
  getattr "service_bare";; getattr "datasets_map".

Inductive method : Type :=
| Mainloop
| Serve
| Run
| StopServing
| SubmitThreaded
| SetDatasets.

Definition invoke (m : method) : L () :=
  match m with
  | Mainloop => mainloop
  | Serve => serve
  | Run => run
  | StopServing => stop_serving
  | SubmitThreaded => submit_threaded
  | SetDatasets => set_datasets
  end.

(** The object after the methods [ms] were called one after the other,
    whatever each returned or raised. *)
Definition after (ms : list method) (s : obj) : obj :=
  foldl (λ s m, (invoke m s).2) s ms.

(** [m] binds no name outside [allowed]. *)
Definition binds_within (allowed : gset string) {A} (m : L A) : Prop :=
  ∀ s, attrs (m s).2 ⊆ attrs s ∪ allowed.

End Lifecycle.
End Lifecycle.

(** * A small installation: two files that open, the defaults of the
    command line, and a tornado of major version 6 *)

Module Installation.

Record dataset : Type := {
  ds_name : string;
  ds_rows : Z
}.

Definition taxi : dataset := {| ds_name := "taxi"; ds_rows := 1000 |}.
Definition gaia : dataset := {| ds_name := "gaia"; ds_rows := 2500 |}.
Definition example : dataset := {| ds_name := "helmi-dezeeuw-2000-10p"; ds_rows := 330000 |}.

#[export] Instance vaex : Server.Vaex := {|
  Server.Dataset := dataset;
  Server.name := ds_name;
  Server.vx_open filename :=
    if String.eqb filename "taxi.hdf5" then inr (Some taxi)
    else if String.eqb filename "gaia.hdf5" then inr (Some gaia)
    else inr None;
  Server.vx_example := inr example
|}.

(** The namespace for a command line that names [filename] and leaves
    every option but the verbosity at its default (lines 257-266). *)
Definition command_line (filename : list string) (verbose : Z) : Main.config := {|
  Main.filename := filename;
  Main.address := "0.0.0.0";
  Main.port := 9000;
  Main.verbose := verbose;
  Main.cache := 500000000;
  Main.compress := true;
  Main.development := false;
  Main.token := None;
  Main.token_trusted := None;
  Main.threads_per_job := 4
|}.

Definition RuntimeError (msg : string) : exn := Exn "RuntimeError" msg [].

(** Everything succeeds but the loop, which ends with a [RuntimeError]
    when it is stopped. *)
#[export] Instance tornado : Lifecycle.Tornado := {|
  Lifecycle.ioloop_current := inr ();
  Lifecycle.http_server := inr ();
  Lifecycle.listen := inr ();
  Lifecycle.version_major := 6;
  Lifecycle.loop_start := inl (RuntimeError "Event loop stopped before Future completed.");
  Lifecycle.server_stop := inr ();
  Lifecycle.loop_stop := inr ();
  Lifecycle.service_stop := inr ();
  Lifecycle.is_RuntimeError e := String.eqb (exc_class e) "RuntimeError"
|}.

End Installation.

(** * Reasoning about the handler *)

(** ** Relations every step of the handler respects *)

Section Stable.
Context `{Collaborators}.
Variable webserver : WebServer.t.

Variable R : relation invocation.
Hypothesis HR : stable R.

Lemma preserves_ret {A} (a : A) : preserves R (mret a).
Proof. intros σ. apply (stable_refl R HR). Qed.

Lemma preserves_raise {A} (e : exn) : preserves R (raise (A := A) e).
Proof. intros σ. apply (stable_refl R HR). Qed.

Lemma preserves_lift {A} (r : exn + A) : preserves R (lift r).
Proof. intros σ. apply (stable_refl R HR). Qed.

Lemma preserves_getitem o key : preserves R (getitem o key).
Proof. apply preserves_lift. Qed.

Lemma preserves_bind {A B} (m : M A) (k : A → M B) :
  preserves R m → (∀ a, preserves R (k a)) → preserves R (m ≫= k).
Proof.
  intros Hm Hk σ. unfold mbind, M_bind. specialize (Hm σ).
  destruct (m σ) as [[e|a] σ']; simpl in *; [assumption|].
  eapply (stable_trans R HR); [eassumption|]. apply Hk.
Qed.

Lemma preserves_if {A} (b : bool) (m1 m2 : M A) :
  preserves R m1 → preserves R m2 → preserves R (if b then m1 else m2).
Proof. destruct b; auto. Qed.

Lemma preserves_call_service {A} c (g : Service → (exn + A) * Service) :
  preserves R (call_service c g).
Proof.
  intros σ. unfold call_service. destruct (g _) as [r s]. simpl.
  eapply (stable_trans R HR); [apply (stable_call R HR c)|].
  apply (stable_service R HR).
Qed.

Lemma preserves_call_other {A} c (r : exn + A) : preserves R (call_other c r).
Proof. intros σ. apply (stable_call R HR). Qed.

Lemma preserves_reply msg : preserves R (reply msg).
Proof. intros σ. apply (stable_write R HR). Qed.

Lemma preserves_set_last_progress v : preserves R (modify (set_last_progress v)).
Proof. intros σ. apply (stable_last_progress R HR). Qed.

Lemma do_stable f σ : R σ (do f σ).
Proof.
  unfold do. eapply (stable_trans R HR); [apply (stable_last_progress R HR (Some f))|].
  apply (stable_write R HR (progress_msg f) (set_last_progress (Some f) σ)).
Qed.

Lemma preserves_progress f from_current_ioloop :
  preserves R (progress f from_current_ioloop).
Proof.
  intros σ. unfold progress.
  destruct (emit_guard _ _); [|apply (stable_refl R HR)].
  destruct from_current_ioloop; simpl.
  - apply do_stable.
  - apply (stable_callbacks R HR).
Qed.

Lemma run_callback_stable σ : R σ (run_callback σ).
Proof.
  unfold run_callback. destruct (callbacks σ) as [|f q] eqn:E.
  - apply (stable_refl R HR).
  - eapply (stable_trans R HR); [apply (stable_callbacks R HR q)|]. apply do_stable.
Qed.

Lemma preserves_suspension script : preserves R (suspension script).
Proof.
  induction script as [|a script IH]; [apply preserves_ret|].
  simpl. apply preserves_bind; [|auto].
  destruct a; simpl.
  - apply preserves_bind; [apply preserves_progress|intros; apply preserves_ret].
  - intros σ. apply run_callback_stable.
Qed.

Lemma preserves_execute df tasks : preserves R (execute df tasks).
Proof.
  intros σ. unfold execute.
  destruct (service_execute _ _ _) as [[script outcome] s].
  pose proof (preserves_suspension script
    (with_shared (set_service s) (with_shared (record_call CallExecute) σ))) as Hs.
  destruct (suspension script _) as [[e|[]] σ']; simpl in *;
    (eapply (stable_trans R HR); [|exact Hs]);
    (eapply (stable_trans R HR); [apply (stable_call R HR CallExecute)|]);
    apply (stable_service R HR).
Qed.

#[local] Hint Resolve preserves_ret preserves_raise preserves_lift
  preserves_getitem preserves_call_service preserves_call_other
  preserves_reply preserves_set_last_progress preserves_progress
  preserves_execute : core.

(** A composite is taken apart at its binds and conditionals until the
    pieces are steps already known to preserve [R]. *)
Ltac preserve :=
  repeat first
    [ solve [auto]
    | apply preserves_if
    | apply preserves_bind; [|intros] ].

Lemma preserves_prepare_df msg trusted : preserves R (prepare_df msg trusted).
Proof. unfold prepare_df. preserve. Qed.

#[local] Hint Resolve preserves_prepare_df : core.

Lemma preserves_command_execute msg trusted :
  preserves R (command_execute msg trusted).
Proof. unfold command_execute. preserve. Qed.

Lemma preserves_command_call_dataframe msg trusted :
  preserves R (command_call_dataframe msg trusted).
Proof. unfold command_call_dataframe. preserve. Qed.

#[local] Hint Resolve preserves_command_execute preserves_command_call_dataframe : core.

Lemma preserves_dispatch msg trusted : preserves R (dispatch msg trusted).
Proof. unfold dispatch. preserve. Qed.

#[local] Hint Resolve preserves_dispatch : core.

Lemma preserves_authorize msg auth : preserves R (authorize webserver msg auth).
Proof. unfold authorize. preserve. Qed.

Lemma run_callbacks_stable σ : R σ (run_callbacks σ).
Proof.
  unfold run_callbacks.
  eapply (stable_trans R HR); [apply (stable_callbacks R HR [])|].
  generalize (set_callbacks [] σ) as σ'. generalize (callbacks σ) as q.
  induction q as [|f q IH]; intros σ'; simpl.
  - apply (stable_refl R HR).
  - eapply (stable_trans R HR); [apply do_stable|]. apply IH.
Qed.

(** When [R] also holds across the binding of [msg_id] (line 62), it holds
    from the start of [on_message] to the end of the handling. *)
Hypothesis HR_msg_id : ∀ v σ, R σ (set_msg_id v σ).

Lemma preserves_on_message_try websocket_msg :
  preserves R (on_message_try webserver websocket_msg).
Proof.
  unfold on_message_try. apply preserves_bind; [auto|].
  intros [[id msg] auth]. apply preserves_bind; [|intros; apply preserves_authorize].
  intros σ. apply HR_msg_id.
Qed.

Lemma on_message_stable websocket_msg w :
  R (enter w) (on_message webserver websocket_msg w).
Proof.
  unfold on_message.
  pose proof (preserves_on_message_try websocket_msg (enter w)) as Ht.
  destruct (on_message_try _ _ _) as [[e|[]] σ]; simpl in *; [|assumption].
  eapply (stable_trans R HR); [eassumption|]. apply (stable_write R HR).
Qed.

Lemma handle_stable websocket_msg w :
  R (enter w) (run_callbacks (on_message webserver websocket_msg w)).
Proof.
  eapply (stable_trans R HR); [apply on_message_stable|]. apply run_callbacks_stable.
Qed.

End Stable.

(** ** The caches are out of the handler's sight *)

Section Caches.
Context `{Collaborators}.
Variable webserver : WebServer.t.
Variables c c' : LRUCache.

Lemma oblivious_ret {A} (a : A) : cache_oblivious c c' (mret a).
Proof. intros σ. reflexivity. Qed.

Lemma oblivious_raise {A} (e : exn) : cache_oblivious c c' (raise (A := A) e).
Proof. intros σ. reflexivity. Qed.

Lemma oblivious_lift {A} (r : exn + A) : cache_oblivious c c' (lift r).
Proof. intros σ. reflexivity. Qed.

Lemma oblivious_getitem o key : cache_oblivious c c' (getitem o key).
Proof. apply oblivious_lift. Qed.

Lemma oblivious_bind {A B} (m : M A) (k : A → M B) :
  cache_oblivious c c' m → (∀ a, cache_oblivious c c' (k a)) → cache_oblivious c c' (m ≫= k).
Proof.
  intros Hm Hk σ. unfold mbind, M_bind. rewrite Hm.
  destruct (m σ) as [[e|a] σ']; simpl; [reflexivity|]. apply Hk.
Qed.

Lemma oblivious_if {A} (b : bool) (m1 m2 : M A) :
  cache_oblivious c c' m1 → cache_oblivious c c' m2 → cache_oblivious c c' (if b then m1 else m2).
Proof. destruct b; auto. Qed.

Lemma oblivious_call_service {A} k (g : Service → (exn + A) * Service) :
  cache_oblivious c c' (call_service k g).
Proof.
  intros [w id lp q]. unfold call_service, with_caches, with_shared. simpl.
  destruct (g (service w)) as [r s]. reflexivity.
Qed.

Lemma oblivious_call_other {A} k (r : exn + A) : cache_oblivious c c' (call_other k r).
Proof. intros σ. reflexivity. Qed.

Lemma oblivious_reply msg : cache_oblivious c c' (reply msg).
Proof. intros σ. reflexivity. Qed.

Lemma oblivious_modify_cell (g : invocation → invocation) :
  (∀ σ, g (with_caches c c' σ) = with_caches c c' (g σ)) →
  cache_oblivious c c' (modify g).
Proof. intros Hg σ. unfold modify. rewrite Hg. reflexivity. Qed.

Lemma do_recache f σ : do f (with_caches c c' σ) = with_caches c c' (do f σ).
Proof. reflexivity. Qed.

Lemma run_callback_recache σ :
  run_callback (with_caches c c' σ) = with_caches c c' (run_callback σ).
Proof. unfold run_callback. simpl. destruct (callbacks σ); reflexivity. Qed.

Lemma oblivious_progress f from_current_ioloop :
  cache_oblivious c c' (progress f from_current_ioloop).
Proof.
  intros σ. unfold progress. simpl.
  destruct (emit_guard _ _); [|reflexivity].
  destruct from_current_ioloop; reflexivity.
Qed.

Lemma oblivious_suspension script : cache_oblivious c c' (suspension script).
Proof.
  induction script as [|a script IH]; [apply oblivious_ret|].
  simpl. apply oblivious_bind; [|auto].
  destruct a; simpl.
  - apply oblivious_bind; [apply oblivious_progress|intros; apply oblivious_ret].
  - apply oblivious_modify_cell, run_callback_recache.
Qed.

Lemma oblivious_execute df tasks : cache_oblivious c c' (execute df tasks).
Proof.
  intros [w id lp q]. unfold execute. simpl.
  destruct (service_execute df tasks (service w)) as [[script outcome] s].
  match goal with
  | |- context [suspension script ?σ] =>
      change σ with (with_caches c c' (with_shared (set_service s)
        (with_shared (record_call CallExecute) (Invocation w id lp q))))
  end.
  rewrite oblivious_suspension.
  destruct (suspension script _) as [[e|[]] σ']; reflexivity.
Qed.

#[local] Hint Resolve oblivious_ret oblivious_raise oblivious_lift
  oblivious_getitem oblivious_call_service oblivious_call_other
  oblivious_reply oblivious_progress oblivious_execute : core.

Ltac unaware :=
  repeat first
    [ solve [auto]
    | solve [apply oblivious_modify_cell; reflexivity]
    | apply oblivious_if
    | apply oblivious_bind; [|intros] ].

Lemma oblivious_prepare_df msg trusted : cache_oblivious c c' (prepare_df msg trusted).
Proof. unfold prepare_df. unaware. Qed.

#[local] Hint Resolve oblivious_prepare_df : core.

Lemma oblivious_command_execute msg trusted : cache_oblivious c c' (command_execute msg trusted).
Proof. unfold command_execute. unaware. Qed.

Lemma oblivious_command_call_dataframe msg trusted :
  cache_oblivious c c' (command_call_dataframe msg trusted).
Proof. unfold command_call_dataframe. unaware. Qed.

#[local] Hint Resolve oblivious_command_execute oblivious_command_call_dataframe : core.

Lemma oblivious_dispatch msg trusted : cache_oblivious c c' (dispatch msg trusted).
Proof. unfold dispatch. unaware. Qed.

#[local] Hint Resolve oblivious_dispatch : core.

Lemma oblivious_authorize msg auth : cache_oblivious c c' (authorize webserver msg auth).
Proof. unfold authorize. unaware. Qed.

#[local] Hint Resolve oblivious_authorize : core.

Lemma oblivious_on_message_try websocket_msg :
  cache_oblivious c c' (on_message_try webserver websocket_msg).
Proof.
  unfold on_message_try. apply oblivious_bind; [auto|].
  intros [[id msg] auth]. unaware.
Qed.

Lemma on_message_recache websocket_msg w :
  on_message webserver websocket_msg (set_caches c c' w)
  = with_caches c c' (on_message webserver websocket_msg w).
Proof.
  unfold on_message. change (enter (set_caches c c' w)) with (with_caches c c' (enter w)).
  rewrite oblivious_on_message_try.
  destruct (on_message_try _ _ _) as [[e|[]] σ]; reflexivity.
Qed.

Lemma run_callbacks_recache σ :
  run_callbacks (with_caches c c' σ) = with_caches c c' (run_callbacks σ).
Proof.
  unfold run_callbacks. simpl.
  change (set_callbacks [] (with_caches c c' σ)) with (with_caches c c' (set_callbacks [] σ)).
  generalize (set_callbacks [] σ) as σ'. generalize (callbacks σ) as q.
  induction q as [|f q IH]; intros σ'; simpl; [reflexivity|].
  rewrite do_recache. apply IH.
Qed.

Lemma handle_recache websocket_msg w :
  handle webserver websocket_msg (set_caches c c' w)
  = set_caches c c' (handle webserver websocket_msg w).
Proof.
  unfold handle. rewrite on_message_recache, run_callbacks_recache. reflexivity.
Qed.

End Caches.

(** ** Running the handler along one path *)

Section Paths.
Context `{Collaborators}.
Variable webserver : WebServer.t.

Lemma run_bind {A B} (m : M A) (k : A → M B) σ :
  (m ≫= k) σ =
  match m σ with
  | (inl e, σ') => (inl e, σ')
  | (inr a, σ') => k a σ'
  end.
Proof. reflexivity. Qed.

Lemma run_bind_returns {A B} (m : M A) (k : A → M B) σ a σ' :
  m σ = (inr a, σ') → (m ≫= k) σ = k a σ'.
Proof. intros Hm. rewrite run_bind, Hm. reflexivity. Qed.

Lemma run_bind_raises {A B} (m : M A) (k : A → M B) σ e σ' :
  m σ = (inl e, σ') → (m ≫= k) σ = (inl e, σ').
Proof. intros Hm. rewrite run_bind, Hm. reflexivity. Qed.

Lemma run_getitem o key σ : getitem o key σ = (py_getitem o key, σ).
Proof. reflexivity. Qed.

(** Line 62 completed: the handler goes on under the client's id. *)
Lemma on_message_try_decoded websocket_msg id msg auth σ :
  decode websocket_msg = inr (id, msg, auth) →
  on_message_try webserver websocket_msg σ
  = authorize webserver msg auth (set_msg_id id σ).
Proof. intros Hd. unfold on_message_try, lift. rewrite run_bind, Hd. reflexivity. Qed.

(** Lines 60-62 raised: nothing else has happened. *)
Lemma on_message_try_undecoded websocket_msg e σ :
  decode websocket_msg = inl e →
  on_message_try webserver websocket_msg σ = (inl e, σ).
Proof. intros Hd. unfold on_message_try, lift. rewrite run_bind, Hd. reflexivity. Qed.

Lemma authorize_denied msg auth token token_trusted σ :
  py_getitem auth "token" = inr token →
  py_getitem auth "token-trusted" = inr token_trusted →
  authorized webserver token token_trusted = false →
  authorize webserver msg auth σ
  = (inl (ValueError "No token provided, not authorized"), σ).
Proof.
  intros Ht Htt Hno. unfold authorize.
  rewrite run_bind, run_getitem, Ht, run_bind, run_getitem, Htt. simpl.
  rewrite Hno. reflexivity.
Qed.

Lemma authorize_granted msg auth token token_trusted σ :
  py_getitem auth "token" = inr token →
  py_getitem auth "token-trusted" = inr token_trusted →
  authorized webserver token token_trusted = true →
  authorize webserver msg auth σ
  = dispatch msg (trusted_of webserver token_trusted) (set_last_progress None σ).
Proof.
  intros Ht Htt Hyes. unfold authorize.
  rewrite run_bind, run_getitem, Ht, run_bind, run_getitem, Htt. simpl.
  rewrite Hyes. reflexivity.
Qed.

Lemma dispatch_unknown msg trusted command σ :
  py_getitem msg "command" = inr command →
  py_eq_str command "list" = false →
  py_eq_str command "execute" = false →
  py_eq_str command "call-dataframe" = false →
  dispatch msg trusted σ
  = (inl (ValueError ("Unknown command: " ++ py_str command)%string), σ).
Proof.
  intros Hc H1 H2 H3. unfold dispatch.
  rewrite run_bind, run_getitem, Hc. simpl. rewrite H1, H2, H3. reflexivity.
Qed.

(** The [except] clause: what [on_message] leaves when the body raised. *)
Lemma on_message_raised websocket_msg w e σ :
  on_message_try webserver websocket_msg (enter w) = (inl e, σ) →
  on_message webserver websocket_msg w
  = with_shared (write_message (envelope (msg_id σ) (exception e))) σ.
Proof. intros Ht. unfold on_message. rewrite Ht. reflexivity. Qed.

Lemma on_message_returned websocket_msg w σ :
  on_message_try webserver websocket_msg (enter w) = (inr (), σ) →
  on_message webserver websocket_msg w = σ.
Proof. intros Ht. unfold on_message. rewrite Ht. reflexivity. Qed.

Lemma run_callbacks_none σ : callbacks σ = [] → run_callbacks σ = σ.
Proof. destruct σ as [w id lp q]. simpl. intros ->. reflexivity. Qed.

(** What [handle] and [frames] give when the body raised before anything
    was written or scheduled. *)
Lemma handle_raised_early websocket_msg w e id :
  on_message_try webserver websocket_msg (enter w) = (inl e, set_msg_id id (enter w)) →
  handle webserver websocket_msg w = write_message (envelope id (exception e)) w.
Proof.
  intros Ht. unfold handle. rewrite (on_message_raised _ _ _ _ Ht).
  rewrite run_callbacks_none; reflexivity.
Qed.

Lemma frames_written websocket_msg w msg :
  handle webserver websocket_msg w = write_message msg w →
  frames webserver websocket_msg w = [msg].
Proof.
  intros Hh. unfold frames. rewrite Hh. simpl.
  rewrite drop_app_length. reflexivity.
Qed.

End Paths.

(** * The properties *)

(** ** Authorization *)

Lemma py_eq_token_spec o t : py_eq_token o t = true ↔ o = py_of_token t.
Proof.
  destruct o, t as [s'|]; simpl; try (split; [discriminate|intros [=]]; fail).
  - split; [intros _; reflexivity|reflexivity].
  - rewrite String.eqb_eq. split; [intros ->; reflexivity|intros [= ->]; reflexivity].
Qed.

Lemma token_truthy_spec t : token_truthy t = true ↔ non_empty t.
Proof.
  unfold token_truthy, non_empty. destruct t as [s|]; simpl.
  - rewrite negb_true_iff, String.eqb_neq. split.
    + intros Hs. exists s. split; [reflexivity|assumption].
    + intros (s' & [= <-] & Hs). assumption.
  - split; [discriminate|intros (s & [=] & _)].
Qed.

Section Claims.
Context `{Collaborators}.
Variable webserver : WebServer.t.

(** *** Three stable relations *)

Lemma carried_stable : stable (carried (H := H)).
Proof.
  split; unfold carried.
  - intros σ. split; [reflexivity|]. exists []. rewrite app_nil_r. auto.
  - intros σ1 σ2 σ3 (Hid1 & fs1 & Hw1 & Hfs1) (Hid2 & fs2 & Hw2 & Hfs2).
    split; [congruence|]. exists (fs1 ++ fs2).
    rewrite Hw2, Hw1, app_assoc. split; [reflexivity|].
    apply Forall_app. split; [assumption|]. rewrite <- Hid1. assumption.
  - intros msg σ. split; [reflexivity|]. exists [envelope (msg_id σ) msg].
    split; [reflexivity|]. constructor; [|constructor].
    unfold envelope. simpl. rewrite lookup_insert_eq. reflexivity.
  - intros c σ. split; [reflexivity|]. exists []. simpl. rewrite app_nil_r. auto.
  - intros s σ. split; [reflexivity|]. exists []. simpl. rewrite app_nil_r. auto.
  - intros v σ. split; [reflexivity|]. exists []. simpl. rewrite app_nil_r. auto.
  - intros q σ. split; [reflexivity|]. exists []. simpl. rewrite app_nil_r. auto.
Qed.

Lemma kept_stable : stable (kept (H := H)).
Proof.
  split; unfold kept; try (intros; simpl; tauto).
  intros σ1 σ2 σ3 (? & ? & ?) (? & ? & ?). repeat split; congruence.
Qed.

Lemma extended_stable : stable (extended (H := H)).
Proof.
  split; unfold extended; try (intros; simpl; reflexivity).
  - intros σ1 σ2 σ3 H1 H2. etransitivity; eassumption.
  - intros msg σ. simpl. apply prefix_app_r. reflexivity.
Qed.

(** The messages written so far are never taken back: what one message adds
    is [frames]. *)
Lemma written_handle websocket_msg w :
  written (handle webserver websocket_msg w)
  = written w ++ frames webserver websocket_msg w.
Proof.
  pose proof (handle_stable webserver extended extended_stable
                (λ v σ, reflexivity _) websocket_msg w) as [fs Hfs].
  unfold frames, handle. simpl in Hfs. rewrite Hfs.
  rewrite drop_app_length. reflexivity.
Qed.

(** ** Correlation ids *)

(** C6, amended.  Once line 62 has bound the client's id, which takes
    [msg_id], [msg] and [auth] all three, every message written for the
    inbound message carries it: progress, result or error, written by the
    handler or by a callback the IOLoop runs later. *)
Theorem frames_carry_msg_id websocket_msg w id msg auth :
  decode websocket_msg = inr (id, msg, auth) →
  Forall (λ frame, py_getitem frame "msg_id" = inr id)
         (frames webserver websocket_msg w).
Proof.
  intros Hd.
  assert (carried (set_msg_id id (enter w))
            (run_callbacks (on_message webserver websocket_msg w))) as (_ & fs & Hw & Hfs).
  { eapply (stable_trans carried carried_stable); [|apply (run_callbacks_stable carried carried_stable)].
    unfold on_message. rewrite (on_message_try_decoded _ _ _ _ _ _ Hd).
    pose proof (preserves_authorize webserver carried carried_stable msg auth
                  (set_msg_id id (enter w))) as Ha.
    destruct (authorize _ _ _ _) as [[e|[]] σ]; simpl in Ha |- *; [|assumption].
    eapply (stable_trans carried carried_stable); [eassumption|].
    apply (stable_write carried carried_stable). }
  unfold frames, handle. simpl in Hw. rewrite Hw, drop_app_length. assumption.
Qed.

(** ** Requests that are not authorized *)

Lemma untouched_refl w : untouched w w.
Proof. unfold untouched. tauto. Qed.

Lemma untouched_write_message msg w : untouched w (write_message msg w).
Proof. unfold untouched. simpl. tauto. Qed.

Lemma untouched_trans w1 w2 w3 : untouched w1 w2 → untouched w2 w3 → untouched w1 w3.
Proof. unfold untouched. intros (?&?&?&?) (?&?&?&?). repeat split; congruence. Qed.

(** C8.  A request that fails authorization is answered with the error
    envelope of the [ValueError] raised at line 70 and nothing else: no
    collaborator is called, and the service with its catalog and the two
    caches are as before, however often the request is repeated. *)
Theorem unauthorized_request_changes_nothing
    websocket_msg w id msg auth token token_trusted :
  decode websocket_msg = inr (id, msg, auth) →
  py_getitem auth "token" = inr token →
  py_getitem auth "token-trusted" = inr token_trusted →
  authorized webserver token token_trusted = false →
  frames webserver websocket_msg w
  = [envelope id (exception (ValueError "No token provided, not authorized"))]
  ∧ performed webserver websocket_msg w = []
  ∧ ∀ n, untouched w (Nat.iter n (handle webserver websocket_msg) w).
Proof.
  intros Hd Ht Htt Hno.
  assert (∀ w, handle webserver websocket_msg w
               = write_message
                   (envelope id (exception
                      (ValueError "No token provided, not authorized"))) w) as Hh.
  { intros w'. apply handle_raised_early.
    rewrite (on_message_try_decoded _ _ _ _ _ _ Hd).
    apply (authorize_denied _ _ _ _ _ _ Ht Htt Hno). }
  split; [apply frames_written, Hh|]. split.
  - unfold performed. rewrite Hh. simpl. apply drop_all.
  - induction n as [|n IH]; [apply untouched_refl|].
    simpl. rewrite Hh. eapply untouched_trans; [exact IH|].
    apply untouched_write_message.
Qed.

(** ** The caches *)

Lemma set_caches_same w : set_caches (cache w) (cache_selection w) w = w.
Proof. destruct w. reflexivity. Qed.

(** C9.  Handling a message, whatever its command, neither writes nor reads
    the two caches: they hold afterwards what they held before, and with
    other caches in their place the handler does exactly the same and leaves
    those in place. *)
Theorem caches_are_dead_state websocket_msg w :
  cache (handle webserver websocket_msg w) = cache w
  ∧ cache_selection (handle webserver websocket_msg w) = cache_selection w
  ∧ ∀ c c', handle webserver websocket_msg (set_caches c c' w)
            = set_caches c c' (handle webserver websocket_msg w).
Proof.
  assert (∀ c c', handle webserver websocket_msg (set_caches c c' w)
                  = set_caches c c' (handle webserver websocket_msg w)) as Hre
    by (intros; apply handle_recache).
  pose proof (Hre (cache w) (cache_selection w)) as Hsame.
  rewrite set_caches_same in Hsame.
  repeat split; [rewrite Hsame at 1|rewrite Hsame at 1|exact Hre]; reflexivity.
Qed.

(** ** Commands *)

Lemma py_eq_str_false o s : o ≠ PyStr s → py_eq_str o s = false.
Proof.
  intros Ho. destruct o; simpl; try reflexivity.
  apply String.eqb_neq. intros ->. apply Ho. reflexivity.
Qed.

Lemma prefix_refl s : String.prefix s s = true.
Proof.
  induction s as [|a s IH]; [reflexivity|]. simpl.
  destruct (Ascii.ascii_dec a a); [assumption|congruence].
Qed.

Lemma mentions_refl s : mentions s s = true.
Proof.
  destruct s as [|a s]; [reflexivity|].
  change (String.prefix (String a s) (String a s) || mentions s (String a s) = true).
  rewrite prefix_refl. reflexivity.
Qed.

Lemma mentions_app s t : mentions (s ++ t) t = true.
Proof.
  induction s as [|a s IH]; simpl.
  - apply mentions_refl.
  - rewrite IH. apply orb_true_r.
Qed.

Lemma singleton_eq {A} (x y : A) : [x] = [y] → x = y.
Proof. intros [= ->]. reflexivity. Qed.

Lemma error_text_envelope id e : error_text (envelope id (exception e)) = Some (exc_str e).
Proof. reflexivity. Qed.

(** C7, amended.  A decoded and authorized message whose command is none of
    ['list'], ['execute'], ['call-dataframe'] is answered with one error
    envelope under the request's id: a [ValueError] whose text is
    ['Unknown command: '] followed by the command. *)
Theorem unknown_command_answered
    websocket_msg w id msg auth token token_trusted command :
  decode websocket_msg = inr (id, msg, auth) →
  py_getitem auth "token" = inr token →
  py_getitem auth "token-trusted" = inr token_trusted →
  authorized webserver token token_trusted = true →
  py_getitem msg "command" = inr command →
  command ≠ PyStr "list" →
  command ≠ PyStr "execute" →
  command ≠ PyStr "call-dataframe" →
  frames webserver websocket_msg w
  = [envelope id (exception
       (ValueError ("Unknown command: " ++ py_str command)%string))]
  ∧ answered_with_command_error webserver websocket_msg w id (py_str command).
Proof.
  intros Hd Ht Htt Hyes Hc H1 H2 H3.
  assert (frames webserver websocket_msg w
          = [envelope id (exception
               (ValueError ("Unknown command: " ++ py_str command)%string))]) as Hf.
  { apply frames_written, handle_raised_early.
    rewrite (on_message_try_decoded _ _ _ _ _ _ Hd).
    rewrite (authorize_granted _ _ _ _ _ _ Ht Htt Hyes).
    apply (dispatch_unknown _ _ _ _ Hc); apply py_eq_str_false; assumption. }
  split; [exact Hf|]. eexists. split; [exact Hf|]. apply mentions_app.
Qed.

(** ** The allow-list *)

Lemma quiet_refl σ : quiet σ σ.
Proof. repeat split. exists []. rewrite app_nil_r. auto. Qed.

Lemma quiet_trans σ1 σ2 σ3 : quiet σ1 σ2 → quiet σ2 σ3 → quiet σ1 σ3.
Proof.
  intros (Hw1 & Hq1 & Hi1 & cs1 & Hc1 & Hn1) (Hw2 & Hq2 & Hi2 & cs2 & Hc2 & Hn2).
  repeat split; try congruence.
  exists (cs1 ++ cs2). rewrite Hc2, Hc1, app_assoc. split; [reflexivity|].
  apply Forall_app. auto.
Qed.

Lemma quiet_call c σ : is_rmi c = false → quiet σ (with_shared (record_call c) σ).
Proof. intros Hc. repeat split. exists [c]. auto. Qed.

Lemma quiet_service s σ : quiet σ (with_shared (set_service s) σ).
Proof. repeat split. exists []. simpl. rewrite app_nil_r. auto. Qed.

Lemma quiet_call_service {A} c (g : Service → (exn + A) * Service) σ :
  is_rmi c = false → quiet σ (call_service c g σ).2.
Proof.
  intros Hc. unfold call_service. destruct (g _) as [r s]. simpl.
  eapply quiet_trans; [apply quiet_call, Hc|apply quiet_service].
Qed.

Lemma quiet_bind {A B} (m : M A) (k : A → M B) σ :
  quiet σ (m σ).2 → (∀ a σ', quiet σ' (k a σ').2) → quiet σ ((m ≫= k) σ).2.
Proof.
  intros Hm Hk. rewrite run_bind.
  destruct (m σ) as [[e|a] σ']; simpl in *; [assumption|].
  eapply quiet_trans; [eassumption|apply Hk].
Qed.

Lemma prepare_df_quiet msg trusted σ : quiet σ (prepare_df msg trusted σ).2.
Proof.
  unfold prepare_df.
  apply quiet_bind; [apply quiet_refl|intros name σ1].
  apply quiet_bind; [apply quiet_call_service; reflexivity|intros df σ2].
  apply quiet_bind; [apply quiet_call; reflexivity|intros df' σ3].
  apply quiet_bind; [apply quiet_refl|intros state σ4].
  apply quiet_call. reflexivity.
Qed.

(** Lines 107-111 when the method is not on the list: the branch raises, and
    [_rmi] has not been reached. *)
Lemma command_call_dataframe_refused msg trusted method σ :
  py_getitem msg "method" = inr method →
  method_allowed method = false →
  ∃ e σ', command_call_dataframe msg trusted σ = (inl e, σ') ∧ quiet σ σ'.
Proof.
  intros Hm Hno. unfold command_call_dataframe. rewrite run_bind.
  pose proof (prepare_df_quiet msg trusted σ) as Hq.
  destruct (prepare_df msg trusted σ) as [[e|df] σ1]; simpl in Hq; [eauto|].
  rewrite run_bind, run_getitem, Hm. simpl. rewrite Hno. simpl.
  unfold raise. eauto.
Qed.

Lemma authorize_call_dataframe_refused msg auth method σ :
  py_getitem msg "command" = inr (PyStr "call-dataframe") →
  py_getitem msg "method" = inr method →
  method_allowed method = false →
  ∃ e σ', authorize webserver msg auth σ = (inl e, σ') ∧ quiet σ σ'.
Proof.
  intros Hc Hm Hno. unfold authorize.
  rewrite run_bind, run_getitem.
  destruct (py_getitem auth "token") as [e|token]; [eauto using quiet_refl|].
  rewrite run_bind, run_getitem.
  destruct (py_getitem auth "token-trusted") as [e|token_trusted];
    [eauto using quiet_refl|].
  simpl. destruct (authorized _ _ _); simpl; [|unfold raise; eauto using quiet_refl].
  rewrite run_bind. simpl. unfold dispatch. rewrite run_bind, run_getitem, Hc. simpl.
  destruct (command_call_dataframe_refused msg (trusted_of webserver token_trusted)
              method (set_last_progress None σ) Hm Hno) as (e & σ' & -> & Hq).
  exists e, σ'. split; [reflexivity|].
  eapply quiet_trans; [|exact Hq]. repeat split. exists []. simpl.
  rewrite app_nil_r. auto.
Qed.

(** C3.  A [call-dataframe] request whose method is not on the allow-list
    is answered with one error envelope, and [_rmi] is not called. *)
Theorem method_off_the_allow_list_never_invoked websocket_msg w o msg method :
  deserialize websocket_msg = inr o →
  py_getitem o "msg" = inr msg →
  py_getitem msg "command" = inr (PyStr "call-dataframe") →
  py_getitem msg "method" = inr method →
  method_allowed method = false →
  (∃ id e, frames webserver websocket_msg w = [envelope id (exception e)])
  ∧ Forall (λ c, is_rmi c = false) (performed webserver websocket_msg w).
Proof.
  intros Ho Hmsg Hc Hm Hno.
  assert (∃ e σ, on_message_try webserver websocket_msg (enter w) = (inl e, σ)
                 ∧ written (shared σ) = written w ∧ callbacks σ = []
                 ∧ ∃ cs, calls (shared σ) = calls w ++ cs
                         ∧ Forall (λ c, is_rmi c = false) cs)
    as (e & σ & Ht & Hw & Hq & cs & Hcs & Hrmi).
  { destruct (decode websocket_msg) as [e|[[id msg'] auth]] eqn:Hd.
    - exists e, (enter w). rewrite (on_message_try_undecoded _ _ _ _ Hd).
      repeat split. exists []. rewrite app_nil_r. auto.
    - assert (msg' = msg) as ->.
      { unfold decode in Hd. rewrite Ho, Hmsg in Hd.
        destruct (py_getitem o "msg_id"); [discriminate|].
        destruct (py_getitem o "auth"); [discriminate|]. congruence. }
      rewrite (on_message_try_decoded _ _ _ _ _ _ Hd).
      destruct (authorize_call_dataframe_refused msg auth method
                  (set_msg_id id (enter w)) Hc Hm Hno)
        as (e & σ & -> & Hw & Hq & _ & Hcalls).
      exists e, σ. auto. }
  assert (handle webserver websocket_msg w
          = write_message (envelope (msg_id σ) (exception e)) (shared σ)) as Hh.
  { unfold handle. rewrite (on_message_raised _ _ _ _ _ Ht).
    rewrite run_callbacks_none; [reflexivity|exact Hq]. }
  split.
  - exists (msg_id σ), e. unfold frames. rewrite Hh. simpl.
    rewrite Hw, drop_app_length. reflexivity.
  - unfold performed. rewrite Hh. simpl. rewrite Hcs, drop_app_length. exact Hrmi.
Qed.

End Claims.

(** ** The progress reporter, delivered promptly *)

(** *** Order on binary64 numbers, from the specification of the primitives *)

Lemma SFleb_trans a b c :
  SFleb a b = true → SFleb b c = true → SFleb a c = true.
Proof.
  unfold SFleb.
  destruct a as [sa|sa| |sa ma ea], b as [sb|sb| |sb mb eb], c as [sc|sc| |sc mc ec];
    simpl; try discriminate; try reflexivity;
    repeat match goal with s : bool |- _ => destruct s end;
    simpl; try discriminate; try reflexivity.
  all: repeat match goal with
       | |- context [PosDef.Pos.compare_cont Eq ?p ?q] =>
           change (PosDef.Pos.compare_cont Eq p q) with (Pos.compare p q)
       end.
  all: destruct (Z.compare_spec ea eb), (Z.compare_spec eb ec), (Z.compare_spec ea ec);
    simpl; try discriminate; try reflexivity; try lia;
    destruct (Pos.compare_spec ma mb), (Pos.compare_spec mb mc), (Pos.compare_spec ma mc);
    simpl; try discriminate; try reflexivity; try lia.
Qed.

Lemma float_leb_trans (x y z : float) :
  (x <=? y)%float = true → (y <=? z)%float = true → (x <=? z)%float = true.
Proof. rewrite !leb_spec. apply SFleb_trans. Qed.

Lemma float_leb_not_ltb (x y : float) :
  (x <=? y)%float = true → (x <? y)%float = false → (x =? y)%float = true.
Proof.
  rewrite leb_spec, ltb_spec, FloatAxioms.eqb_spec. unfold SFleb, SFltb, SFeqb.
  destruct (SFcompare _ _) as [[]|]; congruence.
Qed.

Lemma SFeqb_finite_positive a m e :
  SFeqb a (S754_finite false m e) = true → a = S754_finite false m e.
Proof.
  unfold SFeqb. destruct a as [s|s| |s m' e']; simpl; try discriminate.
  - destruct s; discriminate.
  - destruct s; try discriminate.
    change (PosDef.Pos.compare_cont Eq m' m) with (Pos.compare m' m).
    destruct (Z.compare_spec e' e); try discriminate.
    destruct (Pos.compare_spec m' m); try discriminate. congruence.
Qed.

Lemma Prim2SF_one : Prim2SF 1 = S754_finite false 4503599627370496 (-52).
Proof. vm_compute. reflexivity. Qed.

(** [x == 1.0] holds of 1.0 only. *)
Lemma float_eqb_one (x : float) : (x =? 1)%float = true → x = 1%float.
Proof.
  rewrite FloatAxioms.eqb_spec, Prim2SF_one. intros Hx.
  apply SFeqb_finite_positive in Hx.
  rewrite <- (SF2Prim_Prim2SF x), Hx, <- Prim2SF_one. apply SF2Prim_Prim2SF.
Qed.

Lemma float_leb_transitive : Transitive (λ a b, (a <=? b)%float = true).
Proof. intros x y z. apply float_leb_trans. Qed.

(** *** The guard *)

(** The guard of line 84, disjunct by disjunct. *)
Lemma emit_guard_spec last_progress f :
  emit_guard last_progress f = true ↔
    (last_progress = None
     ∨ (∃ l, last_progress = Some l ∧ (threshold <? f - l)%float = true)
     ∨ (f =? 1)%float = true)
    ∧ (last_progress = None ∨ ∃ l, last_progress = Some l ∧ (l <? f)%float = true).
Proof.
  unfold emit_guard. rewrite andb_true_iff, orb_true_iff.
  destruct last_progress as [l|].
  - split.
    + intros [[?|?] ?]; split; eauto.
    + intros [[[=]|[(l' & [= <-] & ?)|?]] [[=]|(l'' & [= <-] & ?)]]; auto.
  - split; [intros _; auto|auto].
Qed.

Section Reporter.
Context `{Collaborators}.

(** What [progress] does: it returns [True]; when the guard holds it runs
    [do] at once or hands it to the IOLoop, as [from_current_ioloop] says,
    and otherwise does nothing. *)
Lemma progress_spec f from_current_ioloop (σ : invocation) :
  progress f from_current_ioloop σ
  = (inr true,
     if emit_guard (last_progress σ) f
     then if from_current_ioloop then do f σ else add_callback f σ
     else σ).
Proof. unfold progress. destruct (emit_guard _ _); reflexivity. Qed.

(** One report and the IOLoop's turn after it. *)
Lemma report_then_run f (σ : invocation) :
  callbacks σ = [] →
  (suspension [Report f; RunCallback] σ).2
  = if emit_guard (last_progress σ) f then do f σ else σ.
Proof.
  destruct σ as [w id lp q]. simpl. intros ->.
  unfold mbind, M_bind, progress, modify, run_callback. simpl.
  destruct (emit_guard lp f); reflexivity.
Qed.

Lemma suspension_cons a script (σ : invocation) :
  (suspension (a :: script) σ).2 = (suspension script (suspended a σ).2).2.
Proof.
  simpl. rewrite run_bind.
  destruct a as [f|]; simpl.
  - unfold mbind, M_bind, progress. destruct (emit_guard _ _); reflexivity.
  - reflexivity.
Qed.

(** With prompt delivery the client is sent exactly the fractions
    [throttle] selects, in order. *)
Lemma suspension_prompt fs : ∀ σ : invocation,
  callbacks σ = [] →
  callbacks (suspension (prompt fs) σ).2 = []
  ∧ msg_id (suspension (prompt fs) σ).2 = msg_id σ
  ∧ written (shared (suspension (prompt fs) σ).2)
    = written (shared σ)
      ++ ((λ f, envelope (msg_id σ) (progress_msg f)) <$> throttle (last_progress σ) fs).
Proof.
  induction fs as [|f fs IH]; intros σ Hq.
  - simpl. rewrite app_nil_r. auto.
  - change (prompt (f :: fs)) with ([Report f; RunCallback] ++ prompt fs).
    assert (∀ s1 s2 (τ : invocation),
              (suspension (s1 ++ s2) τ).2 = (suspension s2 (suspension s1 τ).2).2) as Happ.
    { induction s1 as [|a s1 IHs]; intros s2 τ; [reflexivity|].
      simpl app. rewrite !suspension_cons. apply IHs. }
    rewrite Happ, (report_then_run _ _ Hq). simpl throttle.
    destruct (emit_guard (last_progress σ) f).
    + destruct (IH (do f σ)) as (Hq' & Hid & Hw).
      { destruct σ; simpl in *; assumption. }
      rewrite Hq', Hid, Hw. repeat split.
      destruct σ as [w id lp q]. simpl. rewrite <- app_assoc. reflexivity.
    + apply IH. assumption.
Qed.

End Reporter.

(** *** What [throttle] lets through *)

Lemma throttle_increasing fs : ∀ last_progress,
  increasing (throttle last_progress fs)
  ∧ ∀ l, last_progress = Some l →
         HdRel (λ a b, (a <? b)%float = true) l (throttle last_progress fs).
Proof.
  induction fs as [|f fs IH]; intros last_progress; simpl.
  - split; [constructor|intros; constructor].
  - destruct (emit_guard last_progress f) eqn:Hg; [|apply IH].
    destruct (IH (Some f)) as [Hs Hh]. split.
    + constructor; [assumption|]. apply Hh. reflexivity.
    + intros l ->. constructor.
      apply emit_guard_spec in Hg as [_ [[=]|(l' & [= <-] & Hlt)]]. assumption.
Qed.

Lemma throttle_first f fs : throttle None (f :: fs) = f :: throttle (Some f) fs.
Proof. reflexivity. Qed.

Lemma throttle_one fs : ∀ last_progress,
  nondecreasing fs →
  (∀ l, last_progress = Some l → Forall (λ f, (l <=? f)%float = true) fs) →
  1%float ∈ fs →
  1%float ∈ throttle last_progress fs ∨ last_progress = Some 1%float.
Proof.
  induction fs as [|f fs IH]; intros last_progress Hs Hl Hin.
  - apply elem_of_nil in Hin as [].
  - pose proof (Sorted_extends float_leb_transitive Hs) as Hf.
    apply Sorted_inv in Hs as [Hs _]. simpl.
    destruct (emit_guard last_progress f) eqn:Hg.
    + apply elem_of_cons in Hin as [<-|Hin]; [left; left|].
      destruct (IH (Some f) Hs) as [Hin'|[= ->]]; [intros l [= <-]; exact Hf|exact Hin|..].
      * left. right. assumption.
      * left. left.
    + destruct last_progress as [l|]; [|discriminate].
      specialize (Hl l eq_refl). apply Forall_cons in Hl as [Hlf Hl].
      apply elem_of_cons in Hin as [<-|Hin].
      * right. f_equal. apply float_eqb_one, float_leb_not_ltb; [assumption|].
        unfold emit_guard in Hg. rewrite orb_true_r in Hg. exact Hg.
      * apply (IH (Some l) Hs); [intros l' [= <-]; exact Hl|exact Hin].
Qed.

Section Prompt.
Context `{Collaborators}.

(** The reporter under prompt delivery.  When the job's fractions are
    non-decreasing and the IOLoop runs each scheduled [do] before the job
    reports again, the client is sent the fractions [throttle] selects: they
    are strictly increasing, start with the first fraction reported, and
    include 1.0 whenever 1.0 is reported. *)
Theorem prompt_progress_is_increasing fs (σ : invocation) :
  callbacks σ = [] →
  last_progress σ = None →
  nondecreasing fs →
  written (shared (suspension (prompt fs) σ).2)
  = written (shared σ)
    ++ ((λ f, envelope (msg_id σ) (progress_msg f)) <$> throttle None fs)
  ∧ increasing (throttle None fs)
  ∧ head (throttle None fs) = head fs
  ∧ (1%float ∈ fs → 1%float ∈ throttle None fs).
Proof.
  intros Hq Hlast Hs.
  destruct (suspension_prompt fs σ Hq) as (_ & _ & Hw). rewrite Hlast in Hw.
  split; [exact Hw|]. split; [apply throttle_increasing|].
  split; [destruct fs; reflexivity|].
  intros Hin. destruct (throttle_one fs None Hs) as [Hone|[=]]; [discriminate|exact Hin|].
  exact Hone.
Qed.

End Prompt.

(** * More about the handler *)

(** ** The trust level (line 66) *)

Lemma py_truthy_of_token t : py_truthy (py_of_token t) = token_truthy t.
Proof. reflexivity. Qed.

Lemma trusted_of_spec webserver rtoken_trusted :
  trusted_of webserver rtoken_trusted = true ↔
    rtoken_trusted = py_of_token (WebServer.token_trusted webserver)
    ∧ non_empty (WebServer.token_trusted webserver).
Proof.
  unfold trusted_of. rewrite andb_true_iff, py_eq_token_spec, <- token_truthy_spec.
  split.
  - intros [-> Ht]. split; [reflexivity|]. rewrite <- py_truthy_of_token. exact Ht.
  - intros [-> Ht]. split; [reflexivity|]. rewrite py_truthy_of_token. exact Ht.
Qed.

(** A request is trusted exactly when its trusted token equals the
    configured trusted token and that one is non-empty; a trusted request is
    authorized whatever its plain token; and a server without a trusted
    token trusts no request. *)
Theorem trusted_iff webserver rtoken rtoken_trusted :
  (trusted_of webserver rtoken_trusted = true ↔
     rtoken_trusted = py_of_token (WebServer.token_trusted webserver)
     ∧ non_empty (WebServer.token_trusted webserver))
  ∧ (trusted_of webserver rtoken_trusted = true →
     authorized webserver rtoken rtoken_trusted = true)
  ∧ trusted_of
      {| WebServer.token := WebServer.token webserver;
         WebServer.token_trusted := None |}
      rtoken_trusted = false.
Proof.
  split; [apply trusted_of_spec|]. split.
  - intros Ht. apply trusted_of_spec in Ht as [Heq Hne].
    unfold authorized. apply orb_true_iff. right.
    rewrite andb_true_iff, py_eq_token_spec, token_truthy_spec. auto.
  - unfold trusted_of. simpl. destruct rtoken_trusted; reflexivity.
Qed.

(** ** The calls a message may cause *)

Section Calls.
Context `{Collaborators}.
Variable webserver : WebServer.t.
Variable Q : call → Prop.

Lemma calls_within_ret {A} (a : A) : calls_within Q (mret a).
Proof. intros σ. exists []. simpl. rewrite app_nil_r. auto. Qed.

Lemma calls_within_raise {A} (e : exn) : calls_within Q (raise (A := A) e).
Proof. intros σ. exists []. simpl. rewrite app_nil_r. auto. Qed.

Lemma calls_within_lift {A} (r : exn + A) : calls_within Q (lift r).
Proof. intros σ. exists []. simpl. rewrite app_nil_r. auto. Qed.

Lemma calls_within_getitem o key : calls_within Q (getitem o key).
Proof. apply calls_within_lift. Qed.

Lemma calls_within_bind {A B} (m : M A) (k : A → M B) :
  calls_within Q m → (∀ a, calls_within Q (k a)) → calls_within Q (m ≫= k).
Proof.
  intros Hm Hk σ. rewrite run_bind. destruct (Hm σ) as (cs & Hcs & HQ).
  destruct (m σ) as [[e|a] σ']; simpl in *; [eauto|].
  destruct (Hk a σ') as (cs' & Hcs' & HQ').
  exists (cs ++ cs'). rewrite Hcs', Hcs, app_assoc. split; [reflexivity|].
  apply Forall_app. auto.
Qed.

Lemma calls_within_if {A} (b : bool) (m1 m2 : M A) :
  (b = true → calls_within Q m1) → (b = false → calls_within Q m2) →
  calls_within Q (if b then m1 else m2).
Proof. destruct b; auto. Qed.

Lemma calls_within_call_service {A} c (g : Service → (exn + A) * Service) :
  Q c → calls_within Q (call_service c g).
Proof.
  intros Hc σ. unfold call_service. destruct (g _) as [r s]. simpl.
  exists [c]. auto.
Qed.

Lemma calls_within_call_other {A} c (r : exn + A) :
  Q c → calls_within Q (call_other c r).
Proof. intros Hc σ. exists [c]. auto. Qed.

Lemma calls_within_reply msg : calls_within Q (reply msg).
Proof. intros σ. exists []. simpl. rewrite app_nil_r. auto. Qed.

Lemma calls_within_modify_cell (g : invocation → invocation) :
  (∀ σ, calls (shared (g σ)) = calls (shared σ)) → calls_within Q (modify g).
Proof. intros Hg σ. exists []. simpl. rewrite Hg, app_nil_r. auto. Qed.

Lemma calls_within_progress f from_current_ioloop :
  calls_within Q (progress f from_current_ioloop).
Proof.
  intros σ. exists []. rewrite app_nil_r. split; [|constructor].
  unfold progress. destruct (emit_guard _ _); [|reflexivity].
  destruct from_current_ioloop; reflexivity.
Qed.

Lemma calls_run_callback (σ : invocation) :
  calls (shared (run_callback σ)) = calls (shared σ).
Proof. unfold run_callback. destruct (callbacks σ); reflexivity. Qed.

Lemma calls_within_suspension script : calls_within Q (suspension script).
Proof.
  induction script as [|a script IH]; [apply calls_within_ret|].
  simpl. apply calls_within_bind; [|auto].
  destruct a; simpl.
  - apply calls_within_bind; [apply calls_within_progress|].
    intros. apply calls_within_ret.
  - apply calls_within_modify_cell, calls_run_callback.
Qed.

Lemma calls_within_execute df tasks :
  Q CallExecute → calls_within Q (execute df tasks).
Proof.
  intros Hc σ. unfold execute.
  destruct (service_execute _ _ _) as [[script outcome] s].
  destruct (calls_within_suspension script
    (with_shared (set_service s) (with_shared (record_call CallExecute) σ)))
    as (cs & Hcs & HQ).
  exists (CallExecute :: cs). split; [|constructor; assumption].
  destruct (suspension script _) as [[e|[]] σ']; simpl in *;
    rewrite Hcs, <- app_assoc; reflexivity.
Qed.

Lemma calls_run_callbacks (σ : invocation) :
  calls (shared (run_callbacks σ)) = calls (shared σ).
Proof.
  unfold run_callbacks.
  change (calls (shared σ)) with (calls (shared (set_callbacks [] σ))).
  generalize (set_callbacks [] σ) as σ'. generalize (callbacks σ) as q.
  induction q as [|f q IH]; intros σ'; simpl; [reflexivity|].
  rewrite IH. reflexivity.
Qed.

End Calls.

Section Vetting.
Context `{Collaborators}.
Variable webserver : WebServer.t.

#[local] Hint Resolve calls_within_ret calls_within_raise calls_within_lift
  calls_within_getitem calls_within_reply calls_within_progress : core.

Lemma calls_within_prepare_df msg trusted :
  calls_within (within_command msg trusted) (prepare_df msg trusted).
Proof.
  unfold prepare_df.
  apply calls_within_bind; [auto|intros name].
  apply calls_within_bind; [apply calls_within_call_service; exact I|intros df].
  apply calls_within_bind; [apply calls_within_call_other; exact I|intros df'].
  apply calls_within_bind; [auto|intros state].
  apply calls_within_call_other. reflexivity.
Qed.

Lemma calls_within_command_execute msg trusted :
  calls_within (within_command msg trusted) (command_execute msg trusted).
Proof.
  unfold command_execute.
  apply calls_within_bind; [apply calls_within_prepare_df|intros df].
  apply calls_within_bind; [auto|intros tasks].
  apply calls_within_bind; [apply calls_within_call_other; exact I|intros tasks'].
  apply calls_within_bind; [apply calls_within_execute; exact I|intros results].
  apply calls_within_bind; [apply calls_within_modify_cell; reflexivity|intros _].
  apply calls_within_bind; [auto|intros _].
  apply calls_within_bind; [apply calls_within_call_other; exact I|intros results'].
  auto.
Qed.

Lemma calls_within_command_call_dataframe msg trusted :
  calls_within (within_command msg trusted) (command_call_dataframe msg trusted).
Proof.
  unfold command_call_dataframe.
  apply calls_within_bind; [apply calls_within_prepare_df|intros df].
  intros σ. rewrite run_bind, run_getitem.
  destruct (py_getitem msg "method") as [e|method] eqn:Hm;
    [exists []; simpl; rewrite app_nil_r; auto|].
  revert σ. change (calls_within (within_command msg trusted)
    (if negb (method_allowed method)
     then raise (NotImplementedError "Method is not rmi invokable")
     else
       method ← getitem msg "method";
       args ← getitem msg "args";
       kwargs ← getitem msg "kwargs";
       results ← call_service (CallRmi method args kwargs)
                              (service_rmi df method args kwargs);
       method ← getitem msg "method";
       results ←
         (if py_eq_str method "_evaluate_implementation"
          then call_other (CallEncode "vaex-evaluate-result")
                          (encode "vaex-evaluate-result" results)
          else call_other (CallEncode "vaex-rmi-result")
                          (encode "vaex-rmi-result" results));
       reply (result_msg results))).
  destruct (method_allowed method) eqn:Hyes; simpl; [|auto].
  intros σ. rewrite run_bind, run_getitem, Hm. revert σ.
  change (calls_within (within_command msg trusted)
    (args ← getitem msg "args";
     kwargs ← getitem msg "kwargs";
     results ← call_service (CallRmi method args kwargs)
                            (service_rmi df method args kwargs);
     method ← getitem msg "method";
     results ←
       (if py_eq_str method "_evaluate_implementation"
        then call_other (CallEncode "vaex-evaluate-result")
                        (encode "vaex-evaluate-result" results)
        else call_other (CallEncode "vaex-rmi-result")
                        (encode "vaex-rmi-result" results));
     reply (result_msg results))).
  apply calls_within_bind; [auto|intros args].
  apply calls_within_bind; [auto|intros kwargs].
  apply calls_within_bind;
    [apply calls_within_call_service; split; assumption|intros results].
  apply calls_within_bind; [auto|intros method'].
  apply calls_within_bind; [|auto].
  destruct (py_eq_str method' _); apply calls_within_call_other; exact I.
Qed.

Lemma calls_within_dispatch msg trusted :
  calls_within (within_command msg trusted) (dispatch msg trusted).
Proof.
  unfold dispatch. apply calls_within_bind; [auto|intros command].
  repeat (apply calls_within_if; intros _);
    auto using calls_within_command_execute, calls_within_command_call_dataframe.
  apply calls_within_bind; [apply calls_within_call_service; exact I|auto].
Qed.

(** Every collaborator call made for a message is one the message is
    entitled to. *)
Lemma performed_vetted websocket_msg w :
  Forall (vetted webserver websocket_msg) (performed webserver websocket_msg w).
Proof.
  assert (∃ cs, calls (shared (on_message webserver websocket_msg w)) = calls w ++ cs
                ∧ Forall (vetted webserver websocket_msg) cs) as (cs & Hcs & Hv).
  { unfold on_message.
    assert (∃ r σ, on_message_try webserver websocket_msg (enter w) = (r, σ)
                   ∧ ∃ cs, calls (shared σ) = calls w ++ cs
                           ∧ Forall (vetted webserver websocket_msg) cs)
      as (r & σ & -> & cs & Hcs & Hv).
    { destruct (decode websocket_msg) as [e|[[id msg] auth]] eqn:Hd.
      - rewrite (on_message_try_undecoded _ _ _ _ Hd). do 2 eexists.
        split; [reflexivity|]. exists []. simpl. rewrite app_nil_r. auto.
      - rewrite (on_message_try_decoded _ _ _ _ _ _ Hd). unfold authorize.
        rewrite run_bind, run_getitem.
        destruct (py_getitem auth "token") as [e|token] eqn:Ht.
        { do 2 eexists. split; [reflexivity|]. exists []. simpl.
          rewrite app_nil_r. auto. }
        rewrite run_bind, run_getitem.
        destruct (py_getitem auth "token-trusted") as [e|token_trusted] eqn:Htt.
        { do 2 eexists. split; [reflexivity|]. exists []. simpl.
          rewrite app_nil_r. auto. }
        simpl. destruct (authorized webserver token token_trusted) eqn:Hyes; simpl.
        + rewrite run_bind. simpl.
          destruct (calls_within_dispatch msg (trusted_of webserver token_trusted)
                      (set_last_progress None (set_msg_id id (enter w))))
            as (cs & Hcs & HQ).
          destruct (dispatch msg _ _) as [r σ]. exists r, σ.
          split; [reflexivity|]. exists cs. split; [exact Hcs|].
          eapply Forall_impl; [exact HQ|]. intros c Hc.
          exists id, msg, auth, token, token_trusted. auto.
        + do 2 eexists. split; [reflexivity|]. exists []. simpl.
          rewrite app_nil_r. auto. }
    destruct r as [e|[]]; simpl; eauto. }
  unfold performed, handle. rewrite calls_run_callbacks, Hcs, drop_app_length.
  exact Hv.
Qed.

(** No collaborator is called for a message that was not decoded and
    authorized: each call made is made for a message whose envelope held
    the three fields and whose tokens passed the test of lines 68-69. *)
Theorem collaborators_called_only_when_authorized websocket_msg w :
  Forall (λ c, ∃ id msg auth token token_trusted,
                 decode websocket_msg = inr (id, msg, auth)
                 ∧ py_getitem auth "token" = inr token
                 ∧ py_getitem auth "token-trusted" = inr token_trusted
                 ∧ authorized webserver token token_trusted = true)
         (performed webserver websocket_msg w).
Proof.
  eapply Forall_impl; [apply performed_vetted|].
  intros c (id & msg & auth & token & token_trusted & ? & ? & ? & ? & _).
  exists id, msg, auth, token, token_trusted. auto.
Qed.

(** [state_set] is told the state may be trusted only when the request's
    trusted token equals the configured trusted token and that one is
    non-empty. *)
Theorem state_set_trusted_only_with_trusted_token websocket_msg w :
  Forall (λ c, c = CallStateSet true →
               ∃ id msg auth token_trusted,
                 decode websocket_msg = inr (id, msg, auth)
                 ∧ py_getitem auth "token-trusted" = inr token_trusted
                 ∧ token_trusted = py_of_token (WebServer.token_trusted webserver)
                 ∧ non_empty (WebServer.token_trusted webserver))
         (performed webserver websocket_msg w).
Proof.
  eapply Forall_impl; [apply performed_vetted|].
  intros c (id & msg & auth & token & token_trusted & Hd & _ & Htt & _ & Hc) ->.
  simpl in Hc. symmetry in Hc.
  apply trusted_of_spec in Hc as [-> Hne].
  exists id, msg, auth, (py_of_token (WebServer.token_trusted webserver)). auto.
Qed.

(** Whatever the message, [_rmi] is only ever invoked with the method the
    message names, and only when that method is on the allow-list. *)
Theorem rmi_only_for_allowed_methods websocket_msg w :
  Forall (λ c, ∀ method args kwargs, c = CallRmi method args kwargs →
               method_allowed method = true
               ∧ ∃ id msg auth,
                   decode websocket_msg = inr (id, msg, auth)
                   ∧ py_getitem msg "method" = inr method)
         (performed webserver websocket_msg w).
Proof.
  eapply Forall_impl; [apply performed_vetted|].
  intros c (id & msg & auth & token & token_trusted & Hd & _ & _ & _ & Hc)
    method args kwargs ->.
  destruct Hc as [Hm Hyes]. split; [exact Hyes|]. exists id, msg, auth. auto.
Qed.

End Vetting.

(** ** The messages a message may cause *)

Section Answers.
Context `{Collaborators}.
Variable webserver : WebServer.t.

Lemma only_progress_refl b (σ : invocation) : only_progress b σ σ.
Proof. split; [reflexivity|]. exists []. simpl. rewrite app_nil_r. auto. Qed.

Lemma only_progress_trans b (σ1 σ2 σ3 : invocation) :
  only_progress b σ1 σ2 → only_progress b σ2 σ3 → only_progress b σ1 σ3.
Proof.
  intros (Hid1 & vs1 & Hw1 & Hb1) (Hid2 & vs2 & Hw2 & Hb2).
  split; [congruence|]. exists (vs1 ++ vs2).
  unfold progress_frames in *. rewrite fmap_app, app_assoc, <- Hw1, <- Hid1. split; [exact Hw2|].
  intros Hb. destruct (Hb1 Hb) as [-> Hq1], (Hb2 Hb) as [-> Hq2].
  split; [reflexivity|congruence].
Qed.

Lemma only_progress_unseen b (g : invocation → invocation) (σ : invocation) :
  msg_id (g σ) = msg_id σ →
  written (shared (g σ)) = written (shared σ) →
  callbacks (g σ) = callbacks σ →
  only_progress b σ (g σ).
Proof.
  intros Hid Hw Hq. split; [exact Hid|]. exists []. simpl.
  rewrite app_nil_r. auto.
Qed.

Lemma do_only_progress f (σ : invocation) : only_progress true σ (do f σ).
Proof. split; [reflexivity|]. exists [f]. split; [reflexivity|discriminate]. Qed.

Lemma only_progress_weaken b (σ σ' : invocation) :
  only_progress b σ σ' → only_progress true σ σ'.
Proof. intros (Hid & vs & Hw & _). split; [exact Hid|]. exists vs. split; [exact Hw|discriminate]. Qed.

Lemma silent_ret b {A} (a : A) : silent b (mret a).
Proof. intros σ. apply only_progress_refl. Qed.

Lemma silent_lift b {A} (r : exn + A) : silent b (lift r).
Proof. intros σ. apply only_progress_refl. Qed.

Lemma silent_getitem b o key : silent b (getitem o key).
Proof. apply silent_lift. Qed.

Lemma silent_bind b {A B} (m : M A) (k : A → M B) :
  silent b m → (∀ a, silent b (k a)) → silent b (m ≫= k).
Proof.
  intros Hm Hk σ. rewrite run_bind. specialize (Hm σ).
  destruct (m σ) as [[e|a] σ']; simpl in *; [assumption|].
  eapply only_progress_trans; [eassumption|apply Hk].
Qed.

Lemma silent_call_service b {A} c (g : Service → (exn + A) * Service) :
  silent b (call_service c g).
Proof.
  intros σ. unfold call_service. destruct (g _) as [r s]. simpl.
  apply (only_progress_unseen b
           (λ σ, with_shared (set_service s) (with_shared (record_call c) σ)));
    reflexivity.
Qed.

Lemma silent_call_other b {A} c (r : exn + A) : silent b (call_other c r).
Proof.
  intros σ. apply (only_progress_unseen b (with_shared (record_call c))); reflexivity.
Qed.

Lemma silent_set_last_progress b v : silent b (modify (set_last_progress v)).
Proof. intros σ. apply (only_progress_unseen b (set_last_progress v)); reflexivity. Qed.

Lemma silent_progress f from_current_ioloop :
  silent true (progress f from_current_ioloop).
Proof.
  intros σ. unfold progress.
  destruct (emit_guard _ _); [|apply only_progress_refl].
  destruct from_current_ioloop; simpl; [apply do_only_progress|].
  split; [reflexivity|]. exists []. simpl. rewrite app_nil_r. split; [reflexivity|discriminate].
Qed.

Lemma run_callback_only_progress (σ : invocation) : only_progress true σ (run_callback σ).
Proof.
  unfold run_callback. destruct (callbacks σ) as [|f q]; [apply only_progress_refl|].
  eapply only_progress_trans; [|apply do_only_progress].
  split; [reflexivity|]. exists []. simpl. rewrite app_nil_r. split; [reflexivity|discriminate].
Qed.

Lemma silent_suspension script : silent true (suspension script).
Proof.
  induction script as [|a script IH]; [apply silent_ret|].
  simpl. apply silent_bind; [|auto].
  destruct a; simpl.
  - apply silent_bind; [apply silent_progress|intros; apply silent_ret].
  - intros σ. apply run_callback_only_progress.
Qed.

Lemma silent_execute df tasks : silent true (execute df tasks).
Proof.
  intros σ. unfold execute.
  destruct (service_execute _ _ _) as [[script outcome] s].
  pose proof (silent_suspension script
    (with_shared (set_service s) (with_shared (record_call CallExecute) σ))) as Hs.
  assert (only_progress true σ
            (with_shared (set_service s) (with_shared (record_call CallExecute) σ))) as H0
    by (apply (only_progress_unseen true
          (λ σ, with_shared (set_service s) (with_shared (record_call CallExecute) σ)));
        reflexivity).
  destruct (suspension script _) as [[e|[]] σ']; simpl in *;
    eapply only_progress_trans; eassumption.
Qed.

Lemma silent_prepare_df b msg trusted : silent b (prepare_df msg trusted).
Proof.
  unfold prepare_df.
  repeat (apply silent_bind; [|intros]);
    auto using silent_getitem, silent_call_service, silent_call_other.
Qed.

Lemma answers_raise b (e : exn) : answers b (raise e).
Proof. intros σ. apply only_progress_refl. Qed.

Lemma answers_reply b result : answers b (reply (result_msg result)).
Proof.
  intros σ. simpl. split; [reflexivity|]. exists [], result. auto.
Qed.

Lemma answers_bind b {A} (m : M A) (k : A → M ()) :
  silent b m → (∀ a, answers b (k a)) → answers b (m ≫= k).
Proof.
  intros Hm Hk σ. rewrite run_bind. specialize (Hm σ).
  destruct (m σ) as [[e|a] σ1]; simpl in *; [assumption|].
  specialize (Hk a σ1). destruct Hm as (Hid1 & vs1 & Hw1 & Hb1).
  destruct (k a σ1) as [[e|[]] σ2].
  - eapply only_progress_trans; [|exact Hk]. split; [exact Hid1|]. eauto.
  - destruct Hk as (Hid2 & vs2 & result & Hw2 & Hb2). split; [congruence|].
    exists (vs1 ++ vs2), result. unfold progress_frames in *.
    rewrite fmap_app, <- !app_assoc. rewrite Hw2, Hw1, Hid1, <- !app_assoc.
    split; [reflexivity|].
    intros Hb. destruct (Hb1 Hb) as [-> Hq1], (Hb2 Hb) as [-> Hq2].
    split; [reflexivity|congruence].
Qed.

Lemma answers_weaken b (m : M ()) : answers b m → answers true m.
Proof.
  intros Hm σ. specialize (Hm σ). destruct (m σ) as [[e|[]] σ'].
  - eapply only_progress_weaken, Hm.
  - destruct Hm as (Hid & vs & result & Hw & _). split; [exact Hid|].
    exists vs, result. split; [exact Hw|discriminate].
Qed.

Lemma answers_command_execute msg trusted : answers true (command_execute msg trusted).
Proof.
  unfold command_execute.
  repeat first
    [ solve [auto using silent_prepare_df, silent_getitem, silent_call_other,
               silent_execute, silent_set_last_progress, silent_progress, answers_reply]
    | apply answers_bind; [|intros] ].
Qed.

Lemma answers_command_call_dataframe b msg trusted :
  answers b (command_call_dataframe msg trusted).
Proof.
  unfold command_call_dataframe.
  apply answers_bind; [apply silent_prepare_df|intros df].
  apply answers_bind; [apply silent_getitem|intros method].
  destruct (negb (method_allowed method)); [apply answers_raise|].
  repeat first
    [ solve [auto using silent_getitem, silent_call_service, answers_reply]
    | match goal with
      | |- silent _ (if ?c then _ else _) => destruct c; apply silent_call_other
      end
    | apply answers_bind; [|intros] ].
Qed.

Lemma py_eq_str_true o s : py_eq_str o s = true → o = PyStr s.
Proof.
  destruct o; simpl; try discriminate. intros Hs. apply String.eqb_eq in Hs. congruence.
Qed.

Lemma answers_dispatch b msg trusted :
  (b = false → py_getitem msg "command" ≠ inr (PyStr "execute")) →
  answers b (dispatch msg trusted).
Proof.
  intros Hb. unfold dispatch. intros σ. rewrite run_bind, run_getitem.
  destruct (py_getitem msg "command") as [e|command] eqn:Hc;
    [apply only_progress_refl|].
  revert σ.
  change (answers b
    (if py_eq_str command "list"
     then result ← call_service CallList service_list; reply (result_msg result)
     else if py_eq_str command "execute" then command_execute msg trusted
     else if py_eq_str command "call-dataframe"
          then command_call_dataframe msg trusted
          else raise (ValueError ("Unknown command: " ++ py_str command)%string))).
  destruct (py_eq_str command "list").
  { apply answers_bind; [apply silent_call_service|intros; apply answers_reply]. }
  destruct (py_eq_str command "execute") eqn:He.
  { destruct b.
    - apply answers_command_execute.
    - apply py_eq_str_true in He as ->. destruct (Hb eq_refl). reflexivity. }
  destruct (py_eq_str command "call-dataframe");
    [apply answers_command_call_dataframe|apply answers_raise].
Qed.

Lemma answers_authorize b msg auth :
  (b = false → py_getitem msg "command" ≠ inr (PyStr "execute")) →
  answers b (authorize webserver msg auth).
Proof.
  intros Hb. unfold authorize.
  apply answers_bind; [apply silent_getitem|intros token].
  apply answers_bind; [apply silent_getitem|intros token_trusted].
  simpl. destruct (negb (authorized _ _ _)); [apply answers_raise|].
  apply answers_bind; [apply silent_set_last_progress|intros _].
  apply answers_dispatch, Hb.
Qed.

Lemma written_run_callbacks (σ : invocation) :
  written (shared (run_callbacks σ))
  = written (shared σ) ++ progress_frames (msg_id σ) (callbacks σ).
Proof.
  unfold run_callbacks.
  change (written (shared σ)) with (written (shared (set_callbacks [] σ))).
  change (msg_id σ) with (msg_id (set_callbacks [] σ)).
  generalize (set_callbacks [] σ) as σ'. generalize (callbacks σ) as q.
  induction q as [|f q IH]; intros σ'; simpl; [rewrite app_nil_r; reflexivity|].
  rewrite IH. simpl. rewrite <- app_assoc. reflexivity.
Qed.

(** What [on_message] has written when it returns: progress messages, then
    one result or exception. *)
Lemma on_message_written b websocket_msg w :
  (b = false → ∀ id msg auth, decode websocket_msg = inr (id, msg, auth) →
               py_getitem msg "command" ≠ inr (PyStr "execute")) →
  ∃ vs t,
    written (shared (on_message webserver websocket_msg w))
    = written w ++ progress_frames (msg_id (on_message webserver websocket_msg w)) vs ++ [t]
    ∧ is_terminal_frame t
    ∧ (b = false → vs = [] ∧ callbacks (on_message webserver websocket_msg w) = []).
Proof.
  intros Hb. unfold on_message.
  destruct (decode websocket_msg) as [e|[[id msg] auth]] eqn:Hd.
  - rewrite (on_message_try_undecoded _ _ _ _ Hd). simpl.
    exists [], (envelope (PyStr "invalid") (exception e)).
    split; [reflexivity|]. split; [|auto]. exists (PyStr "invalid"). eauto.
  - rewrite (on_message_try_decoded _ _ _ _ _ _ Hd).
    pose proof (answers_authorize b msg auth (λ Hf, Hb Hf id msg auth eq_refl)
                  (set_msg_id id (enter w))) as Ha.
    destruct (authorize _ _ _ _) as [[e|[]] σ].
    + destruct Ha as (Hid & vs & Hw & Hq). simpl in *.
      exists vs, (envelope (msg_id σ) (exception e)).
      rewrite Hw, Hid, <- app_assoc. split; [reflexivity|].
      split; [exists id; eauto|]. intros Hf. destruct (Hq Hf) as [-> ->]. auto.
    + destruct Ha as (Hid & vs & result & Hw & Hq). simpl in *.
      exists vs, (envelope id (result_msg result)).
      rewrite Hw, Hid. split; [reflexivity|].
      split; [exists id; eauto|]. intros Hf. destruct (Hq Hf) as [-> ->]. auto.
Qed.

Lemma msg_id_run_callbacks (σ : invocation) : msg_id (run_callbacks σ) = msg_id σ.
Proof.
  unfold run_callbacks.
  change (msg_id σ) with (msg_id (set_callbacks [] σ)).
  generalize (set_callbacks [] σ) as σ'. generalize (callbacks σ) as q.
  induction q as [|f q IH]; intros σ'; simpl; [reflexivity|].
  rewrite IH. reflexivity.
Qed.

Lemma progress_frames_are_progress id vs :
  Forall is_progress_frame (progress_frames id vs).
Proof. apply Forall_fmap, Forall_true. intros f. exists id, f. reflexivity. Qed.

Lemma msg_keys_progress id f : msg_keys (envelope id (progress_msg f)) = ["progress"].
Proof. reflexivity. Qed.

Lemma msg_keys_result id r : msg_keys (envelope id (result_msg r)) = ["result"].
Proof. reflexivity. Qed.

Lemma msg_keys_exception id e : msg_keys (envelope id (exception e)) = ["exception"].
Proof. reflexivity. Qed.

Lemma msg_keys_error id s : msg_keys (envelope id (error s)) = ["error"].
Proof. reflexivity. Qed.

Lemma progress_frame_not_error frame :
  is_progress_frame frame → ∀ id s, frame ≠ envelope id (error s).
Proof.
  intros (id & f & ->) id' s Heq. apply (f_equal msg_keys) in Heq.
  rewrite msg_keys_progress, msg_keys_error in Heq. discriminate.
Qed.

Lemma terminal_frame_not_error frame :
  is_terminal_frame frame → ∀ id s, frame ≠ envelope id (error s).
Proof.
  intros (id & [[r ->]|[e ->]]) id' s Heq; apply (f_equal msg_keys) in Heq.
  - rewrite msg_keys_result, msg_keys_error in Heq. discriminate.
  - rewrite msg_keys_exception, msg_keys_error in Heq. discriminate.
Qed.

(** Every inbound message is answered exactly once: the messages written
    for it are progress messages, one result or exception, and after it at
    most the progress messages that were still scheduled when the handler
    returned.  None has the shape that [error] (lines 36-37) builds. *)
Theorem every_message_answered_once websocket_msg w :
  ∃ early answer late,
    frames webserver websocket_msg w = early ++ [answer] ++ late
    ∧ Forall is_progress_frame early
    ∧ is_terminal_frame answer
    ∧ Forall is_progress_frame late
    ∧ Forall (λ frame, ∀ id text, frame ≠ envelope id (error text))
             (frames webserver websocket_msg w).
Proof.
  destruct (on_message_written true websocket_msg w) as (vs & t & Hw & Ht & _);
    [discriminate|].
  set (σ := on_message webserver websocket_msg w) in *.
  exists (progress_frames (msg_id σ) vs), t, (progress_frames (msg_id σ) (callbacks σ)).
  assert (frames webserver websocket_msg w
          = progress_frames (msg_id σ) vs ++ [t]
              ++ progress_frames (msg_id σ) (callbacks σ)) as Hf.
  { unfold frames, handle. fold σ. rewrite written_run_callbacks, Hw.
    rewrite <- !app_assoc, drop_app_length. reflexivity. }
  split; [exact Hf|].
  split; [apply progress_frames_are_progress|].
  split; [exact Ht|].
  split; [apply progress_frames_are_progress|].
  rewrite Hf. rewrite !Forall_app. repeat split.
  - eapply Forall_impl; [apply progress_frames_are_progress|].
    intros frame. apply progress_frame_not_error.
  - constructor; [|constructor]. apply terminal_frame_not_error, Ht.
  - eapply Forall_impl; [apply progress_frames_are_progress|].
    intros frame. apply progress_frame_not_error.
Qed.

(** Progress is for [execute] only: a message whose command is not
    ['execute'] is answered by a single message, a result or an exception. *)
Theorem single_answer_unless_execute websocket_msg w :
  (∀ id msg auth, decode websocket_msg = inr (id, msg, auth) →
                  py_getitem msg "command" ≠ inr (PyStr "execute")) →
  ∃ answer, frames webserver websocket_msg w = [answer] ∧ is_terminal_frame answer.
Proof.
  intros Hno.
  destruct (on_message_written false websocket_msg w (λ _, Hno))
    as (vs & t & Hw & Ht & Hq).
  destruct (Hq eq_refl) as [-> Hq'].
  exists t. split; [|exact Ht].
  unfold frames, handle. rewrite written_run_callbacks, Hw, Hq'. simpl.
  rewrite app_nil_r, drop_app_length. reflexivity.
Qed.

End Answers.

(** ** Progress under any interleaving *)

Lemma StronglySorted_sublist {A} (R : relation A) (l1 l2 : list A) :
  l1 `sublist_of` l2 → StronglySorted R l2 → StronglySorted R l1.
Proof.
  induction 1 as [|x l1 l2 Hsub IH|x l1 l2 Hsub IH]; intros Hs.
  - constructor.
  - apply StronglySorted_inv in Hs as [Hs Hx]. constructor; [auto|].
    rewrite Forall_forall in Hx |- *. intros y Hy. apply Hx.
    eapply sublist_subseteq; eassumption.
  - apply StronglySorted_inv in Hs as [Hs _]. auto.
Qed.

Lemma nondecreasing_sublist l1 l2 :
  l1 `sublist_of` l2 → nondecreasing l2 → nondecreasing l1.
Proof.
  intros Hsub Hs. apply StronglySorted_Sorted.
  eapply StronglySorted_sublist; [exact Hsub|].
  apply Sorted_StronglySorted; [apply float_leb_transitive|exact Hs].
Qed.

Section Interleaving.
Context `{Collaborators}.

Lemma suspended_report f (σ : invocation) :
  (suspended (Report f) σ).2
  = if emit_guard (last_progress σ) f then add_callback f σ else σ.
Proof.
  simpl. unfold mbind, M_bind, progress. destruct (emit_guard _ _); reflexivity.
Qed.

Lemma suspension_returns script (σ : invocation) :
  (suspension script σ).1 = inr ().
Proof.
  revert σ. induction script as [|a script IH]; intros σ; [reflexivity|].
  simpl. rewrite run_bind. destruct a as [f|]; simpl.
  - unfold mbind, M_bind, progress. destruct (emit_guard _ _); apply IH.
  - apply IH.
Qed.

Lemma suspension_shared script (σ : invocation) :
  service (shared (suspension script σ).2) = service (shared σ)
  ∧ calls (shared (suspension script σ).2) = calls (shared σ).
Proof.
  revert σ. induction script as [|a script IH]; intros σ; [auto|].
  rewrite suspension_cons. destruct (IH (suspended a σ).2) as [-> ->].
  destruct a as [f|].
  - rewrite suspended_report. destruct (emit_guard _ _); auto.
  - simpl. unfold run_callback. destruct (callbacks σ); auto.
Qed.

(** The account of a suspension: what has been written and what is still
    scheduled are, together and in this order, what was scheduled before
    followed by reports of the job that passed the guard. *)
Lemma suspension_accounts script : ∀ σ : invocation,
  ∃ vs accepted,
    written (shared (suspension script σ).2)
    = written (shared σ) ++ progress_frames (msg_id σ) vs
    ∧ msg_id (suspension script σ).2 = msg_id σ
    ∧ vs ++ callbacks (suspension script σ).2 = callbacks σ ++ accepted
    ∧ accepted `sublist_of` reported script
    ∧ (last_progress σ = None → callbacks σ = [] →
       head accepted = head (reported script)).
Proof.
  induction script as [|a script IH]; intros σ.
  - exists [], []. simpl. rewrite !app_nil_r. repeat split; auto.
  - rewrite suspension_cons. destruct a as [f|].
    + rewrite suspended_report. destruct (emit_guard (last_progress σ) f) eqn:Hg.
      * destruct (IH (add_callback f σ)) as (vs & acc & Hw & Hid & Hq & Hsub & _).
        exists vs, (f :: acc). simpl in *. rewrite Hw, Hid, Hq, <- app_assoc.
        repeat split; auto. constructor. exact Hsub.
      * destruct (IH σ) as (vs & acc & Hw & Hid & Hq & Hsub & _).
        exists vs, acc. repeat split; auto.
        -- simpl. constructor. exact Hsub.
        -- intros Hlast. rewrite Hlast in Hg. discriminate.
    + simpl. unfold run_callback. destruct (callbacks σ) as [|f q] eqn:Hcb.
      * destruct (IH σ) as (vs & acc & Hw & Hid & Hq & Hsub & Hh).
        exists vs, acc. rewrite Hcb in Hq, Hh. repeat split; auto.
      * destruct (IH (do f (set_callbacks q σ))) as (vs & acc & Hw & Hid & Hq & Hsub & _).
        exists (f :: vs), acc. simpl in *. rewrite Hw, Hid, <- app_assoc.
        repeat split; auto; [rewrite Hq; reflexivity|discriminate].
Qed.

(** However the job's reports and the IOLoop's turns interleave, once the
    IOLoop has run what was scheduled the client has been sent a
    subsequence of the fractions reported, in the order of the reports and
    starting with the first one; when the reports are non-decreasing, so is
    what is sent. *)
Theorem progress_sent_is_a_subsequence script (σ : invocation) :
  callbacks σ = [] →
  ∃ sent,
    written (shared (run_callbacks (suspension script σ).2))
    = written (shared σ) ++ progress_frames (msg_id σ) sent
    ∧ sent `sublist_of` reported script
    ∧ (last_progress σ = None → head sent = head (reported script))
    ∧ (nondecreasing (reported script) → nondecreasing sent).
Proof.
  intros Hq0.
  destruct (suspension_accounts script σ) as (vs & acc & Hw & Hid & Hq & Hsub & Hh).
  rewrite Hq0 in Hq. simpl in Hq. exists acc.
  split; [|split; [exact Hsub|split; [auto|]]].
  - rewrite written_run_callbacks, Hw, Hid, <- app_assoc. unfold progress_frames.
    rewrite <- fmap_app, Hq. reflexivity.
  - apply nondecreasing_sublist, Hsub.
Qed.

End Interleaving.

(** ** The three commands, step by step *)

Section Pipelines.
Context `{Collaborators}.
Variable webserver : WebServer.t.

Lemma run_call_service {A} c (g : Service → (exn + A) * Service) (σ : invocation) r s :
  g (service (shared σ)) = (r, s) →
  call_service c g σ
  = (r, with_shared (set_service s) (with_shared (record_call c) σ)).
Proof. intros Hg. unfold call_service. rewrite Hg. reflexivity. Qed.

Lemma run_call_other {A} c (r : exn + A) (σ : invocation) :
  call_other c r σ = (r, with_shared (record_call c) σ).
Proof. reflexivity. Qed.

(** Lines 96-97 and 107-108 when every step succeeds. *)
Lemma prepare_df_returns msg trusted (σ : invocation) name df0 s df1 state df2 :
  py_getitem msg "df" = inr name →
  service_getitem name (service (shared σ)) = (inr df0, s) →
  df_copy df0 = inr df1 →
  py_getitem msg "state" = inr state →
  df_state_set df1 state trusted = inr df2 →
  prepare_df msg trusted σ
  = (inr df2,
     with_shared (record_call (CallStateSet trusted))
       (with_shared (record_call CallCopy)
          (with_shared (set_service s)
             (with_shared (record_call (CallGetitem name)) σ)))).
Proof.
  intros Hn Hg Hc Hs Hset. unfold prepare_df.
  rewrite run_bind, run_getitem, Hn.
  rewrite run_bind, (run_call_service _ _ _ _ _ Hg).
  rewrite run_bind, run_call_other, Hc.
  rewrite run_bind, run_getitem, Hs.
  rewrite run_call_other, Hset. reflexivity.
Qed.

(** Lines 96 and 107 when the lookup in the catalog raises. *)
Lemma prepare_df_not_found msg trusted (σ : invocation) name e s :
  py_getitem msg "df" = inr name →
  service_getitem name (service (shared σ)) = (inl e, s) →
  prepare_df msg trusted σ
  = (inl e, with_shared (set_service s)
              (with_shared (record_call (CallGetitem name)) σ)).
Proof.
  intros Hn Hg. unfold prepare_df.
  rewrite run_bind, run_getitem, Hn.
  rewrite run_bind, (run_call_service _ _ _ _ _ Hg). reflexivity.
Qed.

(** From the frame to the command branch. *)
Lemma on_message_try_dispatched
    websocket_msg w id msg auth token token_trusted :
  decode websocket_msg = inr (id, msg, auth) →
  py_getitem auth "token" = inr token →
  py_getitem auth "token-trusted" = inr token_trusted →
  authorized webserver token token_trusted = true →
  on_message_try webserver websocket_msg (enter w)
  = dispatch msg (trusted_of webserver token_trusted)
      (Invocation w id None []).
Proof.
  intros Hd Ht Htt Hyes.
  rewrite (on_message_try_decoded _ _ _ _ _ _ Hd).
  rewrite (authorize_granted _ _ _ _ _ _ Ht Htt Hyes). reflexivity.
Qed.

Lemma dispatch_list msg trusted (σ : invocation) :
  py_getitem msg "command" = inr (PyStr "list") →
  dispatch msg trusted σ
  = (result ← call_service CallList service_list; reply (result_msg result)) σ.
Proof. intros Hc. unfold dispatch. rewrite run_bind, run_getitem, Hc. reflexivity. Qed.

Lemma dispatch_execute msg trusted (σ : invocation) :
  py_getitem msg "command" = inr (PyStr "execute") →
  dispatch msg trusted σ = command_execute msg trusted σ.
Proof. intros Hc. unfold dispatch. rewrite run_bind, run_getitem, Hc. reflexivity. Qed.

Lemma dispatch_call_dataframe msg trusted (σ : invocation) :
  py_getitem msg "command" = inr (PyStr "call-dataframe") →
  dispatch msg trusted σ = command_call_dataframe msg trusted σ.
Proof. intros Hc. unfold dispatch. rewrite run_bind, run_getitem, Hc. reflexivity. Qed.

(** [list]: the client gets what [service.list()] returns, the service is
    called once and is left as that call leaves it; no other field of the
    message is looked at. *)
Theorem list_returns_the_catalog
    websocket_msg w id msg auth token token_trusted result s :
  decode websocket_msg = inr (id, msg, auth) →
  py_getitem auth "token" = inr token →
  py_getitem auth "token-trusted" = inr token_trusted →
  authorized webserver token token_trusted = true →
  py_getitem msg "command" = inr (PyStr "list") →
  service_list (service w) = (inr result, s) →
  frames webserver websocket_msg w = [envelope id (result_msg result)]
  ∧ performed webserver websocket_msg w = [CallList]
  ∧ service (handle webserver websocket_msg w) = s.
Proof.
  intros Hd Ht Htt Hyes Hc Hl.
  assert (on_message webserver websocket_msg w
          = with_shared (write_message (envelope id (result_msg result)))
              (with_shared (set_service s)
                 (with_shared (record_call CallList) (Invocation w id None [])))) as Hm.
  { apply on_message_returned.
    rewrite (on_message_try_dispatched _ _ _ _ _ _ _ Hd Ht Htt Hyes).
    rewrite (dispatch_list _ _ _ Hc).
    rewrite run_bind. erewrite run_call_service; [|exact Hl]. reflexivity. }
  unfold frames, performed, handle. rewrite Hm. simpl.
  rewrite !drop_app_length. auto.
Qed.

(** A dataset the catalog does not resolve: for [execute] and for
    [call-dataframe] alike the exception of the lookup is what the client
    gets, and nothing is called after the lookup. *)
Theorem unresolved_dataset_is_reported
    websocket_msg w id msg auth token token_trusted name e s :
  decode websocket_msg = inr (id, msg, auth) →
  py_getitem auth "token" = inr token →
  py_getitem auth "token-trusted" = inr token_trusted →
  authorized webserver token token_trusted = true →
  (py_getitem msg "command" = inr (PyStr "execute")
   ∨ py_getitem msg "command" = inr (PyStr "call-dataframe")) →
  py_getitem msg "df" = inr name →
  service_getitem name (service w) = (inl e, s) →
  frames webserver websocket_msg w = [envelope id (exception e)]
  ∧ performed webserver websocket_msg w = [CallGetitem name]
  ∧ service (handle webserver websocket_msg w) = s.
Proof.
  intros Hd Ht Htt Hyes Hc Hn Hg.
  assert (on_message_try webserver websocket_msg (enter w)
          = (inl e, with_shared (set_service s)
                      (with_shared (record_call (CallGetitem name))
                         (Invocation w id None [])))) as Htry.
  { rewrite (on_message_try_dispatched _ _ _ _ _ _ _ Hd Ht Htt Hyes).
    destruct Hc as [Hc|Hc].
    - rewrite (dispatch_execute _ _ _ Hc). unfold command_execute.
      rewrite run_bind. erewrite prepare_df_not_found; [|exact Hn|exact Hg]. reflexivity.
    - rewrite (dispatch_call_dataframe _ _ _ Hc). unfold command_call_dataframe.
      rewrite run_bind. erewrite prepare_df_not_found; [|exact Hn|exact Hg]. reflexivity. }
  unfold frames, performed, handle. rewrite (on_message_raised _ _ _ _ _ Htry).
  simpl. rewrite !drop_app_length. auto.
Qed.

(** [call-dataframe] with a method on the allow-list, every step
    succeeding: the dataframe is looked up, copied, given the state, the
    method is invoked once on the copy with the message's arguments, and the
    client gets its value, encoded as ['vaex-evaluate-result'] for
    ['_evaluate_implementation'] and as ['vaex-rmi-result'] otherwise. *)
Theorem call_dataframe_returns_the_method_value
    websocket_msg w id msg auth token token_trusted
    name df0 s1 df1 state df2 method args kwargs value s2 encoded :
  decode websocket_msg = inr (id, msg, auth) →
  py_getitem auth "token" = inr token →
  py_getitem auth "token-trusted" = inr token_trusted →
  authorized webserver token token_trusted = true →
  py_getitem msg "command" = inr (PyStr "call-dataframe") →
  py_getitem msg "df" = inr name →
  service_getitem name (service w) = (inr df0, s1) →
  df_copy df0 = inr df1 →
  py_getitem msg "state" = inr state →
  df_state_set df1 state (trusted_of webserver token_trusted) = inr df2 →
  py_getitem msg "method" = inr method →
  method_allowed method = true →
  py_getitem msg "args" = inr args →
  py_getitem msg "kwargs" = inr kwargs →
  service_rmi df2 method args kwargs s1 = (inr value, s2) →
  encode (result_typename method) value = inr encoded →
  frames webserver websocket_msg w = [envelope id (result_msg encoded)]
  ∧ performed webserver websocket_msg w
    = [CallGetitem name; CallCopy;
       CallStateSet (trusted_of webserver token_trusted);
       CallRmi method args kwargs; CallEncode (result_typename method)]
  ∧ service (handle webserver websocket_msg w) = s2.
Proof.
  intros Hd Ht Htt Hyes Hc Hn Hg Hcopy Hs Hset Hm Hok Ha Hk Hrmi Henc.
  set (trusted := trusted_of webserver token_trusted) in *.
  assert (on_message webserver websocket_msg w
          = with_shared (write_message (envelope id (result_msg encoded)))
              (with_shared (record_call (CallEncode (result_typename method)))
                 (with_shared (set_service s2)
                    (with_shared (record_call (CallRmi method args kwargs))
                       (with_shared (record_call (CallStateSet trusted))
                          (with_shared (record_call CallCopy)
                             (with_shared (set_service s1)
                                (with_shared (record_call (CallGetitem name))
                                   (Invocation w id None []))))))))) as Hmsg.
  { apply on_message_returned.
    rewrite (on_message_try_dispatched _ _ _ _ _ _ _ Hd Ht Htt Hyes).
    rewrite (dispatch_call_dataframe _ _ _ Hc). unfold command_call_dataframe.
    rewrite run_bind.
    erewrite prepare_df_returns; [|exact Hn|exact Hg|exact Hcopy|exact Hs|exact Hset].
    cbv beta iota.
    rewrite run_bind, run_getitem, Hm, Hok. cbn [negb]. cbv beta iota.
    rewrite run_bind, run_getitem, Hm. cbv beta iota.
    rewrite run_bind, run_getitem, Ha. cbv beta iota.
    rewrite run_bind, run_getitem, Hk. cbv beta iota.
    rewrite run_bind. erewrite run_call_service; [|exact Hrmi]. cbv beta iota.
    rewrite run_bind, run_getitem, Hm. cbv beta iota.
    rewrite run_bind. unfold result_typename in *.
    destruct (py_eq_str method "_evaluate_implementation");
      rewrite run_call_other, Henc; reflexivity. }
  unfold frames, performed, handle. rewrite Hmsg. simpl.
  rewrite <- !app_assoc, !drop_app_length. auto.
Qed.

Lemma service_run_callbacks (σ : invocation) :
  service (shared (run_callbacks σ)) = service (shared σ).
Proof.
  unfold run_callbacks.
  change (service (shared σ)) with (service (shared (set_callbacks [] σ))).
  generalize (set_callbacks [] σ) as σ'. generalize (callbacks σ) as q.
  induction q as [|f q IH]; intros σ'; simpl; [reflexivity|].
  rewrite IH. reflexivity.
Qed.

Lemma run_execute df tasks (σ : invocation) script outcome s :
  service_execute df tasks (service (shared σ)) = (script, outcome, s) →
  execute df tasks σ
  = (outcome,
     (suspension script
        (with_shared (set_service s) (with_shared (record_call CallExecute) σ))).2).
Proof.
  intros Hx. unfold execute. rewrite Hx.
  pose proof (suspension_returns script
    (with_shared (set_service s) (with_shared (record_call CallExecute) σ))) as Hr.
  destruct (suspension script _) as [r σ']. simpl in Hr. subst r. reflexivity.
Qed.

Lemma progress_after_last (σ : invocation) :
  progress 1 true (set_last_progress (Some 1%float) σ)
  = (inr true, set_last_progress (Some 1%float) σ).
Proof. reflexivity. Qed.

(** [execute], every step succeeding: the dataframe is looked up, copied,
    given the state, the tasks are decoded against the copy and run, and the
    client gets the encoded results as the one result message.  The progress
    messages around it are a subsequence of what the job reported (those
    after it, what was still scheduled when the job finished); the handler
    adds none of its own. *)
Theorem execute_returns_the_results
    websocket_msg w id msg auth token token_trusted
    name df0 s1 df1 state df2 tasks decoded script results s2 encoded :
  decode websocket_msg = inr (id, msg, auth) →
  py_getitem auth "token" = inr token →
  py_getitem auth "token-trusted" = inr token_trusted →
  authorized webserver token token_trusted = true →
  py_getitem msg "command" = inr (PyStr "execute") →
  py_getitem msg "df" = inr name →
  service_getitem name (service w) = (inr df0, s1) →
  df_copy df0 = inr df1 →
  py_getitem msg "state" = inr state →
  df_state_set df1 state (trusted_of webserver token_trusted) = inr df2 →
  py_getitem msg "tasks" = inr tasks →
  decode_list tasks df2 = inr decoded →
  service_execute df2 decoded s1 = (script, inr results, s2) →
  encode_list results = inr encoded →
  (∃ early late,
     frames webserver websocket_msg w
     = progress_frames id early ++ [envelope id (result_msg encoded)]
         ++ progress_frames id late
     ∧ early ++ late `sublist_of` reported script)
  ∧ performed webserver websocket_msg w
    = [CallGetitem name; CallCopy;
       CallStateSet (trusted_of webserver token_trusted);
       CallDecodeList; CallExecute; CallEncodeList]
  ∧ service (handle webserver websocket_msg w) = s2.
Proof.
  intros Hd Ht Htt Hyes Hc Hn Hg Hcopy Hs Hset Htasks Hdec Hexec Henc.
  set (trusted := trusted_of webserver token_trusted) in *.
  set (σ1 := with_shared (set_service s2)
               (with_shared (record_call CallExecute)
                  (with_shared (record_call CallDecodeList)
                     (with_shared (record_call (CallStateSet trusted))
                        (with_shared (record_call CallCopy)
                           (with_shared (set_service s1)
                              (with_shared (record_call (CallGetitem name))
                                 (Invocation w id None [])))))))).
  set (σ2 := (suspension script σ1).2).
  assert (on_message webserver websocket_msg w
          = with_shared (write_message (envelope (msg_id σ2) (result_msg encoded)))
              (with_shared (record_call CallEncodeList)
                 (set_last_progress (Some 1%float) σ2))) as Hmsg.
  { apply on_message_returned.
    rewrite (on_message_try_dispatched _ _ _ _ _ _ _ Hd Ht Htt Hyes).
    rewrite (dispatch_execute _ _ _ Hc). unfold command_execute.
    rewrite run_bind.
    erewrite prepare_df_returns; [|exact Hn|exact Hg|exact Hcopy|exact Hs|exact Hset].
    cbv beta iota.
    rewrite run_bind, run_getitem, Htasks. cbv beta iota.
    rewrite run_bind, run_call_other, Hdec. cbv beta iota.
    rewrite run_bind. erewrite run_execute; [|exact Hexec]. cbv beta iota.
    rewrite run_bind. unfold modify at 1. cbv beta iota.
    rewrite run_bind, progress_after_last. cbv beta iota.
    rewrite run_bind, run_call_other, Henc. reflexivity. }
  destruct (suspension_accounts script σ1) as (vs & acc & Hw & Hid & Hq & Hsub & _).
  destruct (suspension_shared script σ1) as [Hsvc Hcalls].
  fold σ2 in Hw, Hid, Hq, Hsvc, Hcalls. simpl in Hw, Hid, Hq, Hsvc, Hcalls.
  unfold frames, performed, handle. rewrite Hmsg.
  rewrite written_run_callbacks, calls_run_callbacks, service_run_callbacks. simpl.
  rewrite Hw, Hid, Hcalls, Hsvc.
  repeat split.
  - exists vs, (callbacks σ2). rewrite <- !app_assoc, drop_app_length.
    split; [reflexivity|]. rewrite Hq. exact Hsub.
  - rewrite <- !app_assoc. apply drop_app_length.
Qed.

End Pipelines.

(** ** The failure boundary *)

Section BoundaryProperties.
Context `{Collaborators}.
Variable webserver : WebServer.t.

(** What the body of the [try] has written when it raises: progress
    messages under the id it has bound. *)
Lemma raised_written websocket_msg w e (σ : invocation) :
  on_message_try webserver websocket_msg (enter w) = (inl e, σ) →
  ∃ vs, written (shared σ) = written w ++ progress_frames (msg_id σ) vs.
Proof.
  intros Ht. destruct (decode websocket_msg) as [e'|[[id msg] auth]] eqn:Hd.
  - rewrite (on_message_try_undecoded _ _ _ _ Hd) in Ht. injection Ht as _ <-.
    exists []. simpl. rewrite app_nil_r. reflexivity.
  - rewrite (on_message_try_decoded _ _ _ _ _ _ Hd) in Ht.
    assert (true = false → py_getitem msg "command" ≠ inr (PyStr "execute")) as Hb
      by discriminate.
    pose proof (answers_authorize webserver true msg auth Hb (set_msg_id id (enter w))) as Ha.
    rewrite Ht in Ha. destruct Ha as (Hid & vs & Hw & _).
    exists vs. rewrite Hw, Hid. reflexivity.
Qed.

Lemma raised_msg_id websocket_msg w e (σ : invocation) :
  on_message_try webserver websocket_msg (enter w) = (inl e, σ) →
  msg_id σ = match decode websocket_msg with
             | inl _ => PyStr "invalid"
             | inr (id, _, _) => id
             end.
Proof.
  intros Ht. destruct (decode websocket_msg) as [e'|[[id msg] auth]] eqn:Hd.
  - rewrite (on_message_try_undecoded _ _ _ _ Hd) in Ht. injection Ht as _ <-.
    reflexivity.
  - rewrite (on_message_try_decoded _ _ _ _ _ _ Hd) in Ht.
    pose proof (preserves_authorize webserver carried carried_stable msg auth
                  (set_msg_id id (enter w))) as [Hid _].
    rewrite Ht in Hid. exact Hid.
Qed.

(** The [except] clause: whatever the body raises reaches the client. *)
Lemma raised_told websocket_msg w e (σ : invocation) :
  on_message_try webserver websocket_msg (enter w) = (inl e, σ) →
  told webserver websocket_msg w (msg_id σ) e.
Proof.
  intros Ht. destruct (raised_written _ _ _ _ Ht) as [vs Hw].
  exists vs, (callbacks σ). unfold frames, handle.
  rewrite (on_message_raised _ _ _ _ _ Ht), written_run_callbacks. simpl.
  rewrite Hw, <- !app_assoc, drop_app_length. reflexivity.
Qed.

Lemma admitted_dispatched websocket_msg w id msg trusted :
  admitted webserver websocket_msg id msg trusted →
  on_message_try webserver websocket_msg (enter w)
  = dispatch msg trusted (Invocation w id None []).
Proof.
  intros (auth & token & token_trusted & Hd & Ht & Htt & Hyes & ->).
  apply (on_message_try_dispatched _ _ _ _ _ _ _ _ Hd Ht Htt Hyes).
Qed.

Lemma admitted_decoded websocket_msg id msg trusted :
  admitted webserver websocket_msg id msg trusted →
  ∃ auth, decode websocket_msg = inr (id, msg, auth).
Proof. intros (auth & _ & _ & Hd & _). eauto. Qed.

Lemma prepared_runs msg trusted df s (σ : invocation) :
  prepared (shared σ) msg trusted df s →
  ∃ σ' : invocation,
    prepare_df msg trusted σ = (inr df, σ') ∧ service (shared σ') = s.
Proof.
  intros (name & df0 & df1 & state & Hn & Hg & Hc & Hs & Hset).
  eexists. split.
  - apply (prepare_df_returns _ _ _ _ _ _ _ _ _ Hn Hg Hc Hs Hset).
  - reflexivity.
Qed.

(** Either command on a dataframe fails where lines 96-97, resp. 107-108,
    fail. *)
Lemma dataframe_command_unprepared msg trusted (σ σ' : invocation) e :
  on_dataframe msg →
  prepare_df msg trusted σ = (inl e, σ') →
  dispatch msg trusted σ = (inl e, σ').
Proof.
  intros [Hc|Hc] Hp.
  - rewrite (dispatch_execute _ _ _ Hc). unfold command_execute.
    apply run_bind_raises, Hp.
  - rewrite (dispatch_call_dataframe _ _ _ Hc). unfold command_call_dataframe.
    apply run_bind_raises, Hp.
Qed.

(** Each failure is an exception the body of the [try] raises. *)
Lemma failure_raises websocket_msg w stage id e :
  failure webserver websocket_msg w stage id e →
  ∃ σ : invocation, on_message_try webserver websocket_msg (enter w) = (inl e, σ).
Proof.
  intros Hf. destruct Hf.
  - eexists. apply on_message_try_undecoded. eassumption.
  - eexists. rewrite (on_message_try_decoded _ _ _ _ _ _ H0). unfold authorize.
    rewrite run_bind, run_getitem, H1. reflexivity.
  - eexists. rewrite (on_message_try_decoded _ _ _ _ _ _ H0). unfold authorize.
    rewrite run_bind, run_getitem, H1. cbv beta iota.
    rewrite run_bind, run_getitem, H2. reflexivity.
  - eexists. rewrite (on_message_try_decoded _ _ _ _ _ _ H0).
    apply (authorize_denied _ _ _ _ _ _ H1 H2 H3).
  - eexists. rewrite (admitted_dispatched _ w _ _ _ H0). unfold dispatch.
    rewrite run_bind, run_getitem, H1. reflexivity.
  - eexists. rewrite (admitted_dispatched _ w _ _ _ H0).
    apply dispatch_unknown; assumption.
  - eexists. rewrite (admitted_dispatched _ w _ _ _ H0).
    apply dataframe_command_unprepared; [assumption|]. unfold prepare_df.
    rewrite run_bind, run_getitem, H2. reflexivity.
  - eexists. rewrite (admitted_dispatched _ w _ _ _ H0).
    apply dataframe_command_unprepared; [assumption|].
    apply prepare_df_not_found; eassumption.
  - eexists. rewrite (admitted_dispatched _ w _ _ _ H0).
    apply dataframe_command_unprepared; [assumption|]. unfold prepare_df.
    rewrite run_bind, run_getitem, H2. cbv beta iota.
    rewrite run_bind. erewrite run_call_service; [|exact H3]. cbv beta iota.
    rewrite run_bind, run_call_other, H4. reflexivity.
  - eexists. rewrite (admitted_dispatched _ w _ _ _ H0).
    apply dataframe_command_unprepared; [assumption|]. unfold prepare_df.
    rewrite run_bind, run_getitem, H2. cbv beta iota.
    rewrite run_bind. erewrite run_call_service; [|exact H3]. cbv beta iota.
    rewrite run_bind, run_call_other, H4. cbv beta iota.
    rewrite run_bind, run_getitem, H5. reflexivity.
  - eexists. rewrite (admitted_dispatched _ w _ _ _ H0).
    apply dataframe_command_unprepared; [assumption|]. unfold prepare_df.
    rewrite run_bind, run_getitem, H2. cbv beta iota.
    rewrite run_bind. erewrite run_call_service; [|exact H3]. cbv beta iota.
    rewrite run_bind, run_call_other, H4. cbv beta iota.
    rewrite run_bind, run_getitem, H5. cbv beta iota.
    rewrite run_call_other, H6. reflexivity.
  - eexists. rewrite (admitted_dispatched _ w _ _ _ H0).
    rewrite (dispatch_list _ _ _ H1).
    rewrite run_bind. erewrite run_call_service; [|exact H2]. reflexivity.
  - destruct (prepared_runs msg trusted df s (Invocation w id None []) H2)
      as (σp & Hp & Hs).
    eexists. rewrite (admitted_dispatched _ w _ _ _ H0).
    rewrite (dispatch_execute _ _ _ H1). unfold command_execute.
    rewrite run_bind, Hp. cbv beta iota.
    rewrite run_bind, run_getitem, H3. reflexivity.
  - destruct (prepared_runs msg trusted df s (Invocation w id None []) H2)
      as (σp & Hp & Hs).
    eexists. rewrite (admitted_dispatched _ w _ _ _ H0).
    rewrite (dispatch_execute _ _ _ H1). unfold command_execute.
    rewrite run_bind, Hp. cbv beta iota.
    rewrite run_bind, run_getitem, H3. cbv beta iota.
    rewrite run_bind, run_call_other, H4. reflexivity.
  - destruct (prepared_runs msg trusted df s (Invocation w id None []) H2)
      as (σp & Hp & Hs).
    eexists. rewrite (admitted_dispatched _ w _ _ _ H0).
    rewrite (dispatch_execute _ _ _ H1). unfold command_execute.
    rewrite run_bind, Hp. cbv beta iota.
    rewrite run_bind, run_getitem, H3. cbv beta iota.
    rewrite run_bind, run_call_other, H4. cbv beta iota.
    rewrite run_bind. erewrite run_execute; [|simpl; rewrite Hs; exact H5].
    reflexivity.
  - destruct (prepared_runs msg trusted df s (Invocation w id None []) H2)
      as (σp & Hp & Hs).
    eexists. rewrite (admitted_dispatched _ w _ _ _ H0).
    rewrite (dispatch_execute _ _ _ H1). unfold command_execute.
    rewrite run_bind, Hp. cbv beta iota.
    rewrite run_bind, run_getitem, H3. cbv beta iota.
    rewrite run_bind, run_call_other, H4. cbv beta iota.
    rewrite run_bind. erewrite run_execute; [|simpl; rewrite Hs; exact H5].
    cbv beta iota.
    rewrite run_bind. unfold modify at 1. cbv beta iota.
    rewrite run_bind, progress_after_last. cbv beta iota.
    rewrite run_bind, run_call_other, H6. reflexivity.
  - destruct (prepared_runs msg trusted df s (Invocation w id None []) H2)
      as (σp & Hp & Hs).
    eexists. rewrite (admitted_dispatched _ w _ _ _ H0).
    rewrite (dispatch_call_dataframe _ _ _ H1). unfold command_call_dataframe.
    rewrite run_bind, Hp. cbv beta iota.
    rewrite run_bind, run_getitem, H3. reflexivity.
  - destruct (prepared_runs msg trusted df s (Invocation w id None []) H2)
      as (σp & Hp & Hs).
    eexists. rewrite (admitted_dispatched _ w _ _ _ H0).
    rewrite (dispatch_call_dataframe _ _ _ H1). unfold command_call_dataframe.
    rewrite run_bind, Hp. cbv beta iota.
    rewrite run_bind, run_getitem, H3, H4. reflexivity.
  - destruct (prepared_runs msg trusted df s (Invocation w id None []) H2)
      as (σp & Hp & Hs).
    eexists. rewrite (admitted_dispatched _ w _ _ _ H0).
    rewrite (dispatch_call_dataframe _ _ _ H1). unfold command_call_dataframe.
    rewrite run_bind, Hp. cbv beta iota.
    rewrite run_bind, run_getitem, H3, H4. cbn [negb]. cbv beta iota.
    rewrite run_bind, run_getitem, H3. cbv beta iota.
    rewrite run_bind, run_getitem, H5. reflexivity.
  - destruct (prepared_runs msg trusted df s (Invocation w id None []) H2)
      as (σp & Hp & Hs).
    eexists. rewrite (admitted_dispatched _ w _ _ _ H0).
    rewrite (dispatch_call_dataframe _ _ _ H1). unfold command_call_dataframe.
    rewrite run_bind, Hp. cbv beta iota.
    rewrite run_bind, run_getitem, H3, H4. cbn [negb]. cbv beta iota.
    rewrite run_bind, run_getitem, H3. cbv beta iota.
    rewrite run_bind, run_getitem, H5. cbv beta iota.
    rewrite run_bind, run_getitem, H6. reflexivity.
  - destruct (prepared_runs msg trusted df s (Invocation w id None []) H2)
      as (σp & Hp & Hs).
    eexists. rewrite (admitted_dispatched _ w _ _ _ H0).
    rewrite (dispatch_call_dataframe _ _ _ H1). unfold command_call_dataframe.
    rewrite run_bind, Hp. cbv beta iota.
    rewrite run_bind, run_getitem, H3, H4. cbn [negb]. cbv beta iota.
    rewrite run_bind, run_getitem, H3. cbv beta iota.
    rewrite run_bind, run_getitem, H5. cbv beta iota.
    rewrite run_bind, run_getitem, H6. cbv beta iota.
    rewrite run_bind. erewrite run_call_service; [|rewrite Hs; exact H7].
    reflexivity.
  - destruct (prepared_runs msg trusted df s (Invocation w id None []) H2)
      as (σp & Hp & Hs).
    unfold result_typename in H8.
    destruct (py_eq_str method "_evaluate_implementation") eqn:Hev;
      eexists; rewrite (admitted_dispatched _ w _ _ _ H0);
      rewrite (dispatch_call_dataframe _ _ _ H1); unfold command_call_dataframe;
      rewrite run_bind, Hp; cbv beta iota;
      rewrite run_bind, run_getitem, H3, H4; cbn [negb]; cbv beta iota;
      rewrite run_bind, run_getitem, H3; cbv beta iota;
      rewrite run_bind, run_getitem, H5; cbv beta iota;
      rewrite run_bind, run_getitem, H6; cbv beta iota;
      (rewrite run_bind; erewrite run_call_service; [|rewrite Hs; exact H7]);
      cbv beta iota;
      rewrite run_bind, run_getitem, H3; cbv beta iota;
      rewrite run_bind, Hev, run_call_other, H8; reflexivity.
Qed.

End BoundaryProperties.

Section BoundaryComplete.
Context `{Collaborators}.
Variable webserver : WebServer.t.

Lemma reply_returns msg (σ : invocation) : (reply msg σ).1 = inr ().
Proof. reflexivity. Qed.

(** Lines 96-97, resp. 107-108: they go through, or fail at one of their
    five steps. *)
Lemma prepare_df_outcome websocket_msg w id msg trusted r (σ : invocation) :
  admitted webserver websocket_msg id msg trusted →
  on_dataframe msg →
  prepare_df msg trusted (Invocation w id None []) = (r, σ) →
  match r with
  | inl e => failure webserver websocket_msg w DatasetResolution id e
  | inr df => prepared w msg trusted df (service (shared σ))
  end.
Proof.
  intros Ha Hon Hp. unfold prepare_df in Hp.
  rewrite run_bind, run_getitem in Hp.
  destruct (py_getitem msg "df") as [e|name] eqn:Hn.
  { injection Hp as <- _. eapply fail_df; eassumption. }
  cbv beta iota in Hp. rewrite run_bind in Hp.
  destruct (service_getitem name (service w)) as [[e|df0] s] eqn:Hg.
  { erewrite run_call_service in Hp; [|exact Hg]. injection Hp as <- _.
    eapply fail_lookup; eassumption. }
  erewrite run_call_service in Hp; [|exact Hg]. cbv beta iota in Hp.
  rewrite run_bind, run_call_other in Hp.
  destruct (df_copy df0) as [e|df1] eqn:Hc.
  { injection Hp as <- _. eapply fail_copy; eassumption. }
  cbv beta iota in Hp. rewrite run_bind, run_getitem in Hp.
  destruct (py_getitem msg "state") as [e|state] eqn:Hs.
  { injection Hp as <- _. eapply fail_state; eassumption. }
  cbv beta iota in Hp. rewrite run_call_other in Hp.
  destruct (df_state_set df1 state trusted) as [e|df2] eqn:Hset.
  - injection Hp as <- _. eapply fail_state_set; eassumption.
  - injection Hp as <- <-. simpl. exists name, df0, df1, state. auto.
Qed.

Lemma command_execute_raises websocket_msg w id msg trusted e (σ : invocation) :
  admitted webserver websocket_msg id msg trusted →
  commanded msg "execute" →
  command_execute msg trusted (Invocation w id None []) = (inl e, σ) →
  ∃ stage, failure webserver websocket_msg w stage id e.
Proof.
  intros Ha Hc Ht. unfold command_execute in Ht. rewrite run_bind in Ht.
  destruct (prepare_df msg trusted (Invocation w id None [])) as [[e'|df] σp] eqn:Hp.
  { injection Ht as <- _. exists DatasetResolution.
    apply (prepare_df_outcome _ _ _ _ _ _ _ Ha (or_introl Hc) Hp). }
  pose proof (prepare_df_outcome _ _ _ _ _ _ _ Ha (or_introl Hc) Hp) as Hprep.
  cbv beta iota in Hprep, Ht. exists CommandExecution.
  rewrite run_bind, run_getitem in Ht.
  destruct (py_getitem msg "tasks") as [e'|tasks] eqn:Htasks.
  { injection Ht as <- _. eapply fail_tasks; eassumption. }
  cbv beta iota in Ht. rewrite run_bind, run_call_other in Ht.
  destruct (decode_list tasks df) as [e'|decoded] eqn:Hdec.
  { injection Ht as <- _. eapply fail_decode_list; eassumption. }
  cbv beta iota in Ht. rewrite run_bind in Ht.
  destruct (service_execute df decoded (service (shared σp)))
    as [[script outcome] s'] eqn:Hx.
  erewrite run_execute in Ht; [|simpl; exact Hx].
  destruct outcome as [e'|results].
  { injection Ht as <- _. eapply fail_job; eassumption. }
  cbv beta iota in Ht. rewrite run_bind in Ht. unfold modify at 1 in Ht.
  cbv beta iota in Ht. rewrite run_bind, progress_after_last in Ht.
  cbv beta iota in Ht. rewrite run_bind, run_call_other in Ht.
  destruct (encode_list results) as [e'|encoded] eqn:Henc.
  - injection Ht as <- _. eapply fail_encode_list; eassumption.
  - cbv beta iota in Ht. apply (f_equal fst) in Ht. simpl in Ht. discriminate.
Qed.

Lemma command_call_dataframe_raises websocket_msg w id msg trusted e (σ : invocation) :
  admitted webserver websocket_msg id msg trusted →
  commanded msg "call-dataframe" →
  command_call_dataframe msg trusted (Invocation w id None []) = (inl e, σ) →
  ∃ stage, failure webserver websocket_msg w stage id e.
Proof.
  intros Ha Hc Ht. unfold command_call_dataframe in Ht. rewrite run_bind in Ht.
  destruct (prepare_df msg trusted (Invocation w id None [])) as [[e'|df] σp] eqn:Hp.
  { injection Ht as <- _. exists DatasetResolution.
    apply (prepare_df_outcome _ _ _ _ _ _ _ Ha (or_intror Hc) Hp). }
  pose proof (prepare_df_outcome _ _ _ _ _ _ _ Ha (or_intror Hc) Hp) as Hprep.
  cbv beta iota in Hprep, Ht. exists CommandExecution.
  rewrite run_bind, run_getitem in Ht.
  destruct (py_getitem msg "method") as [e'|method] eqn:Hm.
  { injection Ht as <- _. eapply fail_method; eassumption. }
  cbv beta iota in Ht.
  destruct (method_allowed method) eqn:Hok; cbn [negb] in Ht; cbv beta iota in Ht.
  2:{ injection Ht as <- _. eapply fail_refused; eassumption. }
  rewrite run_bind, run_getitem, Hm in Ht. cbv beta iota in Ht.
  rewrite run_bind, run_getitem in Ht.
  destruct (py_getitem msg "args") as [e'|args] eqn:Hargs.
  { injection Ht as <- _. eapply fail_args; eassumption. }
  cbv beta iota in Ht. rewrite run_bind, run_getitem in Ht.
  destruct (py_getitem msg "kwargs") as [e'|kwargs] eqn:Hkw.
  { injection Ht as <- _. eapply fail_kwargs; eassumption. }
  cbv beta iota in Ht. rewrite run_bind in Ht.
  destruct (service_rmi df method args kwargs (service (shared σp)))
    as [[e'|value] s'] eqn:Hrmi.
  { erewrite run_call_service in Ht; [|exact Hrmi]. injection Ht as <- _.
    eapply fail_rmi; eassumption. }
  erewrite run_call_service in Ht; [|exact Hrmi]. cbv beta iota in Ht.
  rewrite run_bind, run_getitem, Hm in Ht. cbv beta iota in Ht.
  rewrite run_bind in Ht.
  destruct (encode (result_typename method) value) as [e'|encoded] eqn:Henc.
  - unfold result_typename in Henc.
    destruct (py_eq_str method "_evaluate_implementation") eqn:Hev;
      rewrite run_call_other, Henc in Ht; injection Ht as <- _;
      eapply fail_encode; try eassumption;
      unfold result_typename; rewrite Hev; exact Henc.
  - unfold result_typename in Henc.
    destruct (py_eq_str method "_evaluate_implementation") eqn:Hev;
      rewrite run_call_other, Henc in Ht; cbv beta iota in Ht;
      apply (f_equal fst) in Ht; simpl in Ht; discriminate.
Qed.

Lemma dispatch_raises websocket_msg w id msg trusted e (σ : invocation) :
  admitted webserver websocket_msg id msg trusted →
  dispatch msg trusted (Invocation w id None []) = (inl e, σ) →
  ∃ stage, failure webserver websocket_msg w stage id e.
Proof.
  intros Ha Ht.
  destruct (py_getitem msg "command") as [e'|command] eqn:Hc.
  { unfold dispatch in Ht. rewrite run_bind, run_getitem, Hc in Ht.
    injection Ht as <- _. exists Dispatch. eapply fail_command; eassumption. }
  destruct (py_eq_str command "list") eqn:Hlist.
  { apply py_eq_str_true in Hlist as ->.
    rewrite (dispatch_list _ _ _ Hc), run_bind in Ht.
    destruct (service_list (service w)) as [[e'|result] s] eqn:Hl.
    - erewrite run_call_service in Ht; [|exact Hl]. injection Ht as <- _.
      exists CommandExecution. eapply fail_list; eassumption.
    - erewrite run_call_service in Ht; [|exact Hl]. cbv beta iota in Ht.
      apply (f_equal fst) in Ht. simpl in Ht. discriminate. }
  destruct (py_eq_str command "execute") eqn:Hexec.
  { apply py_eq_str_true in Hexec as ->.
    rewrite (dispatch_execute _ _ _ Hc) in Ht.
    eapply command_execute_raises; eassumption. }
  destruct (py_eq_str command "call-dataframe") eqn:Hcall.
  { apply py_eq_str_true in Hcall as ->.
    rewrite (dispatch_call_dataframe _ _ _ Hc) in Ht.
    eapply command_call_dataframe_raises; eassumption. }
  rewrite (dispatch_unknown _ _ _ _ Hc Hlist Hexec Hcall) in Ht.
  injection Ht as <- _. exists Dispatch. eapply fail_unknown; eassumption.
Qed.

(** The failures are all there is: an exception the body of the [try]
    raises is one of them, under the [msg_id] bound when it was raised. *)
Lemma raises_failure websocket_msg w e (σ : invocation) :
  on_message_try webserver websocket_msg (enter w) = (inl e, σ) →
  ∃ stage, failure webserver websocket_msg w stage (msg_id σ) e.
Proof.
  intros Ht. pose proof (raised_msg_id _ _ _ _ _ Ht) as Hid.
  destruct (decode websocket_msg) as [e'|[[id msg] auth]] eqn:Hd.
  { rewrite (on_message_try_undecoded _ _ _ _ Hd) in Ht. injection Ht as <- _.
    rewrite Hid. exists Decoding. apply fail_decode, Hd. }
  rewrite Hid.
  destruct (py_getitem auth "token") as [e'|token] eqn:Htok.
  { rewrite (on_message_try_decoded _ _ _ _ _ _ Hd) in Ht. unfold authorize in Ht.
    rewrite run_bind, run_getitem, Htok in Ht. injection Ht as <- _.
    exists Authorization. eapply fail_token; eassumption. }
  destruct (py_getitem auth "token-trusted") as [e'|token_trusted] eqn:Htt.
  { rewrite (on_message_try_decoded _ _ _ _ _ _ Hd) in Ht. unfold authorize in Ht.
    rewrite run_bind, run_getitem, Htok in Ht. cbv beta iota in Ht.
    rewrite run_bind, run_getitem, Htt in Ht. injection Ht as <- _.
    exists Authorization. eapply fail_token_trusted; eassumption. }
  destruct (authorized webserver token token_trusted) eqn:Hyes.
  - rewrite (on_message_try_dispatched _ _ _ _ _ _ _ _ Hd Htok Htt Hyes) in Ht.
    eapply dispatch_raises; [|exact Ht].
    exists auth, token, token_trusted. auto.
  - rewrite (on_message_try_decoded _ _ _ _ _ _ Hd) in Ht.
    rewrite (authorize_denied _ _ _ _ _ _ Htok Htt Hyes) in Ht. injection Ht as <- _.
    exists Authorization. eapply fail_unauthorized; eassumption.
Qed.

Lemma failure_msg_id websocket_msg w stage id e :
  failure webserver websocket_msg w stage id e →
  match decode websocket_msg with
  | inl _ => PyStr "invalid"
  | inr (id', _, _) => id'
  end = id.
Proof.
  intros Hf.
  destruct Hf;
    try match goal with
        | Ha : admitted _ _ _ _ _ |- _ => destruct (admitted_decoded _ _ _ _ _ Ha) as [? Hd]
        end;
    repeat match goal with
           | Hd : decode _ = _ |- _ => rewrite Hd; clear Hd
           end;
    reflexivity.
Qed.

(** C5.  An exception from any stage of the body of the [try] reaches the
    client: whether the frame does not decode, a field of the envelope, of
    [auth] or of the command is missing, the tokens are refused, the command
    is unknown, the dataset is not resolved, a collaborator raises or the
    job fails, the client gets one exception message under the [msg_id]
    bound at that moment, made of the exception's class name and text and
    nothing else, with at most progress messages around it.  These places
    are all there is for the body to raise.  Nothing escapes
    [on_message], and nothing in it closes the connection (it has no call
    that would). *)
Theorem failure_boundary websocket_msg w :
  (∀ stage id e,
     failure webserver websocket_msg w stage id e →
     told webserver websocket_msg w id e)
  ∧ (∀ e (σ : invocation),
       on_message_try webserver websocket_msg (enter w) = (inl e, σ) →
       (∃ stage, failure webserver websocket_msg w stage (msg_id σ) e)
       ∧ told webserver websocket_msg w (msg_id σ) e)
  ∧ escapes webserver websocket_msg w = None
  ∧ closed (handle webserver websocket_msg w) = closed w.
Proof.
  split; [|split; [|split]].
  - intros stage id e Hf.
    destruct (failure_raises _ _ _ _ _ _ Hf) as [σ Ht].
    pose proof (raised_told _ _ _ _ _ Ht) as Htold.
    rewrite (raised_msg_id _ _ _ _ _ Ht), (failure_msg_id _ _ _ _ _ Hf) in Htold.
    exact Htold.
  - intros e σ Ht. split; [apply raises_failure, Ht|apply raised_told, Ht].
  - unfold escapes. destruct (on_message_try _ _ _) as [[e|[]] σ]; reflexivity.
  - apply (handle_stable webserver kept kept_stable). intros v σ. unfold kept. tauto.
Qed.

End BoundaryComplete.

(** ** Authorization, as the handler applies it *)

Section Admission.
Context `{Collaborators}.
Variable webserver : WebServer.t.

Lemma authorized_credentials token token_trusted :
  authorized webserver token token_trusted = true
  ↔ credentials_match webserver token token_trusted.
Proof.
  unfold authorized, credentials_match.
  rewrite orb_true_iff, andb_true_iff, !py_eq_token_spec, token_truthy_spec.
  tauto.
Qed.

(** The text of a failed subscript is not that of line 70. *)
Lemma py_getitem_text o key e :
  py_getitem o key = inl e → exc_str e ≠ "No token provided, not authorized".
Proof.
  destruct o; simpl; try (intros [= <-]; discriminate).
  destruct (d !! key); [discriminate|]. intros [= <-]. discriminate.
Qed.

Lemma engages_bind {A B} (m : M A) (k : A → M B) :
  engages m → (∀ a, calls_within (λ _, True) (k a)) → engages (m ≫= k).
Proof.
  intros Hm Hk σ. rewrite run_bind. destruct (Hm σ) as [(c & cs & Hcs)|(e & He & Hne)].
  - left. destruct (m σ) as [[e|a] σ']; simpl in *; [eauto|].
    destruct (Hk a σ') as (cs' & Hcs' & _).
    exists c, (cs ++ cs'). rewrite Hcs', Hcs, <- app_assoc. reflexivity.
  - right. rewrite He. eauto.
Qed.

Lemma engages_getitem_bind {B} o key (k : pyobj → M B) :
  (∀ v, engages (k v)) → engages (getitem o key ≫= k).
Proof.
  intros Hk σ. rewrite run_bind, run_getitem.
  destruct (py_getitem o key) as [e|v] eqn:Hg; [|apply Hk].
  right. exists e. split; [reflexivity|]. eapply py_getitem_text, Hg.
Qed.

Lemma engages_call_service {A} c (g : Service → (exn + A) * Service) :
  engages (call_service c g).
Proof.
  intros σ. left. exists c, []. unfold call_service.
  destruct (g _) as [r s]. reflexivity.
Qed.

Lemma engages_raise {A} e :
  exc_str e ≠ "No token provided, not authorized" → engages (raise (A := A) e).
Proof. intros He σ. right. exists e. auto. Qed.

#[local] Hint Resolve calls_within_ret calls_within_raise calls_within_lift
  calls_within_getitem calls_within_reply calls_within_progress : core.

Lemma engages_prepare_df msg trusted : engages (prepare_df msg trusted).
Proof.
  unfold prepare_df. apply engages_getitem_bind. intros name.
  apply engages_bind; [apply engages_call_service|intros df].
  apply calls_within_bind; [apply calls_within_call_other; exact I|intros df'].
  apply calls_within_bind; [auto|intros state].
  apply calls_within_call_other. exact I.
Qed.

Lemma engages_dispatch msg trusted : engages (dispatch msg trusted).
Proof.
  unfold dispatch. apply engages_getitem_bind. intros command.
  destruct (py_eq_str command "list").
  { apply engages_bind; [apply engages_call_service|auto]. }
  destruct (py_eq_str command "execute").
  { unfold command_execute. apply engages_bind; [apply engages_prepare_df|intros df].
    apply calls_within_bind; [auto|intros tasks].
    apply calls_within_bind; [apply calls_within_call_other; exact I|intros tasks'].
    apply calls_within_bind; [apply calls_within_execute; exact I|intros results].
    apply calls_within_bind; [apply calls_within_modify_cell; reflexivity|intros _].
    apply calls_within_bind; [auto|intros _].
    apply calls_within_bind; [apply calls_within_call_other; exact I|intros results'].
    auto. }
  destruct (py_eq_str command "call-dataframe").
  { unfold command_call_dataframe.
    apply engages_bind; [apply engages_prepare_df|intros df].
    apply calls_within_bind; [auto|intros method].
    apply calls_within_if; intros _; [auto|].
    apply calls_within_bind; [auto|intros method'].
    apply calls_within_bind; [auto|intros args].
    apply calls_within_bind; [auto|intros kwargs].
    apply calls_within_bind; [apply calls_within_call_service; exact I|intros results].
    apply calls_within_bind; [auto|intros method''].
    apply calls_within_bind; [|auto].
    destruct (py_eq_str method'' _); apply calls_within_call_other; exact I. }
  apply engages_raise. simpl. discriminate.
Qed.

(** A message that is dispatched is not turned away: it causes a call, or
    its answer is not the error of line 70. *)
Lemma dispatched_not_turned_away websocket_msg w id msg trusted :
  on_message_try webserver websocket_msg (enter w)
  = dispatch msg trusted (Invocation w id None []) →
  ¬ turned_away webserver websocket_msg w id.
Proof.
  intros Ht [Hf Hp].
  destruct (engages_dispatch msg trusted (Invocation w id None []))
    as [(c & cs & Hcs)|(e & He & Hne)].
  - unfold performed, handle in Hp. rewrite calls_run_callbacks in Hp.
    assert (calls (shared (on_message webserver websocket_msg w)) = calls w ++ c :: cs)
      as Hc.
    { unfold on_message. rewrite Ht.
      destruct (dispatch msg trusted _) as [[e|[]] σ]; exact Hcs. }
    rewrite Hc, drop_app_length in Hp. discriminate.
  - rewrite He in Ht.
    assert (frames webserver websocket_msg w = [envelope id (exception e)]) as Hf'
      by (apply frames_written, handle_raised_early, Ht).
    rewrite Hf' in Hf. apply singleton_eq, (f_equal error_text) in Hf.
    rewrite !error_text_envelope in Hf. injection Hf as Hf. contradiction.
Qed.

(** C2, amended.  The handler lets a request through exactly when its
    token equals the configured token, or its trusted token equals the
    configured trusted token and that one is set and not empty: then the
    command is dispatched, with the trust level of line 66; otherwise the
    request is turned away with the error of line 70 and nothing is called.
    On a server started without a token, a request whose token is [None]
    is let through. *)
Theorem authorized_iff websocket_msg w id msg auth token token_trusted :
  decode websocket_msg = inr (id, msg, auth) →
  py_getitem auth "token" = inr token →
  py_getitem auth "token-trusted" = inr token_trusted →
  (authorized webserver token token_trusted = true
   ↔ credentials_match webserver token token_trusted)
  ∧ (credentials_match webserver token token_trusted →
     on_message_try webserver websocket_msg (enter w)
     = dispatch msg (trusted_of webserver token_trusted) (Invocation w id None []))
  ∧ (turned_away webserver websocket_msg w id
     ↔ ¬ credentials_match webserver token token_trusted)
  ∧ (WebServer.token webserver = None → token = PyNone →
     credentials_match webserver token token_trusted).
Proof.
  intros Hd Ht Htt. split; [apply authorized_credentials|]. split; [|split].
  - intros Hm. apply authorized_credentials in Hm.
    apply (on_message_try_dispatched _ _ _ _ _ _ _ _ Hd Ht Htt Hm).
  - split.
    + intros Haway Hm. apply authorized_credentials in Hm.
      eapply dispatched_not_turned_away; [|exact Haway].
      apply (on_message_try_dispatched _ _ _ _ _ _ _ _ Hd Ht Htt Hm).
    + intros Hno.
      assert (authorized webserver token token_trusted = false) as Hdenied.
      { destruct (authorized webserver token token_trusted) eqn:Hyes; [|reflexivity].
        apply authorized_credentials in Hyes. contradiction. }
      assert (handle webserver websocket_msg w
              = write_message
                  (envelope id (exception
                     (ValueError "No token provided, not authorized"))) w) as Hh.
      { apply handle_raised_early.
        rewrite (on_message_try_decoded _ _ _ _ _ _ Hd).
        apply (authorize_denied _ _ _ _ _ _ Ht Htt Hdenied). }
      split; [apply frames_written, Hh|].
      unfold performed. rewrite Hh. simpl. apply drop_all.
  - intros Hnone ->. left. rewrite Hnone. reflexivity.
Qed.

(** C10.  A frame that does not decode (the codec rejects it, or what it
    holds is not a dict with [msg_id], [msg] and [auth]) is answered with
    one exception message under the id ['invalid'], and nothing is called. *)
Theorem undecoded_frame_answered_as_invalid websocket_msg w :
  (∀ e, decode websocket_msg = inl e →
        frames webserver websocket_msg w = [envelope (PyStr "invalid") (exception e)]
        ∧ performed webserver websocket_msg w = [])
  ∧ ((∃ e, decode websocket_msg = inl e)
     ↔ (∃ e, deserialize websocket_msg = inl e)
       ∨ ∃ o, deserialize websocket_msg = inr o
              ∧ (lacks o "msg_id" ∨ lacks o "msg" ∨ lacks o "auth")).
Proof.
  split.
  - intros e Hd.
    assert (handle webserver websocket_msg w
            = write_message (envelope (PyStr "invalid") (exception e)) w) as Hh
      by (apply handle_raised_early, on_message_try_undecoded, Hd).
    split; [apply frames_written, Hh|].
    unfold performed. rewrite Hh. simpl. apply drop_all.
  - unfold decode. destruct (deserialize websocket_msg) as [e|o]; [split; eauto|].
    assert (∀ key, lacks o key ↔ ∃ e, py_getitem o key = inl e) as Hl.
    { intros key. destruct o; simpl; try (split; eauto; fail).
      destruct (d !! key); split; eauto; try discriminate. intros [e [=]]. }
    split.
    + intros [e He]. right. exists o. split; [reflexivity|]. rewrite !Hl.
      destruct (py_getitem o "msg_id"); [eauto|].
      destruct (py_getitem o "msg"); [eauto|].
      destruct (py_getitem o "auth"); [eauto|discriminate].
    + intros [[e [=]]|(o' & [= <-] & Hlacks)]. rewrite !Hl in Hlacks.
      destruct (py_getitem o "msg_id"); [eauto|].
      destruct (py_getitem o "msg"); [eauto|].
      destruct (py_getitem o "auth"); [eauto|].
      destruct Hlacks as [[e [=]]|[[e [=]]|[e [=]]]].
Qed.

End Admission.

(** * The server object *)

Section Catalog.
Import Server.
Context `{Vaex}.

Lemma dict_by_name_snoc l ds :
  dict_by_name (l ++ [ds]) = <[name ds := ds]> (dict_by_name l).
Proof. unfold dict_by_name. rewrite foldl_app. reflexivity. Qed.

Lemma dict_by_name_lookup l n :
  dict_by_name l !! n = last (filter (λ ds, name ds = n) l).
Proof.
  induction l as [|ds l IH] using rev_ind; [reflexivity|].
  rewrite dict_by_name_snoc, filter_app, filter_cons, filter_nil.
  destruct (decide (name ds = n)) as [<-|Hne].
  - rewrite lookup_insert_eq, last_snoc. reflexivity.
  - rewrite lookup_insert_ne by exact Hne. rewrite app_nil_r. exact IH.
Qed.

Lemma dict_by_name_NoDup l ds :
  NoDup (name <$> l) → ds ∈ l → dict_by_name l !! name ds = Some ds.
Proof.
  induction l as [|d l IH] using rev_ind; intros Hnd Hin;
    [apply elem_of_nil in Hin as []|].
  rewrite fmap_app in Hnd. apply NoDup_app in Hnd as (Hnd & Hd & _).
  rewrite dict_by_name_snoc. apply elem_of_app in Hin as [Hin|Hin].
  - rewrite lookup_insert_ne; [auto|].
    intros Heq. apply (Hd (name ds)).
    + apply list_elem_of_fmap. eauto.
    + rewrite <- Heq. simpl. apply list_elem_of_singleton. reflexivity.
  - apply list_elem_of_singleton in Hin as ->. apply lookup_insert_eq.
Qed.

(** [set_datasets] replaces the catalog as a whole: afterwards the
    service's [df_map] is the server's [datasets_map], a name resolves to
    the last dataset of the new list that carries it (to nothing when none
    does), whatever the catalog held before; when the names are distinct
    every dataset of the list is found under its name. *)
Theorem set_datasets_resolves_the_last_of_a_name new self n :
  datasets (set_datasets new self) = new
  ∧ df_map (set_datasets new self) = datasets_map (set_datasets new self)
  ∧ df_map (set_datasets new self) !! n = last (filter (λ ds, name ds = n) new)
  ∧ (df_map (set_datasets new self) !! n = None ↔ n ∉ name <$> new)
  ∧ (NoDup (name <$> new) →
     ∀ ds, ds ∈ new → df_map (set_datasets new self) !! name ds = Some ds)
  ∧ ∀ old, set_datasets new (set_datasets old self) = set_datasets new self.
Proof.
  split; [reflexivity|]. split; [reflexivity|]. simpl.
  split; [apply dict_by_name_lookup|]. split; [|split].
  - rewrite dict_by_name_lookup, last_None. split.
    + intros Hnil Hin. apply list_elem_of_fmap in Hin as (ds & -> & Hin).
      eapply filter_nil_not_elem_of; [exact Hnil| |exact Hin]. reflexivity.
    + intros Hn. destruct (filter _ new) as [|ds l] eqn:Hf; [reflexivity|].
      destruct Hn. assert (ds ∈ filter (λ ds, name ds = n) new) as Hin
        by (rewrite Hf; left).
      apply list_elem_of_filter in Hin as [<- Hin]. apply list_elem_of_fmap. eauto.
  - intros Hnd ds Hin. apply dict_by_name_NoDup; assumption.
  - reflexivity.
Qed.

End Catalog.

(** * [main] *)

Section MainProperties.
Import Server Main.
Context `{Vaex}.

Lemma open_files_returns filenames : ∀ datasets printed datasets' printed',
  open_files filenames datasets printed = inr (datasets', printed') →
  datasets' = datasets ++ opened filenames
  ∧ printed' = printed ++ unopened filenames.
Proof.
  induction filenames as [|filename filenames IH]; intros ds pr ds' pr' Ho.
  - injection Ho as <- <-. simpl. rewrite !app_nil_r. auto.
  - simpl in Ho. unfold opened, unopened, gives_none in *.
    rewrite filter_cons. simpl omap.
    destruct (vx_open filename) as [e|[d|]]; [discriminate|..].
    + apply IH in Ho as [-> ->]. simpl. rewrite <- app_assoc. auto.
    + apply IH in Ho as [-> ->]. simpl. rewrite <- app_assoc. auto.
Qed.

Lemma main_returns config l :
  main config = inr l →
  ∃ level datasets,
    list_getitem verbosity (verbose config) = inr level
    ∧ or_example (opened (filename config)) = inr datasets
    ∧ l = {| log_level := level;
             printed := unopened (filename config);
             server :=
               Server.init (Some (address config)) (Some (port config)) None
                 (Some (cache config)) (token config) (token_trusted config)
                 None (Some datasets)
                 (Some (compress config)) (Some (development config))
                 (Some (threads_per_job config)) |}.
Proof.
  unfold main. intros Hm.
  destruct (list_getitem verbosity (verbose config)) as [e|level]; [discriminate|].
  destruct (open_files (filename config) [] []) as [e|[ds pr]] eqn:Ho; [discriminate|].
  apply open_files_returns in Ho as [-> ->]. simpl in Hm.
  destruct (or_example (opened (filename config))) as [e|ds]; [discriminate|].
  injection Hm as <-. eauto.
Qed.

(** [main] never starts a server without a dataset: when it gets as far as
    building the server, that serves the files that opened, in the order of
    the command line, or the example alone when none opened; each dataset
    served resolves under its name to a dataset of that name; and what was
    printed are the files for which [vx.open] gave [None]. *)
Theorem main_serves_a_dataset config l :
  main config = inr l →
  datasets (server l) ≠ []
  ∧ (opened (filename config) ≠ [] → datasets (server l) = opened (filename config))
  ∧ (opened (filename config) = [] →
     ∃ example, vx_example = inr example ∧ datasets (server l) = [example])
  ∧ (∀ ds, ds ∈ datasets (server l) →
       ∃ ds', df_map (server l) !! name ds = Some ds' ∧ name ds' = name ds)
  ∧ printed l = unopened (filename config).
Proof.
  intros Hm. apply main_returns in Hm as (level & ds & _ & Hex & ->). simpl.
  assert (ds ≠ [] ∧ (opened (filename config) ≠ [] → ds = opened (filename config))
          ∧ (opened (filename config) = [] →
             ∃ example, vx_example = inr example ∧ ds = [example])) as (Hne & Hsome & Hnone).
  { unfold or_example in Hex. destruct (opened (filename config)) as [|d l'].
    - destruct vx_example as [e|example]; [discriminate|]. injection Hex as <-.
      repeat split; [discriminate|intros []; reflexivity|eauto].
    - injection Hex as <-. repeat split; [discriminate|discriminate]. }
  repeat split; try assumption.
  intros d Hin. rewrite dict_by_name_lookup.
  destruct (last (filter (λ ds0, name ds0 = name d) ds)) as [d'|] eqn:Hlast.
  - exists d'. split; [reflexivity|].
    apply last_Some_elem_of, list_elem_of_filter in Hlast as [Hn _]. exact Hn.
  - apply last_None in Hlast.
    destruct (filter_nil_not_elem_of _ _ d Hlast eq_refl Hin).
Qed.

Lemma list_getitem_verbosity i :
  list_getitem verbosity i
  = if (i <? -4)%Z || (4 <=? i)%Z then inl (IndexError "list index out of range")
    else match (if (i <? 0)%Z then i + 4 else i)%Z with
         | 0%Z => inr "ERROR"
         | 1%Z => inr "WARNING"
         | 2%Z => inr "INFO"
         | _ => inr "DEBUG"
         end.
Proof.
  unfold list_getitem, verbosity. cbv zeta. simpl length.
  change (Z.of_nat 4) with 4%Z.
  destruct (i <? 0)%Z eqn:Hneg.
  - apply Z.ltb_lt in Hneg.
    destruct (i <? -4)%Z eqn:Hlow.
    + apply Z.ltb_lt in Hlow. simpl.
      replace (i + 4 <? 0)%Z with true by (symmetry; apply Z.ltb_lt; lia). reflexivity.
    + apply Z.ltb_ge in Hlow.
      replace (4 <=? i)%Z with false by (symmetry; apply Z.leb_gt; lia).
      replace (i + 4 <? 0)%Z with false by (symmetry; apply Z.ltb_ge; lia).
      replace (4 <=? i + 4)%Z with false by (symmetry; apply Z.leb_gt; lia).
      simpl. assert (i = -4 ∨ i = -3 ∨ i = -2 ∨ i = -1)%Z as [-> | [-> | [-> | ->] ] ] by lia;
        reflexivity.
  - apply Z.ltb_ge in Hneg.
    replace (i <? -4)%Z with false by (symmetry; apply Z.ltb_ge; lia).
    replace (i <? 0)%Z with false by (symmetry; apply Z.ltb_ge; lia). simpl.
    destruct (4 <=? i)%Z eqn:Hhigh; [reflexivity|].
    apply Z.leb_gt in Hhigh.
    assert (i = 0 ∨ i = 1 ∨ i = 2 ∨ i = 3)%Z as [-> | [-> | [-> | ->] ] ] by lia; reflexivity.
Qed.

(** The verbosity on the command line: without [-v] the level is
    ['INFO'], with one [-v] it is ['DEBUG'], and with two or more [main]
    raises [IndexError] at line 272, before a file is opened or a server
    built; ['ERROR'] and ['WARNING'] cannot be chosen. *)
Theorem verbosity_beyond_debug_fails config flags :
  verbose config = verbose_after flags →
  ((2 ≤ flags)%nat → main config = inl (IndexError "list index out of range"))
  ∧ ∀ l, main config = inr l →
         (flags = 0 ∧ log_level l = "INFO") ∨ (flags = 1 ∧ log_level l = "DEBUG").
Proof.
  intros Hv. unfold verbose_after in Hv. split.
  - intros Hf. unfold main. rewrite list_getitem_verbosity, Hv.
    replace (2 + Z.of_nat flags <? -4)%Z with false by (symmetry; apply Z.ltb_ge; lia).
    replace (4 <=? 2 + Z.of_nat flags)%Z with true by (symmetry; apply Z.leb_le; lia).
    reflexivity.
  - intros l Hm. apply main_returns in Hm as (level & ds & Hl & _ & ->). simpl.
    rewrite list_getitem_verbosity, Hv in Hl.
    destruct flags as [|[|flags]].
    + left. simpl in Hl. injection Hl as <-. auto.
    + right. simpl in Hl. injection Hl as <-. auto.
    + exfalso.
      replace (2 + Z.of_nat (S (S flags)) <? -4)%Z with false in Hl
        by (symmetry; apply Z.ltb_ge; lia).
      replace (4 <=? 2 + Z.of_nat (S (S flags)))%Z with true in Hl
        by (symmetry; apply Z.leb_le; lia).
      discriminate.
Qed.

(** What the command line reaches: [--cache] sizes the general cache only,
    the selection cache keeps the 500 MiB of the signature and the server
    its two threads; the tokens are handed over as given, so that without
    [--token] a request that carries no token is authorized, and without
    [--token-trusted] no request is trusted. *)
Theorem main_configures_the_server config l :
  main config = inr l →
  cache_byte_size (server l) = cache config
  ∧ cache_selection_byte_size (server l) = 524288000%Z
  ∧ webserver_thread_count (server l) = 2%Z
  ∧ credentials (server l)
    = {| WebServer.token := token config;
         WebServer.token_trusted := token_trusted config |}
  ∧ (token config = None →
     ∀ rtoken_trusted, authorized (credentials (server l)) PyNone rtoken_trusted = true)
  ∧ (token_trusted config = None →
     ∀ rtoken_trusted, trusted_of (credentials (server l)) rtoken_trusted = false).
Proof.
  intros Hm. apply main_returns in Hm as (level & ds & _ & _ & ->). simpl.
  repeat split.
  - intros -> rtt. reflexivity.
  - intros -> rtt. unfold trusted_of. simpl. destruct rtt; reflexivity.
Qed.

End MainProperties.

(** * The life of the server *)

Section Life.
Import Lifecycle.
Context `{Tornado}.

Lemma L_run_bind {A B} (m : L A) (k : A → L B) s :
  (m ≫= k) s =
  match m s with
  | (inl e, s') => (inl e, s')
  | (inr a, s') => k a s'
  end.
Proof. reflexivity. Qed.

Lemma getattr_bound attr s : attr ∈ attrs s → getattr attr s = (inr (), s).
Proof. intros Hin. unfold getattr. rewrite bool_decide_eq_true_2; auto. Qed.

Lemma getattr_unbound attr s :
  attr ∉ attrs s → getattr attr s = (inl (AttributeError attr), s).
Proof. intros Hin. unfold getattr. rewrite bool_decide_eq_false_2; auto. Qed.

Ltac lstep :=
  rewrite L_run_bind, getattr_bound by (simpl; set_solver); cbv beta iota.

(** [mainloop] and the [started] event.  With the loop and the HTTP server
    object in hand, [started] is set whether the bind succeeds or not; when
    the bind raises, the exception goes on to the caller and the loop is not
    started; a [RuntimeError] out of the loop is dropped, any other
    exception goes on.  When the loop or the HTTP server object cannot be
    had, [started] is left as it was. *)
Theorem mainloop_signals_started s :
  {[ "address"; "port"; "application"; "started" ]} ⊆ attrs s →
  match ioloop_current, http_server with
  | inr _, inr _ =>
      started (mainloop s).2 = true
      ∧ attrs (mainloop s).2 = {[ "server" ]} ∪ ({[ "ioloop" ]} ∪ attrs s)
      ∧ (mainloop s).1
        = match listen with
          | inl e => inl e
          | inr _ =>
              match loop_start with
              | inl e => if is_RuntimeError e then inr () else inl e
              | inr _ => inr ()
              end
          end
      ∧ trace (mainloop s).2
        = trace s ++ Listen :: SetStarted
            :: match listen with
               | inl _ => []
               | inr _ =>
                   (if (5 <=? version_major)%Z then [SetPolicy] else []) ++ [StartLoop]
               end
  | inl e, _ => mainloop s = (inl e, s)
  | inr _, inl e =>
      (mainloop s).1 = inl e
      ∧ started (mainloop s).2 = started s
      ∧ trace (mainloop s).2 = trace s
  end.
Proof.
  intros Hin. unfold mainloop, set_started.
  unfold answer, setattr, call, mark_started, or_reraise, pass_RuntimeError.
  lstep. lstep. rewrite L_run_bind.
  destruct ioloop_current as [e|[]]; cbv beta iota; [reflexivity|].
  rewrite L_run_bind; cbv beta iota. lstep. rewrite L_run_bind; cbv beta iota.
  destruct http_server as [e|[]]; cbv beta iota; [auto|].
  rewrite L_run_bind; cbv beta iota. rewrite L_run_bind; cbv beta iota.
  lstep. lstep. lstep.
  destruct listen as [e|[]]; cbv beta iota.
  - lstep. simpl. rewrite <- app_assoc. auto.
  - rewrite L_run_bind; cbv beta iota. lstep.
    rewrite L_run_bind; cbv beta iota.
    destruct (5 <=? version_major)%Z.
    + lstep.
      destruct loop_start as [e|[]]; [destruct (is_RuntimeError e)|]; simpl;
        rewrite <- !app_assoc; auto.
    + simpl. lstep.
      destruct loop_start as [e|[]]; [destruct (is_RuntimeError e)|]; simpl;
        rewrite <- !app_assoc; auto.
Qed.

(** [stop_serving]: on an object whose [mainloop] has not bound [server]
    it raises [AttributeError] and stops nothing; with [server], [ioloop]
    and [service] bound it stops the server, the loop and the service in
    this order, and what one of them raises leaves the later ones
    running. *)
Theorem stop_serving_stops_in_order s :
  ("server" ∉ attrs s → stop_serving s = (inl (AttributeError "server"), s))
  ∧ ({[ "server"; "ioloop"; "service" ]} ⊆ attrs s →
     (stop_serving s).1
     = match server_stop with
       | inl e => inl e
       | inr _ => match loop_stop with
                  | inl e => inl e
                  | inr _ => service_stop
                  end
       end
     ∧ trace (stop_serving s).2
       = trace s ++ StopServer
           :: match server_stop with
              | inl _ => []
              | inr _ => StopLoop :: match loop_stop with
                                     | inl _ => []
                                     | inr _ => [StopService]
                                     end
              end
     ∧ attrs (stop_serving s).2 = attrs s).
Proof.
  split.
  - intros Hno. unfold stop_serving. rewrite L_run_bind, getattr_unbound by exact Hno.
    reflexivity.
  - intros Hin. unfold stop_serving, call.
    lstep. rewrite L_run_bind; cbv beta iota.
    destruct server_stop as [e|[]]; cbv beta iota; [simpl; auto|].
    lstep. rewrite L_run_bind; cbv beta iota.
    destruct loop_stop as [e|[]]; cbv beta iota; [simpl; rewrite <- app_assoc; auto|].
    lstep. simpl. rewrite <- !app_assoc. auto.
Qed.

(** *** Names the methods bind *)

Lemma binds_within_ret allowed {A} (a : A) : binds_within allowed (mret a).
Proof. intros s. simpl. set_solver. Qed.

Lemma binds_within_bind allowed {A B} (m : L A) (k : A → L B) :
  binds_within allowed m → (∀ a, binds_within allowed (k a)) →
  binds_within allowed (m ≫= k).
Proof.
  intros Hm Hk s. rewrite L_run_bind. specialize (Hm s).
  destruct (m s) as [[e|a] s']; simpl in *; [exact Hm|].
  specialize (Hk a s'). intros x Hx. apply Hk, elem_of_union in Hx as [Hx|Hx].
  - apply Hm, Hx.
  - apply elem_of_union_r, Hx.
Qed.

Lemma binds_within_getattr allowed attr : binds_within allowed (getattr attr).
Proof. intros s. unfold getattr. destruct (bool_decide _); simpl; set_solver. Qed.

Lemma binds_within_setattr allowed attr :
  attr ∈ allowed → binds_within allowed (setattr attr).
Proof.
  intros Hin s x. simpl. rewrite !elem_of_union, elem_of_singleton.
  intros [->|Hx]; auto.
Qed.

Lemma binds_within_call allowed e outcome : binds_within allowed (call e outcome).
Proof. intros s. simpl. set_solver. Qed.

Lemma binds_within_answer allowed outcome : binds_within allowed (answer outcome).
Proof. intros s. simpl. set_solver. Qed.

Lemma binds_within_mark_started allowed : binds_within allowed mark_started.
Proof. intros s. simpl. set_solver. Qed.

Lemma binds_within_or_reraise allowed (m handler : L ()) :
  binds_within allowed m → binds_within allowed handler →
  binds_within allowed (or_reraise m handler).
Proof.
  intros Hm Hh s. unfold or_reraise. specialize (Hm s).
  destruct (m s) as [[e|a] s']; simpl in *; [|exact Hm].
  specialize (Hh s').
  assert (attrs (handler s').2 ⊆ attrs s ∪ allowed) as Hs.
  { intros x Hx. apply Hh, elem_of_union in Hx as [Hx|Hx].
    - apply Hm, Hx.
    - apply elem_of_union_r, Hx. }
  destruct (handler s') as [[e'|a] s'']; exact Hs.
Qed.

Lemma binds_within_pass_RuntimeError allowed (m : L ()) :
  binds_within allowed m → binds_within allowed (pass_RuntimeError m).
Proof.
  intros Hm s. unfold pass_RuntimeError. specialize (Hm s).
  destruct (m s) as [[e|a] s']; [destruct (is_RuntimeError e)|]; exact Hm.
Qed.

#[local] Hint Resolve binds_within_ret binds_within_getattr binds_within_call
  binds_within_answer binds_within_mark_started : core.

Ltac binding :=
  repeat first
    [ solve [auto]
    | solve [apply binds_within_setattr; set_solver]
    | apply binds_within_or_reraise
    | apply binds_within_pass_RuntimeError
    | match goal with |- binds_within _ (if ?c then _ else _) => destruct c end
    | apply binds_within_bind; [|intros] ].

(** The names a method may bind. *)
Lemma invoke_binds m :
  binds_within {[ "ioloop"; "server"; "datasets"; "datasets_map" ]} (invoke m).
Proof.
  destruct m; simpl;
    unfold serve, run, mainloop, stop_serving, submit_threaded, set_datasets, set_started;
    binding.
Qed.

Lemma after_binds ms s :
  attrs (after ms s) ⊆ attrs s ∪ {[ "ioloop"; "server"; "datasets"; "datasets_map" ]}.
Proof.
  revert s. induction ms as [|m ms IH]; intros s; simpl.
  - apply union_subseteq_l.
  - intros x Hx. apply IH, elem_of_union in Hx as [Hx|Hx].
    + apply (invoke_binds m s), Hx.
    + apply elem_of_union_r, Hx.
Qed.

(** None of [__init__], [set_datasets], [serve], [run], [mainloop],
    [stop_serving] and [submit_threaded] binds [thread_pool]: whichever of
    them have been called on the object since [__init__], in whatever
    order, [submit_threaded] raises [AttributeError] and hands nothing to a
    pool. *)
Theorem submit_threaded_never_submits ms :
  submit_threaded (after ms init)
  = (inl (AttributeError "thread_pool"), after ms init).
Proof.
  unfold submit_threaded. rewrite L_run_bind, getattr_unbound; [reflexivity|].
  intros Hin. apply after_binds in Hin.
  assert (bool_decide
            ("thread_pool" ∈ attrs init
               ∪ ({[ "ioloop"; "server"; "datasets"; "datasets_map" ]} : gset string))
          = false) as Hno by (vm_compute; reflexivity).
  apply bool_decide_eq_false in Hno. contradiction.
Qed.

End Life.


(** * The handler at work on the small deployment *)

Import Demo.

(** ** The final progress value *)

(** Lines 100-101 write nothing: once [last_progress] is 1 the guard's
    [f > last_progress] is false for [f = 1]. *)
Lemma final_progress_dropped `{Collaborators} (σ : invocation) :
  progress 1 true (set_last_progress (Some 1%float) σ)
  = (inr true, set_last_progress (Some 1%float) σ).
Proof. reflexivity. Qed.

(** C1 fails on the code.  An [execute] request on the open server, whose
    job reports 0.5 and returns: the client gets the progress message 0.5
    and the result, and no progress message 1.0; and so it is in every state,
    since the call of line 101 never writes. *)
Theorem execute_completes_without_final_progress :
  frames webserver_open (frame_no 2) w0
  = [envelope (PyStr "m2") (progress_msg 0.5);
     envelope (PyStr "m2") (result_msg (PyList [PyInt 10]))]
  ∧ frames webserver_open (frame_no 1) w0
    = [envelope (PyStr "m1") (result_msg (PyList [PyInt 10]))]
  ∧ ∀ σ : invocation,
      (progress 1 true (set_last_progress (Some 1%float) σ)).2
      = set_last_progress (Some 1%float) σ.
Proof. repeat split; vm_compute; reflexivity. Qed.

(** ** Progress handed to the IOLoop *)

(** C4 fails on the code.  The job reports 0.25 twice before the IOLoop
    runs the first scheduled [do]: both reports find [last_progress] unset,
    both are scheduled, and the client gets 0.25 twice. *)
Theorem deferred_progress_repeats_a_value :
  frames webserver_open (frame_no 3) w0
  = [envelope (PyStr "m3") (progress_msg 0.25);
     envelope (PyStr "m3") (progress_msg 0.25);
     envelope (PyStr "m3") (result_msg (PyList [PyInt 10]))].
Proof. vm_compute. reflexivity. Qed.

(** ** Instances of the theorems *)

Lemma frames_carry_msg_id_witness :
  decode (frame_no 2)
  = inr (PyStr "m2", execute_msg "a" [PyFloat 0.5; PyNone], open_auth)
  ∧ Forall (λ frame, py_getitem frame "msg_id" = inr (PyStr "m2"))
           (frames webserver_open (frame_no 2) w0).
Proof.
  split; [reflexivity|].
  apply (frames_carry_msg_id webserver_open (frame_no 2) w0 (PyStr "m2")
           (execute_msg "a" [PyFloat 0.5; PyNone]) open_auth).
  reflexivity.
Defined.

Lemma undecoded_frame_answered_as_invalid_witness :
  deserialize (frame_no 7)
  = inr (PyDict {[ "msg_id" := PyStr "m7";
                   "msg" := PyDict {[ "command" := PyStr "list" ]} ]})
  ∧ frames webserver_open (frame_no 7) w0
    = [envelope (PyStr "invalid") (exception (KeyError "auth"))]
  ∧ deserialize (frame_no 11) = inr (PyList [PyStr "m11"])
  ∧ frames webserver_open (frame_no 11) w0
    = [envelope (PyStr "invalid")
         (exception (TypeError "list indices must be integers or slices, not str"))].
Proof.
  split; [reflexivity|]. split.
  - apply (proj1 (undecoded_frame_answered_as_invalid webserver_open (frame_no 7) w0)
             (KeyError "auth")).
    reflexivity.
  - split; [reflexivity|].
    apply (proj1 (undecoded_frame_answered_as_invalid webserver_open (frame_no 11) w0)
             (TypeError "list indices must be integers or slices, not str")).
    reflexivity.
Defined.

(** C6 as stated fails: frame 7 holds a [msg_id] that reads well, but no
    [auth]; line 62 raises before it binds anything, and the answer goes out
    under ['invalid']. *)
Lemma msg_id_without_auth_counterexample :
  (∃ o, deserialize (frame_no 7) = inr o ∧ py_getitem o "msg_id" = inr (PyStr "m7"))
  ∧ frames webserver_open (frame_no 7) w0
    = [envelope (PyStr "invalid") (exception (KeyError "auth"))]
  ∧ ¬ Forall (λ frame, py_getitem frame "msg_id" = inr (PyStr "m7"))
             (frames webserver_open (frame_no 7) w0).
Proof.
  assert (frames webserver_open (frame_no 7) w0
          = [envelope (PyStr "invalid") (exception (KeyError "auth"))]) as Hf
    by (vm_compute; reflexivity).
  split; [eexists; split; reflexivity|]. split; [exact Hf|].
  rewrite Hf. intros Hall. apply Forall_cons in Hall as [Hid _].
  vm_compute in Hid. discriminate.
Qed.

Lemma authorized_iff_witness :
  decode (frame_no 0)
  = inr (PyStr "m0", PyDict {[ "command" := PyStr "list" ]}, open_auth)
  ∧ credentials_match webserver_open PyNone PyNone
  ∧ on_message_try webserver_open (frame_no 0) (enter w0)
    = dispatch (PyDict {[ "command" := PyStr "list" ]})
        (trusted_of webserver_open PyNone) (Invocation w0 (PyStr "m0") None [])
  ∧ ¬ turned_away webserver_open (frame_no 0) w0 (PyStr "m0").
Proof.
  destruct (authorized_iff webserver_open (frame_no 0) w0 (PyStr "m0")
              (PyDict {[ "command" := PyStr "list" ]}) open_auth PyNone PyNone
              eq_refl eq_refl eq_refl) as (_ & Hthrough & Haway & Hnone).
  assert (credentials_match webserver_open PyNone PyNone) as Hm
    by (apply Hnone; reflexivity).
  split; [reflexivity|]. split; [exact Hm|]. split; [apply Hthrough, Hm|].
  intros Hno. apply Haway in Hno. contradiction.
Defined.

(** C2 as stated fails: on a server started without a token, a request
    whose token is the empty string does not satisfy the equality of line 68
    and is turned away. *)
Lemma empty_request_token_counterexample :
  WebServer.token webserver_open = None
  ∧ decode (frame_no 10)
    = inr (PyStr "m10", PyDict {[ "command" := PyStr "list" ]},
           auth (PyStr "") PyNone)
  ∧ authorized webserver_open (PyStr "") PyNone = false
  ∧ turned_away webserver_open (frame_no 10) w0 (PyStr "m10").
Proof.
  split; [reflexivity|]. split; [reflexivity|]. split; [reflexivity|].
  split; vm_compute; reflexivity.
Qed.

Lemma failure_boundary_witness :
  failure webserver_open (frame_no 9) w0 DatasetResolution (PyStr "m9") (KeyError "zz")
  ∧ told webserver_open (frame_no 9) w0 (PyStr "m9") (KeyError "zz").
Proof.
  assert (failure webserver_open (frame_no 9) w0 DatasetResolution (PyStr "m9")
            (KeyError "zz")) as Hf.
  { apply (fail_lookup webserver_open (frame_no 9) w0 (PyStr "m9")
             (execute_msg "zz" []) false (PyStr "zz") (KeyError "zz") (service w0)).
    - exists open_auth, PyNone, PyNone. repeat split; reflexivity.
    - left. reflexivity.
    - reflexivity.
    - reflexivity. }
  split; [exact Hf|].
  apply (proj1 (failure_boundary webserver_open (frame_no 9) w0) _ _ _ Hf).
Defined.

Lemma unauthorized_request_changes_nothing_witness :
  authorized webserver (PyStr "guess") PyNone = false
  ∧ frames webserver (frame_no 5) w0
    = [envelope (PyStr "m5")
         (exception (ValueError "No token provided, not authorized"))]
  ∧ performed webserver (frame_no 5) w0 = []
  ∧ ∀ n, untouched w0 (Nat.iter n (handle webserver (frame_no 5)) w0).
Proof.
  split; [reflexivity|].
  apply (unauthorized_request_changes_nothing webserver (frame_no 5) w0 (PyStr "m5")
           (PyDict {[ "command" := PyStr "frobnicate" ]})
           (auth (PyStr "guess") PyNone) (PyStr "guess") PyNone);
    reflexivity.
Defined.

Lemma unknown_command_answered_witness :
  authorized webserver_open PyNone PyNone = true
  ∧ frames webserver_open (frame_no 4) w0
    = [envelope (PyStr "m4") (exception (ValueError "Unknown command: frobnicate"))]
  ∧ answered_with_command_error webserver_open (frame_no 4) w0 (PyStr "m4") "frobnicate".
Proof.
  split; [reflexivity|].
  apply (unknown_command_answered webserver_open (frame_no 4) w0 (PyStr "m4")
           (PyDict {[ "command" := PyStr "frobnicate" ]})
           open_auth PyNone PyNone (PyStr "frobnicate"));
    first [reflexivity|discriminate].
Defined.

(** C7 as stated fails: the same unknown command sent with a wrong token is
    answered by the authorization error, which does not mention the
    command. *)
Lemma unknown_command_unauthorized_counterexample :
  decode (frame_no 5)
  = inr (PyStr "m5", PyDict {[ "command" := PyStr "frobnicate" ]},
         auth (PyStr "guess") PyNone)
  ∧ ¬ answered_with_command_error webserver (frame_no 5) w0 (PyStr "m5") "frobnicate".
Proof.
  split; [reflexivity|].
  intros (e & Hf & Hm).
  assert (frames webserver (frame_no 5) w0
          = [envelope (PyStr "m5")
               (exception (ValueError "No token provided, not authorized"))]) as Hg
    by (vm_compute; reflexivity).
  rewrite Hg in Hf. apply singleton_eq, (f_equal error_text) in Hf.
  rewrite !error_text_envelope in Hf.
  injection Hf as Hf. simpl in Hf. rewrite <- Hf in Hm.
  vm_compute in Hm. discriminate.
Qed.

Lemma method_off_the_allow_list_never_invoked_witness :
  method_allowed (PyStr "arbitrary_unsafe_call") = false
  ∧ (∃ id e, frames webserver_open (frame_no 6) w0 = [envelope id (exception e)])
  ∧ Forall (λ c, is_rmi c = false) (performed webserver_open (frame_no 6) w0).
Proof.
  split; [reflexivity|].
  apply (method_off_the_allow_list_never_invoked webserver_open (frame_no 6) w0
           (request "m6" (call_msg "a" "arbitrary_unsafe_call") open_auth)
           (call_msg "a" "arbitrary_unsafe_call")
           (PyStr "arbitrary_unsafe_call"));
    reflexivity.
Defined.

Lemma prompt_progress_is_increasing_witness :
  nondecreasing reports
  ∧ written (shared (suspension (prompt reports) (enter w0)).2)
    = written (shared (enter w0))
      ++ ((λ f, envelope (msg_id (enter w0)) (progress_msg f)) <$> throttle None reports)
  ∧ increasing (throttle None reports)
  ∧ head (throttle None reports) = head reports
  ∧ (1%float ∈ reports → 1%float ∈ throttle None reports).
Proof.
  assert (nondecreasing reports) as Hs by (repeat constructor).
  split; [exact Hs|].
  apply (prompt_progress_is_increasing reports (enter w0));
    [reflexivity|reflexivity|exact Hs].
Defined.

(** ** More runs *)

(** What [throttle] selects of [reports]: 0.28125 is within 0.05 of 0.25,
    and the second 1.0 is not above the first. *)
Example throttle_reports : throttle None reports = [0.25; 0.5; 1]%float.
Proof. reflexivity. Qed.

Example list_answered :
  frames webserver_open (frame_no 0) w0
  = [envelope (PyStr "m0") (result_msg (PyList [PyStr "a"]))].
Proof. vm_compute. reflexivity. Qed.

(** A dataset that is not in the catalog: the [KeyError] of the lookup comes
    back as the error envelope. *)
Example unknown_dataset_answered :
  frames webserver_open (frame_no 9) w0
  = [envelope (PyStr "m9") (exception (KeyError "zz"))].
Proof. vm_compute. reflexivity. Qed.

(** A method on the allow-list is invoked. *)
Example allowed_method_invoked :
  performed webserver_open (frame_no 8) w0
  = [CallGetitem (PyStr "a"); CallCopy; CallStateSet false;
     CallRmi (PyStr "_evaluate_implementation") (PyList []) (PyDict ∅);
     CallEncode "vaex-evaluate-result"].
Proof. vm_compute. reflexivity. Qed.

(** ** Instances of the theorems about the commands *)

Lemma single_answer_unless_execute_witness :
  decode (frame_no 0)
  = inr (PyStr "m0", PyDict {[ "command" := PyStr "list" ]}, open_auth)
  ∧ ∃ answer, frames webserver_open (frame_no 0) w0 = [answer]
              ∧ is_terminal_frame answer.
Proof.
  assert (decode (frame_no 0)
          = inr (PyStr "m0", PyDict {[ "command" := PyStr "list" ]}, open_auth)) as Hd
    by reflexivity.
  split; [exact Hd|].
  apply (single_answer_unless_execute webserver_open (frame_no 0) w0).
  intros id msg auth Hd'. rewrite Hd in Hd'. injection Hd' as _ <- _.
  discriminate.
Defined.

Lemma progress_sent_is_a_subsequence_witness :
  callbacks (enter w0) = []
  ∧ ∃ sent,
      written (shared (run_callbacks
                         (suspension [Report 0.25; Report 0.28125; RunCallback;
                                      Report 0.5; RunCallback]
                                     (enter w0)).2))
      = written (shared (enter w0)) ++ progress_frames (msg_id (enter w0)) sent
      ∧ sent `sublist_of` [0.25; 0.28125; 0.5]%float
      ∧ (last_progress (enter w0) = None → head sent = Some 0.25%float)
      ∧ (nondecreasing [0.25; 0.28125; 0.5]%float → nondecreasing sent).
Proof.
  split; [reflexivity|].
  apply (progress_sent_is_a_subsequence
           [Report 0.25; Report 0.28125; RunCallback; Report 0.5; RunCallback]
           (enter w0)).
  reflexivity.
Defined.

Lemma list_returns_the_catalog_witness :
  service_list (service w0) = (inr (PyList [PyStr "a"]), service w0)
  ∧ frames webserver_open (frame_no 0) w0
    = [envelope (PyStr "m0") (result_msg (PyList [PyStr "a"]))]
  ∧ performed webserver_open (frame_no 0) w0 = [CallList]
  ∧ service (handle webserver_open (frame_no 0) w0) = service w0.
Proof.
  split; [reflexivity|].
  apply (list_returns_the_catalog webserver_open (frame_no 0) w0 (PyStr "m0")
           (PyDict {[ "command" := PyStr "list" ]}) open_auth PyNone PyNone
           (PyList [PyStr "a"]) (service w0));
    reflexivity.
Defined.

Lemma unresolved_dataset_is_reported_witness :
  service_getitem (PyStr "zz") (service w0) = (inl (KeyError "zz"), service w0)
  ∧ frames webserver_open (frame_no 9) w0
    = [envelope (PyStr "m9") (exception (KeyError "zz"))]
  ∧ performed webserver_open (frame_no 9) w0 = [CallGetitem (PyStr "zz")]
  ∧ service (handle webserver_open (frame_no 9) w0) = service w0.
Proof.
  split; [reflexivity|].
  apply (unresolved_dataset_is_reported webserver_open (frame_no 9) w0 (PyStr "m9")
           (execute_msg "zz" []) open_auth PyNone PyNone (PyStr "zz")
           (KeyError "zz") (service w0));
    first [reflexivity|left; reflexivity].
Defined.

Lemma call_dataframe_returns_the_method_value_witness :
  method_allowed (PyStr "_evaluate_implementation") = true
  ∧ frames webserver_open (frame_no 8) w0
    = [envelope (PyStr "m8") (result_msg (PyInt 10))]
  ∧ performed webserver_open (frame_no 8) w0
    = [CallGetitem (PyStr "a"); CallCopy;
       CallStateSet (trusted_of webserver_open PyNone);
       CallRmi (PyStr "_evaluate_implementation") (PyList []) (PyDict ∅);
       CallEncode (result_typename (PyStr "_evaluate_implementation"))]
  ∧ service (handle webserver_open (frame_no 8) w0) = service w0.
Proof.
  split; [reflexivity|].
  apply (call_dataframe_returns_the_method_value webserver_open (frame_no 8) w0
           (PyStr "m8") (call_msg "a" "_evaluate_implementation") open_auth
           PyNone PyNone (PyStr "a") 10%Z (service w0) 10%Z (PyDict ∅) 10%Z
           (PyStr "_evaluate_implementation") (PyList []) (PyDict ∅)
           10%Z (service w0) (PyInt 10));
    reflexivity.
Defined.

Lemma execute_returns_the_results_witness :
  service_execute 10%Z [Report 0.5; RunCallback] (service w0)
  = ([Report 0.5; RunCallback], inr [10%Z], service w0)
  ∧ (∃ early late,
       frames webserver_open (frame_no 2) w0
       = progress_frames (PyStr "m2") early
           ++ [envelope (PyStr "m2") (result_msg (PyList [PyInt 10]))]
           ++ progress_frames (PyStr "m2") late
       ∧ early ++ late `sublist_of` reported [Report 0.5; RunCallback])
  ∧ performed webserver_open (frame_no 2) w0
    = [CallGetitem (PyStr "a"); CallCopy;
       CallStateSet (trusted_of webserver_open PyNone);
       CallDecodeList; CallExecute; CallEncodeList]
  ∧ service (handle webserver_open (frame_no 2) w0) = service w0.
Proof.
  split; [reflexivity|].
  apply (execute_returns_the_results webserver_open (frame_no 2) w0
           (PyStr "m2") (execute_msg "a" [PyFloat 0.5; PyNone]) open_auth
           PyNone PyNone (PyStr "a") 10%Z (service w0) 10%Z (PyDict ∅) 10%Z
           (PyList [PyFloat 0.5; PyNone]) [Report 0.5; RunCallback]
           [Report 0.5; RunCallback] [10%Z] (service w0) (PyList [PyInt 10]));
    reflexivity.
Defined.

(** ** Instances of the theorems about [main] and the life of the server *)

Section Installed.
Import Installation.

Lemma main_serves_a_dataset_witness :
  ∃ l, Main.main (command_line ["notes.txt"; "taxi.hdf5"; "gaia.hdf5"] 2) = inr l
       ∧ Server.datasets (Main.server l) = [taxi; gaia]
       ∧ Main.printed l = ["notes.txt"]
       ∧ Server.df_map (Main.server l) !! "gaia" = Some gaia.
Proof.
  eexists. split; [reflexivity|].
  pose proof (main_serves_a_dataset
                (command_line ["notes.txt"; "taxi.hdf5"; "gaia.hdf5"] 2) _ eq_refl)
    as (_ & Hopened & _ & _ & Hprinted).
  split; [apply Hopened; discriminate|].
  split; [exact Hprinted|reflexivity].
Defined.

Lemma verbosity_beyond_debug_fails_witness :
  Main.verbose (command_line ["taxi.hdf5"] 4) = Main.verbose_after 2
  ∧ Main.main (command_line ["taxi.hdf5"] 4)
    = inl (Main.IndexError "list index out of range").
Proof.
  split; [reflexivity|].
  apply (verbosity_beyond_debug_fails (command_line ["taxi.hdf5"] 4) 2 eq_refl).
  lia.
Defined.

Lemma main_configures_the_server_witness :
  ∃ l, Main.main (command_line ["taxi.hdf5"] 2) = inr l
       ∧ Server.cache_byte_size (Main.server l) = 500000000%Z
       ∧ Server.cache_selection_byte_size (Main.server l) = 524288000%Z
       ∧ Server.webserver_thread_count (Main.server l) = 2%Z
       ∧ Server.credentials (Main.server l) = webserver_open.
Proof.
  eexists. split; [reflexivity|].
  pose proof (main_configures_the_server (command_line ["taxi.hdf5"] 2) _ eq_refl)
    as (Hc & Hs & Ht & Hcred & _).
  auto.
Defined.

Lemma mainloop_signals_started_witness :
  {[ "address"; "port"; "application"; "started" ]} ⊆ Lifecycle.attrs Lifecycle.init
  ∧ Lifecycle.started (Lifecycle.mainloop Lifecycle.init).2 = true
  ∧ (Lifecycle.mainloop Lifecycle.init).1 = inr ()
  ∧ Lifecycle.trace (Lifecycle.mainloop Lifecycle.init).2
    = [Lifecycle.Listen; Lifecycle.SetStarted; Lifecycle.SetPolicy; Lifecycle.StartLoop].
Proof.
  assert ({[ "address"; "port"; "application"; "started" ]}
            ⊆ Lifecycle.attrs Lifecycle.init) as Hin
    by (apply (bool_decide_unpack _); vm_compute; exact I).
  split; [exact Hin|].
  pose proof (mainloop_signals_started Lifecycle.init Hin) as (Hs & _ & Hr & Ht).
  auto.
Defined.

Lemma stop_serving_stops_in_order_witness :
  Lifecycle.stop_serving Lifecycle.init
  = (inl (Lifecycle.AttributeError "server"), Lifecycle.init)
  ∧ (Lifecycle.stop_serving (Lifecycle.mainloop Lifecycle.init).2).1 = inr ()
  ∧ Lifecycle.trace (Lifecycle.stop_serving (Lifecycle.mainloop Lifecycle.init).2).2
    = [Lifecycle.Listen; Lifecycle.SetStarted; Lifecycle.SetPolicy; Lifecycle.StartLoop;
       Lifecycle.StopServer; Lifecycle.StopLoop; Lifecycle.StopService].
Proof.
  split.
  - apply (stop_serving_stops_in_order Lifecycle.init).
    apply (bool_decide_unpack _). vm_compute. exact I.
  - destruct (stop_serving_stops_in_order (Lifecycle.mainloop Lifecycle.init).2)
      as [_ Hstop].
    destruct Hstop as (Hr & Ht & _); [|auto].
    apply (bool_decide_unpack _). vm_compute. exact I.
Defined.

End Installed.
